(** * QuizCompetetion: session lifecycle, answer upsert, scoring and leaderboard

    A shallow embedding of the core of the quiz application:
    - [src/features/scoring/scoring_service.py]  (score, leaderboard, export)
    - [src/features/scoring/scoring_data_access.py]  (answer upsert, queries, counts)
    - [src/features/session/session_service.py]  (create / start / next / end / join)
    - [src/features/session/session_data_access.py], [participant_data_access.py]
    - [src/shared/session_code.py]  (bounded code generation)

    Python [float] is IEEE-754 binary64.  Finite doubles are modelled by the
    rationals they denote, and every float operation is the exact rational
    operation followed by rounding to nearest, ties to even ([Float64.RN]).
    Datetimes are integer microsecond counts, as [datetime] stores them. *)

From Stdlib Require Import ZArith QArith Qround Qpower Qreduction Qcanon Qabs.
From Stdlib Require Import List Bool Lia Lqa Permutation Sorted.
From Stdlib Require Import String DecimalString.
From Stdlib Require Floats.SpecFloat.
Import ListNotations.

Local Open Scope Z_scope.

(* ================================================================== *)
(** ** IEEE-754 binary64 rounding on the rationals *)
(* ================================================================== *)

Module Float64.

Local Open Scope Q_scope.

(** Precision and exponent range of binary64. *)
Definition prec : Z := 53.
Definition emin : Z := -1074.
Definition emax : Z := 1024.

Definition pow2 (e : Z) : Q := 2 ^ e.

(** [ilog2 x] is the binade of a positive rational: [2^e <= x < 2^(e+1)]. *)
Definition ilog2 (x : Q) : Z :=
  let e0 := (Z.log2 (Qnum x) - Z.log2 (Zpos (Qden x)))%Z in
  if Qle_bool (pow2 e0) x then e0 else (e0 - 1)%Z.

(** Round a rational to the nearest integer, ties to the even one. *)
Definition rhe (y : Q) : Z :=
  let f := Qfloor y in
  match Qcompare (y - inject_Z f) (1 # 2) with
  | Lt => f
  | Gt => (f + 1)%Z
  | Eq => if Z.even f then f else (f + 1)%Z
  end.

(** Exponent of the unit in the last place used to round [x > 0]. *)
Definition ulp_exp (x : Q) : Z := Z.max (ilog2 x - (prec - 1)) emin.

Definition RNpos (x : Q) : Q :=
  let ex := ulp_exp x in Qred (inject_Z (rhe (x / pow2 ex)) * pow2 ex).

(** Round to nearest even; the argument is normalised first so that equal
    rationals round to the same term. *)
Definition RN (x : Q) : Q :=
  let x := Qred x in
  match Qcompare x 0 with
  | Eq => 0
  | Gt => RNpos x
  | Lt => - RNpos (- x)
  end.

(** Largest finite double, [(2^53 - 1) * 2^971]. *)
Definition max_float : Q := inject_Z ((2 ^ 53 - 1) * 2 ^ 971).

Definition overflows (x : Q) : bool := negb (Qle_bool (Qabs x) max_float).

(** The same operations through the standard library's executable model of
    binary64, used to cross-check [RN] on concrete inputs. *)
Definition to_spec_float (x : Q) : SpecFloat.spec_float :=
  let x := Qred x in
  SpecFloat.binary_normalize 53 1024 (Qnum x) (- Z.log2 (Zpos (Qden x))) false.

Definition of_spec_float (f : SpecFloat.spec_float) : Q :=
  match f with
  | SpecFloat.S754_finite s m e =>
    (if s then - (1) else 1) * inject_Z (Zpos m) * pow2 e
  | _ => 0
  end.

Definition reference_div (x y : Q) : Q :=
  of_spec_float (SpecFloat.SFdiv 53 1024 (to_spec_float x) (to_spec_float y)).

Definition reference_mul (x y : Q) : Q :=
  of_spec_float (SpecFloat.SFmul 53 1024 (to_spec_float x) (to_spec_float y)).

(** The penalty product of the score, by [RN] and by the reference model,
    for an answer [us] microseconds after the start. *)
Definition penalty_product (us tl : Z) : Q :=
  RN (RN (RN (RN (inject_Z us / 1000000) / inject_Z tl) * 1000) * RN (3 # 10)).

Definition reference_penalty_product (us tl : Z) : Q :=
  reference_mul
    (reference_mul
       (reference_div (reference_div (inject_Z us) 1000000) (inject_Z tl)) 1000)
    (reference_div 3 10).

End Float64.

(* ================================================================== *)
(** ** Python numbers, exceptions and arithmetic *)
(* ================================================================== *)

Inductive exn : Type :=
| ZeroDivisionError
| OverflowError
| KeyError
| ValueError (msg : string).

Inductive result (A : Type) : Type :=
| Ok (a : A)
| Raise (e : exn).
Arguments Ok {A} a.
Arguments Raise {A} e.

Definition bind {A B : Type} (r : result A) (k : A -> result B) : result B :=
  match r with
  | Ok a => k a
  | Raise e => Raise e
  end.

Notation "x <- r ;; k" := (bind r (fun x => k))
  (at level 61, r at next level, right associativity).

(** A Python number is an [int] or a finite [float]. *)
Inductive num : Type :=
| PyInt (n : Z)
| PyFloat (x : Q).

Definition num_val (v : num) : Q :=
  match v with
  | PyInt n => inject_Z n
  | PyFloat x => x
  end.

Definition Qlt_bool (a b : Q) : bool := negb (Qle_bool b a).

(** [int] and [float] compare by exact value. *)
Definition num_ltb (a b : num) : bool := Qlt_bool (num_val a) (num_val b).

(** [min(a, b)] keeps [a] unless [b < a]; [max(a, b)] keeps [a] unless
    [b > a].  The result keeps the type of the argument that is chosen. *)
Definition py_min (a b : num) : num := if num_ltb b a then b else a.
Definition py_max (a b : num) : num := if num_ltb a b then b else a.

(** The result of a float operation whose exact value is [x].  A product or
    quotient beyond the largest double is an infinity in Python.  In the
    score it is multiplied by positive constants and reaches [int()], which
    raises [OverflowError]; the model raises it where the infinity arises.
    (Int-to-float conversion and int/int division raise it themselves; the
    operands of [percent_of] lie in [0, 100].) *)
Definition float_result (x : Q) : result Q :=
  let r := Float64.RN x in
  if Float64.overflows r then Raise OverflowError else Ok r.

(** [float(n)] for an [int]. *)
Definition float_of_int (n : Z) : result Q := float_result (inject_Z n).

(** [a / b] on two ints: the correctly rounded quotient. *)
Definition int_true_div (a b : Z) : result Q :=
  if (b =? 0)%Z then Raise ZeroDivisionError
  else float_result (inject_Z a / inject_Z b).

Definition float_div (x y : Q) : result Q :=
  if Qeq_bool y 0 then Raise ZeroDivisionError else float_result (x / y).

Definition float_mul (x y : Q) : result Q := float_result (x * y).

Definition as_float (v : num) : result Q :=
  match v with
  | PyInt n => float_of_int n
  | PyFloat x => Ok x
  end.

(** True division [a / b]. *)
Definition true_div (a b : num) : result Q :=
  match a, b with
  | PyInt m, PyInt n => int_true_div m n
  | _, _ => x <- as_float a ;; y <- as_float b ;; float_div x y
  end.

(** [x * n] for a float [x] and an int [n]. *)
Definition float_mul_int (x : Q) (n : Z) : result Q :=
  y <- float_of_int n ;; float_mul x y.

(** [int(x)] truncates toward zero. *)
Definition py_int (x : Q) : Z :=
  if Qle_bool 0 x then Qfloor x else Qceiling x.

(** [round(x, 1)] on a float: the decimal with one digit nearest to the
    exact value of [x] (ties to even), converted back to a double. *)
Definition py_round1 (x : Q) : Q :=
  Float64.RN (inject_Z (Float64.rhe (x * 10)) / 10).

(** [timedelta.total_seconds()]: microseconds / 10**6. *)
Definition total_seconds (delta_us : Z) : result Q :=
  int_true_div delta_us 1000000.

(** [str(n)] for an int. *)
Definition str_of_Z (n : Z) : string := NilZero.string_of_int (Z.to_int n).

(* ================================================================== *)
(** ** src/config.py *)
(* ================================================================== *)

Definition BASE_POINTS : Z := 1000.
(** The literal [0.3] denotes the double nearest to 3/10. *)
Definition SPEED_PENALTY_MULTIPLIER : Q := Float64.RN (3 # 10).
(** Length of the digit string one draw of [generate_session_code] yields. *)
Definition SESSION_CODE_LENGTH : nat := 5.

(* ================================================================== *)
(** ** src/database/models and enums *)
(* ================================================================== *)

(** Primary keys are UUIDs; only their equality is observed. *)
Definition uuid : Type := Z.
(** A naive [datetime], as microseconds since 0001-01-01T00:00:00. *)
Definition datetime : Type := Z.

(** One past [datetime.max] (9999-12-31T23:59:59.999999). *)
Definition datetime_end : Z := 3652059 * 86400 * 1000000.
Definition valid_datetime (d : datetime) : bool :=
  (0 <=? d)%Z && (d <? datetime_end)%Z.
(** The span of all datetimes, in seconds. *)
Definition seconds_bound : Z := 3652059 * 86400.

Inductive SessionStatus : Type := PENDING | ACTIVE | CLOSED.

Definition SessionStatus_eqb (a b : SessionStatus) : bool :=
  match a, b with
  | PENDING, PENDING | ACTIVE, ACTIVE | CLOSED, CLOSED => true
  | _, _ => false
  end.

Record User : Type := {
  user_id : uuid;
  username : string
}.

Record Question : Type := {
  question_id : uuid;
  question_quiz_id : uuid;
  question_order : Z;
  time_limit : Z
}.

Record QuestionOption : Type := {
  option_id : uuid;
  option_question_id : uuid;
  option_order : Z;
  is_correct : bool
}.

Record QuizSession : Type := {
  session_id : uuid;
  quiz_id : uuid;
  session_code : string;
  status : SessionStatus;
  current_question_id : option uuid;
  start_time : option datetime;
  end_time : option datetime;
  created_at : datetime
}.

(** Columns of [session_participants] (the surrogate key is not observed). *)
Record SessionParticipant : Type := {
  participant_session_id : uuid;
  participant_student_id : uuid;
  joined_at : datetime
}.

(** Columns of [student_answers] (the surrogate key is not observed). *)
Record StudentAnswer : Type := {
  answer_session_id : uuid;
  answer_student_id : uuid;
  answer_question_id : uuid;
  answer_option_id : option uuid;
  submitted_at : datetime
}.

(** ORM instances as the scoring service reads them: the row together with
    the relationships it follows ([answer.question],
    [answer.selected_option], [participant.student]). *)
Record AnswerObj : Type := {
  answer_row :> StudentAnswer;
  answer_question : Question;
  selected_option : option QuestionOption
}.

Record ParticipantObj : Type := {
  participant_row :> SessionParticipant;
  student : User
}.

(** The tables the session and answer services read and write; the order of
    a list is the order in which the rows were inserted. *)
Record Store : Type := {
  quiz_sessions : list QuizSession;
  questions : list Question;
  session_participants : list SessionParticipant;
  student_answers : list StudentAnswer
}.

Definition with_quiz_sessions (db : Store) (l : list QuizSession) : Store :=
  {| quiz_sessions := l;
     questions := questions db;
     session_participants := session_participants db;
     student_answers := student_answers db |}.

Definition with_session_participants (db : Store) (l : list SessionParticipant) : Store :=
  {| quiz_sessions := quiz_sessions db;
     questions := questions db;
     session_participants := l;
     student_answers := student_answers db |}.

Definition with_student_answers (db : Store) (l : list StudentAnswer) : Store :=
  {| quiz_sessions := quiz_sessions db;
     questions := questions db;
     session_participants := session_participants db;
     student_answers := l |}.

(* ================================================================== *)
(** ** Generic helpers: queries, stable sort, dict *)
(* ================================================================== *)

(** [query.filter(p).first()] then mutate: update the first row matching [p]. *)
Fixpoint update_first {A : Type} (p : A -> bool) (f : A -> A) (l : list A) : list A :=
  match l with
  | [] => []
  | x :: l' => if p x then f x :: l' else x :: update_first p f l'
  end.

(** [db.delete(row)] on the row a [.first()] query returned: drop the first
    row matching [p]. *)
Fixpoint remove_first {A : Type} (p : A -> bool) (l : list A) : list A :=
  match l with
  | [] => []
  | x :: l' => if p x then l' else x :: remove_first p l'
  end.

(** Stable insertion sort.  [before y x = true] when [y] must come strictly
    before [x]; elements that are not ordered keep their input order, which
    is what [ORDER BY] on a sequential scan and Python's [sorted] (also with
    [reverse=True]) give. *)
Fixpoint insert_by {A : Type} (before : A -> A -> bool) (x : A) (l : list A) : list A :=
  match l with
  | [] => [x]
  | y :: l' => if before y x then y :: insert_by before x l' else x :: l
  end.

Fixpoint sort_by {A : Type} (before : A -> A -> bool) (l : list A) : list A :=
  match l with
  | [] => []
  | x :: l' => insert_by before x (sort_by before l')
  end.

(** [x] may stand before [y] in a list sorted by [before]: nothing forces [y]
    ahead of [x]. *)
Definition in_order {A : Type} (before : A -> A -> bool) (x y : A) : Prop :=
  before y x = false.

(** A Python [dict] keyed by integers (UUIDs, question numbers): insertion
    ordered, assignment to an existing key keeps its position. *)
Fixpoint dict_set {V : Type} (k : Z) (v : V) (d : list (Z * V)) : list (Z * V) :=
  match d with
  | [] => [(k, v)]
  | (k', v') :: d' => if (k' =? k)%Z then (k, v) :: d' else (k', v') :: dict_set k v d'
  end.

Fixpoint dict_get {V : Type} (k : Z) (d : list (Z * V)) : option V :=
  match d with
  | [] => None
  | (k', v') :: d' => if (k' =? k)%Z then Some v' else dict_get k d'
  end.

Definition dict_values {V : Type} (d : list (Z * V)) : list V := map snd d.

(** [enumerate(l, start)] *)
Fixpoint enumerate {A : Type} (start : Z) (l : list A) : list (Z * A) :=
  match l with
  | [] => []
  | x :: l' => (start, x) :: enumerate (start + 1) l'
  end.

(* ================================================================== *)
(** ** src/features/scoring/scoring_service.py *)
(* ================================================================== *)

Module ScoringService.

(** [answer.selected_option and answer.selected_option.is_correct] *)
Definition answered_correctly (answer : AnswerObj) : bool :=
  match selected_option answer with
  | Some o => is_correct o
  | None => false
  end.

Definition calculate_answer_score
    (answer : AnswerObj) (question_start_time : datetime) (time_limit : Z) : result Z :=
  match selected_option answer with
  | None => Ok 0%Z
  | Some o =>
    if negb (is_correct o) then Ok 0%Z
    else
      t <- total_seconds (submitted_at answer - question_start_time) ;;
      let time_taken := py_max (PyInt 0) (py_min (PyFloat t) (PyInt time_limit)) in
      ratio <- true_div time_taken (PyInt time_limit) ;;
      x <- float_mul_int ratio BASE_POINTS ;;
      y <- float_mul x SPEED_PENALTY_MULTIPLIER ;;
      let speed_penalty := py_int y in
      let score := (BASE_POINTS - speed_penalty)%Z in
      Ok (Z.max 0 score)
  end.

(** One leaderboard dict before its rank is assigned. *)
Record ScoreEntry : Type := {
  entry_student_id : uuid;
  student_name : string;
  total_points : Z;
  correct_count : Z;
  total_questions : Z;
  answered_count : Z;
  percent_correct : num;
  participation : string
}.

Record LeaderboardEntry : Type := {
  entry :> ScoreEntry;
  rank : Z
}.

(** [session.start_time or session.created_at] *)
Definition question_start_time_of (session : QuizSession) : datetime :=
  match start_time session with
  | Some t => t
  | None => created_at session
  end.

(** The inner loop over one student's answers. *)
Fixpoint tally (session : QuizSession) (student_answers : list AnswerObj)
    (total_points correct_count : Z) : result (Z * Z) :=
  match student_answers with
  | [] => Ok (total_points, correct_count)
  | answer :: rest =>
    score <- calculate_answer_score answer (question_start_time_of session)
               (time_limit (answer_question answer)) ;;
    let total_points := (total_points + score)%Z in
    let correct_count :=
      if answered_correctly answer then (correct_count + 1)%Z else correct_count in
    tally session rest total_points correct_count
  end.

(** [(correct_count / answered_count * 100) if answered_count > 0 else 0] *)
Definition percent_of (correct_count answered_count : Z) : result num :=
  if (answered_count >? 0)%Z then
    r <- int_true_div correct_count answered_count ;;
    p <- float_mul_int r 100 ;;
    Ok (PyFloat p)
  else Ok (PyInt 0).

(** [round(percent_correct, 1)]: an int stays an int. *)
Definition round1 (v : num) : num :=
  match v with
  | PyInt n => PyInt n
  | PyFloat x => PyFloat (py_round1 x)
  end.

Definition student_answers_of (all_answers : list AnswerObj) (student_id : uuid)
  : list AnswerObj :=
  filter (fun a : AnswerObj => (answer_student_id a =? student_id)%Z) all_answers.

Definition score_entry (session : QuizSession) (total_questions : Z)
    (all_answers : list AnswerObj) (participant : ParticipantObj) : result ScoreEntry :=
  let student_id := participant_student_id participant in
  let student_answers := student_answers_of all_answers student_id in
  tc <- tally session student_answers 0 0 ;;
  let answered_count := Z.of_nat (List.length student_answers) in
  pc <- percent_of (snd tc) answered_count ;;
  Ok {| entry_student_id := student_id;
        student_name := username (student participant);
        total_points := fst tc;
        correct_count := snd tc;
        total_questions := total_questions;
        answered_count := answered_count;
        percent_correct := round1 pc;
        participation :=
          (str_of_Z answered_count ++ "/" ++ str_of_Z total_questions)%string |}.

(** The loop that fills [student_scores]. *)
Fixpoint student_scores (session : QuizSession) (total_questions : Z)
    (all_answers : list AnswerObj) (participants : list ParticipantObj)
    (scores : list (Z * ScoreEntry)) : result (list (Z * ScoreEntry)) :=
  match participants with
  | [] => Ok scores
  | participant :: rest =>
    e <- score_entry session total_questions all_answers participant ;;
    student_scores session total_questions all_answers rest
      (dict_set (participant_student_id participant) e scores)
  end.

(** The sort key [(total_points, percent_correct)] compared as tuples:
    [key_gt a b] is [key(a) > key(b)]. *)
Definition key_gt (a b : ScoreEntry) : bool :=
  if (total_points a =? total_points b)%Z
  then num_ltb (percent_correct b) (percent_correct a)
  else (total_points b <? total_points a)%Z.

Definition add_ranks (leaderboard : list ScoreEntry) : list LeaderboardEntry :=
  map (fun ie => {| entry := snd ie; rank := fst ie |}) (enumerate 1 leaderboard).

(** [participants], [questions] and [all_answers] are the results of the
    three queries the method issues for [session]. *)
Definition calculate_leaderboard (session : QuizSession)
    (participants : list ParticipantObj) (questions : list Question)
    (all_answers : list AnswerObj) : result (list LeaderboardEntry) :=
  let total_questions := Z.of_nat (List.length questions) in
  if (total_questions =? 0)%Z then Ok []
  else
    scores <- student_scores session total_questions all_answers participants [] ;;
    let leaderboard := sort_by key_gt (dict_values scores) in
    Ok (add_ranks leaderboard).

(** A one-character string, by its code point. *)
Definition char : Type := Z.
Definition dash : char := 45.

(** [chr(n)] *)
Definition py_chr (n : Z) : result char :=
  if ((0 <=? n) && (n <? 1114112))%Z then Ok n
  else Raise (ValueError "chr() arg not in range(0x110000)").

(** [{q.id: idx + 1 for idx, q in enumerate(questions)}] *)
Definition question_map (questions : list Question) : list (Z * Z) :=
  fold_left (fun d iq => dict_set (question_id (snd iq)) (fst iq + 1)%Z d)
            (enumerate 0 questions) [].

(** The loop that fills [answer_map] (question id -> option letter). *)
Fixpoint answer_map (student_answers : list AnswerObj) (m : list (Z * char))
  : result (list (Z * char)) :=
  match student_answers with
  | [] => Ok m
  | answer :: rest =>
    match selected_option answer with
    | Some o =>
      option_letter <- py_chr (64 + option_order o) ;;
      answer_map rest (dict_set (answer_question_id answer) option_letter m)
    | None => answer_map rest m
    end
  end.

(** [answer_map.get(question.id, '-')] *)
Definition answer_cell (m : list (Z * char)) (question : Question) : char :=
  match dict_get (question_id question) m with
  | Some c => c
  | None => dash
  end.

(** One exported row; [result_answers] holds the columns [q1], [q2], ...
    keyed by question number. *)
Record DetailedResult : Type := {
  result_rank : Z;
  result_student_name : string;
  result_total_points : Z;
  result_percent_correct : num;
  result_participation : string;
  result_answers : list (Z * char)
}.

(** The loop that adds the per-question columns to [result]. *)
Fixpoint add_question_columns (qmap : list (Z * Z)) (amap : list (Z * char))
    (questions : list Question) (cols : list (Z * char)) : result (list (Z * char)) :=
  match questions with
  | [] => Ok cols
  | question :: rest =>
    match dict_get (question_id question) qmap with
    | None => Raise KeyError
    | Some q_num =>
      add_question_columns qmap amap rest
        (dict_set q_num (answer_cell amap question) cols)
    end
  end.

Definition detailed_row (questions : list Question) (all_answers : list AnswerObj)
    (e : LeaderboardEntry) : result DetailedResult :=
  let student_answers := student_answers_of all_answers (entry_student_id e) in
  amap <- answer_map student_answers [] ;;
  cols <- add_question_columns (question_map questions) amap questions [] ;;
  Ok {| result_rank := rank e;
        result_student_name := student_name e;
        result_total_points := total_points e;
        result_percent_correct := percent_correct e;
        result_participation := participation e;
        result_answers := cols |}.

Fixpoint detailed_rows (questions : list Question) (all_answers : list AnswerObj)
    (leaderboard : list LeaderboardEntry) : result (list DetailedResult) :=
  match leaderboard with
  | [] => Ok []
  | e :: rest =>
    r <- detailed_row questions all_answers e ;;
    rs <- detailed_rows questions all_answers rest ;;
    Ok (r :: rs)
  end.

Definition get_detailed_results (session : QuizSession)
    (participants : list ParticipantObj) (questions : list Question)
    (all_answers : list AnswerObj) : result (list DetailedResult) :=
  leaderboard <- calculate_leaderboard session participants questions all_answers ;;
  detailed_rows questions all_answers leaderboard.

End ScoringService.

(* ================================================================== *)
(** ** src/features/scoring/scoring_data_access.py *)
(* ================================================================== *)

Module ScoringDataAccess.

Definition answer_key_matches (session_id student_id question_id : uuid)
    (a : StudentAnswer) : bool :=
  ((answer_session_id a =? session_id) && (answer_student_id a =? student_id)
   && (answer_question_id a =? question_id))%Z.

Definition get_student_answer (db : Store) (session_id student_id question_id : uuid)
  : option StudentAnswer :=
  find (answer_key_matches session_id student_id question_id) (student_answers db).

(** [submitted_at] takes its column default, the time of the insert.  The
    ids are those of stored rows: the columns are foreign keys, and an
    insert with a dangling id is refused by the database, which is outside
    this model. *)
Definition create_answer (db : Store) (now : datetime)
    (session_id student_id question_id : uuid) (option_id : option uuid)
  : Store * StudentAnswer :=
  let answer := {| answer_session_id := session_id;
                   answer_student_id := student_id;
                   answer_question_id := question_id;
                   answer_option_id := option_id;
                   submitted_at := now |} in
  (with_student_answers db (student_answers db ++ [answer]), answer).

Definition overwrite_answer (option_id : option uuid) (now : datetime)
    (existing : StudentAnswer) : StudentAnswer :=
  {| answer_session_id := answer_session_id existing;
     answer_student_id := answer_student_id existing;
     answer_question_id := answer_question_id existing;
     answer_option_id := option_id;
     submitted_at := now |}.

(** [now] is the value [datetime.utcnow()] returns during the call. *)
Definition submit_answer (db : Store) (now : datetime)
    (session_id student_id question_id : uuid) (option_id : option uuid)
  : Store * StudentAnswer :=
  match get_student_answer db session_id student_id question_id with
  | Some existing =>
    let updated := overwrite_answer option_id now existing in
    (with_student_answers db
       (update_first (answer_key_matches session_id student_id question_id)
                     (overwrite_answer option_id now) (student_answers db)),
     updated)
  | None => create_answer db now session_id student_id question_id option_id
  end.

(** Number of rows stored for a key. *)
Definition count_rows (db : Store) (session_id student_id question_id : uuid) : nat :=
  List.length (filter (answer_key_matches session_id student_id question_id)
                      (student_answers db)).

(** The [.all()] queries return the rows in table order. *)
Definition get_answers_by_session (db : Store) (session_id : uuid) : list StudentAnswer :=
  filter (fun a => (answer_session_id a =? session_id)%Z) (student_answers db).

Definition get_answers_by_student_and_session (db : Store) (session_id student_id : uuid)
  : list StudentAnswer :=
  filter (fun a => ((answer_session_id a =? session_id)
                    && (answer_student_id a =? student_id))%Z)
         (student_answers db).

Definition count_student_answers (db : Store) (session_id student_id : uuid) : nat :=
  List.length
    (filter (fun a => ((answer_session_id a =? session_id)
                       && (answer_student_id a =? student_id))%Z)
            (student_answers db)).

Definition count_answers_by_student (db : Store) (student_id : uuid) : nat :=
  List.length (filter (fun a => (answer_student_id a =? student_id)%Z) (student_answers db)).

Definition count_answers_by_session (db : Store) (session_id : uuid) : nat :=
  List.length (filter (fun a => (answer_session_id a =? session_id)%Z) (student_answers db)).

End ScoringDataAccess.

(* ================================================================== *)
(** ** src/features/quiz/question_data_access.py *)
(* ================================================================== *)

Module QuestionDataAccess.

(** [ORDER BY question_order].  The database leaves the order of rows with
    equal [question_order] open; the model puts them in table order, and no
    statement below relies on that choice. *)
Definition order_before (y x : Question) : bool :=
  (question_order y <? question_order x)%Z.

Definition get_questions_by_quiz (db : Store) (quiz_id : uuid) : list Question :=
  sort_by order_before
    (filter (fun q => (question_quiz_id q =? quiz_id)%Z) (questions db)).

End QuestionDataAccess.

(* ================================================================== *)
(** ** src/features/session/session_data_access.py *)
(* ================================================================== *)

Module SessionDataAccess.

Definition has_id (sid : uuid) (s : QuizSession) : bool := (session_id s =? sid)%Z.

Definition get_session_by_id (db : Store) (sid : uuid) : option QuizSession :=
  find (has_id sid) (quiz_sessions db).

Definition get_session_by_code (db : Store) (code : string) : option QuizSession :=
  find (fun s => String.eqb (session_code s) code) (quiz_sessions db).

Definition session_code_exists (db : Store) (code : string) : bool :=
  match get_session_by_code db code with
  | Some _ => true
  | None => false
  end.

(** The assignments [update_status] makes on the session object. *)
Definition set_status (new_status : SessionStatus) (now : datetime)
    (s : QuizSession) : QuizSession :=
  {| session_id := session_id s;
     quiz_id := quiz_id s;
     session_code := session_code s;
     status := new_status;
     current_question_id := current_question_id s;
     start_time :=
       match new_status, start_time s with
       | ACTIVE, None => Some now
       | _, t => t
       end;
     end_time :=
       match new_status, end_time s with
       | CLOSED, None => Some now
       | _, t => t
       end;
     created_at := created_at s |}.

Definition set_current_question (qid : uuid) (s : QuizSession) : QuizSession :=
  {| session_id := session_id s;
     quiz_id := quiz_id s;
     session_code := session_code s;
     status := status s;
     current_question_id := Some qid;
     start_time := start_time s;
     end_time := end_time s;
     created_at := created_at s |}.

Definition update_status (db : Store) (now : datetime) (sid : uuid)
    (new_status : SessionStatus) : Store * option QuizSession :=
  match get_session_by_id db sid with
  | Some session =>
    (with_quiz_sessions db
       (update_first (has_id sid) (set_status new_status now) (quiz_sessions db)),
     Some (set_status new_status now session))
  | None => (db, None)
  end.

Definition update_current_question (db : Store) (sid qid : uuid)
  : Store * option QuizSession :=
  match get_session_by_id db sid with
  | Some session =>
    (with_quiz_sessions db
       (update_first (has_id sid) (set_current_question qid) (quiz_sessions db)),
     Some (set_current_question qid session))
  | None => (db, None)
  end.

(** [id] and [created_at] take their column defaults: [new_id] is the value
    [uuid.uuid4()] yields, [now] the value of [datetime.utcnow()].  The
    [instructor_id] column is stored but read by none of the functions
    modelled here. *)
Definition create_session (db : Store) (now : datetime) (new_id quiz_id : uuid)
    (session_code : string) : Store * QuizSession :=
  let session := {| session_id := new_id;
                    quiz_id := quiz_id;
                    session_code := session_code;
                    status := PENDING;
                    current_question_id := None;
                    start_time := None;
                    end_time := None;
                    created_at := now |} in
  (with_quiz_sessions db (quiz_sessions db ++ [session]), session).

(** Deleting the session object also deletes the rows of its [participants]
    and [student_answers] relationships, which the model declares with
    [cascade="all, delete-orphan"]. *)
Definition delete_session (db : Store) (sid : uuid) : Store * bool :=
  match get_session_by_id db sid with
  | Some session =>
    ({| quiz_sessions := remove_first (has_id sid) (quiz_sessions db);
        questions := questions db;
        session_participants :=
          filter (fun p => negb (participant_session_id p =? session_id session)%Z)
                 (session_participants db);
        student_answers :=
          filter (fun a => negb (answer_session_id a =? session_id session)%Z)
                 (student_answers db) |},
     true)
  | None => (db, false)
  end.

End SessionDataAccess.

(* ================================================================== *)
(** ** src/features/session/participant_data_access.py *)
(* ================================================================== *)

Module ParticipantDataAccess.

Definition is_row (sid student_id : uuid) (p : SessionParticipant) : bool :=
  ((participant_session_id p =? sid) && (participant_student_id p =? student_id))%Z.

(** [joined_at] takes its column default.  As for answers, the ids are those
    of stored rows (both columns are foreign keys). *)
Definition add_participant (db : Store) (now : datetime) (sid student_id : uuid)
  : Store * SessionParticipant :=
  let participant := {| participant_session_id := sid;
                        participant_student_id := student_id;
                        joined_at := now |} in
  (with_session_participants db (session_participants db ++ [participant]),
   participant).

Definition get_participants_by_session (db : Store) (sid : uuid)
  : list SessionParticipant :=
  filter (fun p => (participant_session_id p =? sid)%Z) (session_participants db).

Definition get_participant (db : Store) (sid student_id : uuid)
  : option SessionParticipant :=
  find (is_row sid student_id) (session_participants db).

Definition is_participant (db : Store) (sid student_id : uuid) : bool :=
  match get_participant db sid student_id with
  | Some _ => true
  | None => false
  end.

Definition get_participant_count (db : Store) (sid : uuid) : nat :=
  List.length (get_participants_by_session db sid).

Definition remove_participant (db : Store) (sid student_id : uuid) : Store * bool :=
  match get_participant db sid student_id with
  | Some _ =>
    (with_session_participants db
       (remove_first (is_row sid student_id) (session_participants db)),
     true)
  | None => (db, false)
  end.

End ParticipantDataAccess.

(* ================================================================== *)
(** ** src/shared/session_code.py *)
(* ================================================================== *)

Module SessionCode.

Definition max_attempts : nat := 100.

Definition exhausted : exn :=
  ValueError "Could not generate unique session code after 100 attempts".

(** The [while attempts < max_attempts] loop.  [random_code k] is the string
    the [k]-th evaluation of [''.join(random.choices(string.digits, k=length))]
    yields, [code_exists] is the uniqueness check, [remaining] is
    [max_attempts - attempts].  The codes that were checked are returned
    with the outcome, oldest first. *)
Fixpoint attempt_loop (random_code : nat -> string) (code_exists : string -> bool)
    (remaining attempts : nat) (checked : list string) : result string * list string :=
  match remaining with
  | O => (Raise exhausted, checked)
  | S remaining' =>
    let code := random_code attempts in
    if negb (code_exists code) then (Ok code, checked ++ [code])
    else attempt_loop random_code code_exists remaining' (S attempts) (checked ++ [code])
  end.

Definition generate_session_code_with (random_code : nat -> string)
    (code_exists : string -> bool) : result string * list string :=
  attempt_loop random_code code_exists max_attempts 0 [].

Definition generate_session_code (random_code : nat -> string) (db : Store)
  : result string * list string :=
  generate_session_code_with random_code (SessionDataAccess.session_code_exists db).

End SessionCode.

(* ================================================================== *)
(** ** src/features/session/session_service.py *)
(* ================================================================== *)

Module SessionService.

(** The dict a service method returns: ['success'], and the optional keys
    ['message'] and ['session'] / ['question']. *)
Record Response (A : Type) : Type := {
  success : bool;
  message : option string;
  payload : option A
}.
Arguments success {A} r.
Arguments message {A} r.
Arguments payload {A} r.

Definition failure {A : Type} (msg : string) : Response A :=
  {| success := false; message := Some msg; payload := None |}.

(** [generate_session_code(self.db)], then the insert; the exception of the
    generator propagates and nothing is stored. *)
Definition create_session (random_code : nat -> string) (db : Store) (now : datetime)
    (new_id quiz_id : uuid) : result (Store * QuizSession) :=
  session_code <- fst (SessionCode.generate_session_code random_code db) ;;
  Ok (SessionDataAccess.create_session db now new_id quiz_id session_code).

Definition start_session (db : Store) (now : datetime) (sid : uuid)
  : Store * Response QuizSession :=
  match SessionDataAccess.get_session_by_id db sid with
  | None => (db, failure "Session not found")
  | Some session =>
    let questions := QuestionDataAccess.get_questions_by_quiz db (quiz_id session) in
    match questions with
    | [] => (db, failure "Quiz has no questions")
    | first_question :: _ =>
      let db1 := fst (SessionDataAccess.update_status db now sid ACTIVE) in
      let r := SessionDataAccess.update_current_question db1 sid
                 (question_id first_question) in
      (fst r, {| success := true; message := None; payload := snd r |})
    end
  end.

Definition end_session (db : Store) (now : datetime) (sid : uuid)
  : Store * option QuizSession :=
  SessionDataAccess.update_status db now sid CLOSED.

(** The [for idx, q in enumerate(questions)] search; [-1] when not found. *)
Fixpoint index_of (qid : uuid) (questions : list Question) (idx : Z) : Z :=
  match questions with
  | [] => (-1)%Z
  | q :: rest => if (question_id q =? qid)%Z then idx else index_of qid rest (idx + 1)%Z
  end.

Definition current_index (session : QuizSession) (questions : list Question) : Z :=
  match current_question_id session with
  | Some qid => index_of qid questions 0
  | None => (-1)%Z
  end.

Definition next_question (db : Store) (sid : uuid) : Store * Response Question :=
  match SessionDataAccess.get_session_by_id db sid with
  | None => (db, failure "Session not found")
  | Some session =>
    let questions := QuestionDataAccess.get_questions_by_quiz db (quiz_id session) in
    let current_idx := current_index session questions in
    let next_idx := (current_idx + 1)%Z in
    if (next_idx >=? Z.of_nat (List.length questions))%Z
    then (db, failure "No more questions")
    else
      (* [questions[next_idx]]: the index is in range on this branch *)
      match nth_error questions (Z.to_nat next_idx) with
      | None => (db, failure "No more questions")
      | Some next =>
        (fst (SessionDataAccess.update_current_question db sid (question_id next)),
         {| success := true; message := None; payload := Some next |})
      end
  end.

Definition join_session (db : Store) (now : datetime) (code : string)
    (student_id : uuid) : Store * Response QuizSession :=
  match SessionDataAccess.get_session_by_code db code with
  | None => (db, failure "Invalid session code")
  | Some session =>
    if SessionStatus_eqb (status session) CLOSED
    then (db, failure "This session has ended")
    else if ParticipantDataAccess.is_participant db (session_id session) student_id
    then (db, {| success := true; message := Some "Already joined"%string;
                 payload := Some session |})
    else
      (fst (ParticipantDataAccess.add_participant db now (session_id session) student_id),
       {| success := true; message := Some "Joined successfully"%string;
          payload := Some session |})
  end.

(** Position of the session's current question in its quiz, [-1] when the
    pointer is unset or names no question of the quiz. *)
Definition pointer_index (db : Store) (sid : uuid) : Z :=
  match SessionDataAccess.get_session_by_id db sid with
  | Some session =>
    current_index session (QuestionDataAccess.get_questions_by_quiz db (quiz_id session))
  | None => (-1)%Z
  end.

(** A lifecycle command of the instructor. *)
Inductive Command : Type :=
| Start (now : datetime)
| Next
| End_ (now : datetime).

Definition run_command (sid : uuid) (db : Store) (c : Command) : Store :=
  match c with
  | Start now => fst (start_session db now sid)
  | Next => fst (next_question db sid)
  | End_ now => fst (end_session db now sid)
  end.

Definition run_commands (sid : uuid) (db : Store) (cs : list Command) : Store :=
  fold_left (run_command sid) cs db.

Definition is_start (c : Command) : bool :=
  match c with
  | Start _ => true
  | _ => false
  end.

End SessionService.

(* ================================================================== *)
(** ** Notions used to state the leaderboard properties *)
(* ================================================================== *)

(** [key_ge a b]: the sort key of [a] is at least that of [b] in the
    lexicographic order on [(total_points, percent_correct)]. *)
Definition key_ge (a b : ScoringService.ScoreEntry) : Prop :=
  let points := ScoringService.total_points in
  let percent := fun e => num_val (ScoringService.percent_correct e) in
  (points b < points a)%Z
  \/ (points a = points b /\ (percent b <= percent a)%Q).

(** The data the score of an answer reads is in range: a correct answer has
    a valid timestamp and a positive time limit that a double holds
    exactly (every positive value of the Integer column does). *)
Definition scorable (answer : AnswerObj) : bool :=
  negb (ScoringService.answered_correctly answer)
  || (valid_datetime (submitted_at answer)
      && (1 <=? time_limit (answer_question answer))%Z
      && (time_limit (answer_question answer) <? 2 ^ 53)%Z).

(** [same_key a b]: neither sort key exceeds the other, the two entries
    tie. *)
Definition same_key (a b : ScoringService.ScoreEntry) : bool :=
  negb (ScoringService.key_gt a b) && negb (ScoringService.key_gt b a).

(* ================================================================== *)
(** ** The float computation of the score, in closed form *)
(* ================================================================== *)

(** What [calculate_answer_score] computes for a correct answer, written
    without the exception monad: every operation is the code's own, rounded
    to a double as Python does. *)
Module FloatScore.

Local Open Scope Q_scope.

(** The result of a float operation: the double nearest to the exact
    value. *)
Definition fl (x : Q) : Q := Float64.RN x.

Definition clamp (x lo hi : Q) : Q :=
  if Qlt_bool x lo then lo else if Qlt_bool hi x then hi else x.

(** [max(0, min(time_taken, time_limit))] on the double that
    [total_seconds()] returns. *)
Definition elapsed (submitted start : datetime) (time_limit : Z) : Q :=
  clamp (fl (inject_Z (submitted - start) / 1000000)) 0 (inject_Z time_limit).

(** [int((time_taken / time_limit) * BASE_POINTS * SPEED_PENALTY_MULTIPLIER)] *)
Definition penalty (submitted start : datetime) (time_limit : Z) : Z :=
  Qfloor (fl (fl (fl (elapsed submitted start time_limit / inject_Z time_limit)
                  * 1000) * fl (3 # 10))).

(** [max(0, BASE_POINTS - speed_penalty)] *)
Definition score (submitted start : datetime) (time_limit : Z) : Z :=
  Z.max 0 (1000 - penalty submitted start time_limit).

End FloatScore.

(* ================================================================== *)
(** ** The scoring rule as spec.md section 4.3 words it *)
(* ================================================================== *)

(** The formula of the specification, read as it is written: in exact
    arithmetic on the elapsed time in seconds. *)
Module ScoringSpec.

Local Open Scope Q_scope.

(** [elapsed = clamp(submitted_at - question_start_time, 0, time_limit)], in
    seconds (fractional allowed). *)
Definition elapsed (submitted start : datetime) (time_limit : Z) : Q :=
  FloatScore.clamp (inject_Z (submitted - start) / 1000000) 0 (inject_Z time_limit).

(** [penalty = floor(elapsed / time_limit * BASE_POINTS * SPEED_PENALTY_MULTIPLIER)]
    with the constants 1000 and 0.3. *)
Definition penalty (submitted start : datetime) (time_limit : Z) : Z :=
  Qfloor (elapsed submitted start time_limit / inject_Z time_limit
          * inject_Z BASE_POINTS * (3 # 10)).

(** [score = max(0, BASE_POINTS - penalty)] *)
Definition score (submitted start : datetime) (time_limit : Z) : Z :=
  Z.max 0 (BASE_POINTS - penalty submitted start time_limit).

End ScoringSpec.

(* ================================================================== *)
(** ** Concrete data used to exercise the statements *)
(* ================================================================== *)

Module Example.

Local Open Scope Z_scope.

Definition q1 : Question :=
  {| question_id := 11; question_quiz_id := 1; question_order := 1; time_limit := 30 |}.
Definition q2 : Question :=
  {| question_id := 12; question_quiz_id := 1; question_order := 2; time_limit := 30 |}.
Definition option_a : QuestionOption :=
  {| option_id := 101; option_question_id := 11; option_order := 1; is_correct := true |}.
Definition option_b : QuestionOption :=
  {| option_id := 102; option_question_id := 12; option_order := 2; is_correct := false |}.

(** 2023-01-01T00:00:00 *)
Definition t0 : datetime := 738520 * 86400 * 1000000.

Definition session5 : QuizSession :=
  {| session_id := 5; quiz_id := 1; session_code := "12345";
     status := ACTIVE; current_question_id := Some 11;
     start_time := Some t0; end_time := None; created_at := t0 - 60000000 |}.

Definition answer_of (student_id : uuid) (q : Question) (o : option QuestionOption)
    (at_ : datetime) : AnswerObj :=
  {| answer_row := {| answer_session_id := 5; answer_student_id := student_id;
                      answer_question_id := question_id q;
                      answer_option_id := option_map option_id o;
                      submitted_at := at_ |};
     answer_question := q;
     selected_option := o |}.

(** Correct after 3 s, wrong after 9 s, and a cleared answer. *)
Definition answer1 : AnswerObj := answer_of 7 q1 (Some option_a) (t0 + 3000000).
Definition answer2 : AnswerObj := answer_of 7 q2 (Some option_b) (t0 + 9000000).
Definition answer_null : AnswerObj := answer_of 7 q2 None (t0 + 9000000).

Definition participant_of (student_id : uuid) (name : string) : ParticipantObj :=
  {| participant_row := {| participant_session_id := 5;
                           participant_student_id := student_id;
                           joined_at := t0 |};
     student := {| user_id := student_id; username := name |} |}.

(** A store with one pending session on quiz 1 (questions [q1], [q2]) and a
    question of another quiz. *)
Definition session_pending : QuizSession :=
  {| session_id := 5; quiz_id := 1; session_code := "12345";
     status := PENDING; current_question_id := None;
     start_time := None; end_time := None; created_at := t0 - 60000000 |}.
Definition q_other : Question :=
  {| question_id := 21; question_quiz_id := 2; question_order := 1; time_limit := 30 |}.
Definition store0 : Store :=
  {| quiz_sessions := [session_pending];
     questions := [q2; q_other; q1];
     session_participants := [];
     student_answers := [] |}.

(** The same store once the session runs and stands on its last question. *)
Definition session_last : QuizSession :=
  {| session_id := 5; quiz_id := 1; session_code := "12345";
     status := ACTIVE; current_question_id := Some 12;
     start_time := Some t0; end_time := None; created_at := t0 - 60000000 |}.
Definition store_last : Store :=
  {| quiz_sessions := [session_last];
     questions := [q2; q_other; q1];
     session_participants := [];
     student_answers := [] |}.

Definition option_c : QuestionOption :=
  {| option_id := 103; option_question_id := 11; option_order := 3; is_correct := false |}.
(** Bob answers [q1] wrongly and clears his answer to [q2]. *)
Definition bob_wrong : AnswerObj := answer_of 8 q1 (Some option_c) (t0 + 5000000).
Definition bob_null : AnswerObj := answer_of 8 q2 None (t0 + 9000000).

Definition ann : ParticipantObj := participant_of 7 "ann".
Definition bob : ParticipantObj := participant_of 8 "bob".

End Example.

(* ================================================================== *)
(** * Properties *)
(* ================================================================== *)

(** ** Lists, stable sort, dict *)

Module ListFacts.

Lemma find_none_filter {A} (p : A -> bool) l : find p l = None -> filter p l = [].
Proof.
  induction l as [|x l IH]; simpl; [reflexivity|].
  destruct (p x); [discriminate | exact IH].
Qed.

Lemma filter_app_single {A} (p : A -> bool) l x :
  filter p (l ++ [x]) = filter p l ++ (if p x then [x] else []).
Proof.
  rewrite filter_app. reflexivity.
Qed.

Lemma update_first_filter {A} (p : A -> bool) (f : A -> A) l :
  (forall x, p x = true -> p (f x) = true) ->
  filter p (update_first p f l)
  = match filter p l with [] => [] | x :: rest => f x :: rest end.
Proof.
  intros Hf. induction l as [|x l IH]; simpl; [reflexivity|].
  destruct (p x) eqn:E; simpl.
  - rewrite (Hf x E). reflexivity.
  - rewrite E. exact IH.
Qed.

Lemma update_first_filter_other {A} (p r : A -> bool) (f : A -> A) l :
  (forall x, p x = true -> r x = false /\ r (f x) = false) ->
  filter r (update_first p f l) = filter r l.
Proof.
  intros Hf. induction l as [|x l IH]; simpl; [reflexivity|].
  destruct (p x) eqn:E; simpl.
  - destruct (Hf x E) as [A1 A2]. rewrite A1, A2. reflexivity.
  - rewrite IH. reflexivity.
Qed.

Lemma find_filter_head {A} (p : A -> bool) l :
  find p l = hd_error (filter p l).
Proof.
  induction l as [|x l IH]; simpl; [reflexivity|].
  destruct (p x); [reflexivity | exact IH].
Qed.

Lemma update_first_length {A} (p : A -> bool) f (l : list A) :
  List.length (update_first p f l) = List.length l.
Proof.
  induction l as [|x l IH]; simpl; [reflexivity|].
  destruct (p x); simpl; [reflexivity | now rewrite IH].
Qed.

Lemma update_first_none {A} (p : A -> bool) f (l : list A) :
  find p l = None -> update_first p f l = l.
Proof.
  induction l as [|x l IH]; simpl; [reflexivity|].
  destruct (p x); [discriminate|]. intros H. now rewrite IH.
Qed.

Lemma find_update_first {A} (p : A -> bool) (f : A -> A) l :
  (forall x, p (f x) = p x) ->
  find p (update_first p f l) = option_map f (find p l).
Proof.
  intros Hf. induction l as [|x l IH]; simpl; [reflexivity|].
  destruct (p x) eqn:E; simpl.
  - rewrite Hf, E. reflexivity.
  - rewrite E. exact IH.
Qed.

Lemma NoDup_map_filter {A B} (f : A -> B) (p : A -> bool) l :
  NoDup (map f l) -> NoDup (map f (filter p l)).
Proof.
  induction l as [|x l IH]; simpl; [constructor|].
  intros H. inversion H as [|? ? Hn Hd]; subst.
  destruct (p x); simpl; [|apply IH, Hd].
  constructor; [|apply IH, Hd].
  intros C. apply Hn. apply in_map_iff in C. destruct C as (y & Ey & Iy).
  apply in_map_iff. exists y. split; [exact Ey|]. apply filter_In in Iy. apply Iy.
Qed.

Lemma forallb_filter {A} (p f : A -> bool) l :
  forallb p l = true -> forallb p (filter f l) = true.
Proof.
  induction l as [|x l IH]; simpl; [reflexivity|].
  intros H. apply andb_prop in H. destruct H as [Hx Hl].
  destruct (f x); simpl; [rewrite Hx|]; auto.
Qed.

End ListFacts.

Module SortFacts.

Lemma insert_by_perm {A} (b : A -> A -> bool) x l : Permutation (insert_by b x l) (x :: l).
Proof.
  induction l as [|y l IH]; simpl; [reflexivity|].
  destruct (b y x); [|reflexivity].
  rewrite IH. apply perm_swap.
Qed.

Lemma sort_by_perm {A} (b : A -> A -> bool) l : Permutation (sort_by b l) l.
Proof.
  induction l as [|x l IH]; simpl; [reflexivity|].
  rewrite insert_by_perm. constructor. exact IH.
Qed.

Section Sorted.
Context {A : Type} (before : A -> A -> bool).
Hypothesis before_asym : forall x y, before x y = true -> before y x = false.
Hypothesis not_before_trans :
  forall x y z, before y x = false -> before z y = false -> before z x = false.

Lemma insert_by_sorted x l :
  StronglySorted (in_order before) l -> StronglySorted (in_order before) (insert_by before x l).
Proof.
  induction 1 as [|y l Hs IH Hy]; simpl.
  - constructor; constructor.
  - destruct (before y x) eqn:E.
    + constructor; [exact IH|].
      eapply Permutation_Forall; [symmetry; apply insert_by_perm|].
      constructor; [apply before_asym, E | exact Hy].
    + constructor; [constructor; assumption|].
      constructor; [exact E|].
      apply Forall_impl with (P := in_order before y); [|exact Hy].
      intros z Hz. unfold in_order in *. apply (not_before_trans x y z); assumption.
Qed.

Lemma sort_by_sorted l : StronglySorted (in_order before) (sort_by before l).
Proof.
  induction l as [|x l IH]; simpl; [constructor | apply insert_by_sorted, IH].
Qed.
End Sorted.

Lemma StronglySorted_weaken {A} (R S : A -> A -> Prop) l :
  (forall a b, R a b -> S a b) -> StronglySorted R l -> StronglySorted S l.
Proof.
  intros H. induction 1 as [|x l Hs IH Hx]; constructor; [exact IH|].
  apply Forall_impl with (P := R x); [apply H | exact Hx].
Qed.

Lemma StronglySorted_nth {A} (R : A -> A -> Prop) l i j a b :
  StronglySorted R l -> nth_error l i = Some a -> nth_error l j = Some b ->
  (i < j)%nat -> R a b.
Proof.
  intros Hs. revert i j. induction Hs as [|x l Hs IH Hx]; intros i j Hi Hj Hlt.
  - destruct i; discriminate.
  - destruct j as [|j]; [lia|]. simpl in Hj. destruct i as [|i]; simpl in Hi.
    + injection Hi as ->. rewrite Forall_forall in Hx. apply Hx, (nth_error_In _ _ Hj).
    + apply (IH i j Hi Hj). lia.
Qed.

End SortFacts.

(** ** Rounding to binary64 *)

Module Float64Facts.
Import Float64.
Local Open Scope Q_scope.

Lemma pow2_pos e : 0 < pow2 e.
Proof.
  apply Qpower_0_lt. reflexivity.
Qed.

Lemma pow2_add a b : pow2 (a + b) == pow2 a * pow2 b.
Proof.
  apply Qpower_plus. discriminate.
Qed.

Lemma pow2_le a b : (a <= b)%Z -> pow2 a <= pow2 b.
Proof.
  intros H. apply Qpower_le_compat_l; [exact H | discriminate].
Qed.

Lemma pow2_lt_inv a b : pow2 a < pow2 b -> (a < b)%Z.
Proof.
  intros H. apply (Qpower_lt_compat_l_inv 2); [exact H | reflexivity].
Qed.

Lemma pow2_Z n : (0 <= n)%Z -> pow2 n == inject_Z (2 ^ n).
Proof.
  intros H. unfold pow2. rewrite Zpower_Qpower by exact H. reflexivity.
Qed.

Lemma Q_num_den x : x * inject_Z (Zpos (Qden x)) == inject_Z (Qnum x).
Proof.
  destruct x as [n d]. unfold Qeq, Qmult, inject_Z. simpl. 
  rewrite Pos.mul_1_r. ring.
Qed.

Lemma ilog2_raw x : 0 < x ->
  let e0 := (Z.log2 (Qnum x) - Z.log2 (Zpos (Qden x)))%Z in
  pow2 (e0 - 1) < x /\ x < pow2 (e0 + 1).
Proof.
  intros Hx e0.
  assert (Hn : (0 < Qnum x)%Z).
  { destruct x as [n d]. unfold Qlt in Hx. simpl in *. lia. }
  pose proof (Z.log2_spec _ Hn) as [Hn1 Hn2].
  pose proof (Z.log2_spec (Zpos (Qden x)) (Pos2Z.is_pos _)) as [Hd1 Hd2].
  pose proof (Z.log2_nonneg (Qnum x)) as Ha.
  pose proof (Z.log2_nonneg (Zpos (Qden x))) as Hb.
  set (a := Z.log2 (Qnum x)) in *. set (b := Z.log2 (Zpos (Qden x))) in *.
  pose proof (Q_num_den x) as Hnd.
  assert (Qn1 : pow2 a <= inject_Z (Qnum x)).
  { rewrite pow2_Z by exact Ha. rewrite <- Zle_Qle. exact Hn1. }
  assert (Qn2 : inject_Z (Qnum x) < pow2 (a + 1)).
  { rewrite pow2_Z by lia. rewrite <- Zlt_Qlt. replace (a+1)%Z with (Z.succ a) by lia. exact Hn2. }
  assert (Qd1 : pow2 b <= inject_Z (Zpos (Qden x))).
  { rewrite pow2_Z by exact Hb. rewrite <- Zle_Qle. exact Hd1. }
  assert (Qd2 : inject_Z (Zpos (Qden x)) < pow2 (b + 1)).
  { rewrite pow2_Z by lia. rewrite <- Zlt_Qlt. replace (b+1)%Z with (Z.succ b) by lia. exact Hd2. }
  pose proof (pow2_pos b) as Pb. pose proof (pow2_pos (b+1)) as Pb1.
  split.
  - apply (Qmult_lt_r _ _ (pow2 (b + 1))); [exact Pb1|].
    rewrite <- pow2_add. replace (e0 - 1 + (b + 1))%Z with a by (unfold e0; lia).
    apply Qle_lt_trans with (inject_Z (Qnum x)); [exact Qn1|].
    rewrite <- Hnd. apply Qmult_lt_l; [exact Hx | exact Qd2].
  - apply (Qmult_lt_r _ _ (pow2 b)); [exact Pb|].
    rewrite <- pow2_add. replace (e0 + 1 + b)%Z with (a + 1)%Z by (unfold e0; lia).
    apply Qle_lt_trans with (inject_Z (Qnum x)); [|exact Qn2].
    rewrite <- Hnd. apply Qmult_le_l; [exact Hx | exact Qd1].
Qed.

Lemma ilog2_spec x : 0 < x -> pow2 (ilog2 x) <= x /\ x < pow2 (ilog2 x + 1).
Proof.
  intros Hx. destruct (ilog2_raw x Hx) as [H1 H2]. unfold ilog2.
  destruct (Qle_bool _ x) eqn:E.
  - split; [apply Qle_bool_iff; exact E | exact H2].
  - split; [apply Qlt_le_weak; exact H1|].
    match goal with |- _ < pow2 (?e - 1 + 1) => replace (e - 1 + 1)%Z with e by lia end.
    apply Qnot_le_lt. intros C. apply Qle_bool_iff in C. congruence.
Qed.

Lemma ilog2_mono x y : 0 < x -> x <= y -> (ilog2 x <= ilog2 y)%Z.
Proof.
  intros Hx Hxy.
  destruct (ilog2_spec x Hx) as [Hx1 _].
  destruct (ilog2_spec y (Qlt_le_trans _ _ _ Hx Hxy)) as [_ Hy2].
  assert (H : pow2 (ilog2 x) < pow2 (ilog2 y + 1)).
  { eapply Qle_lt_trans; [exact Hx1|]. eapply Qle_lt_trans; [exact Hxy | exact Hy2]. }
  apply pow2_lt_inv in H. lia.
Qed.

Lemma ilog2_unique x e : pow2 e <= x -> x < pow2 (e + 1) -> ilog2 x = e.
Proof.
  intros H1 H2.
  assert (Hx : 0 < x) by (eapply Qlt_le_trans; [apply pow2_pos | exact H1]).
  destruct (ilog2_spec x Hx) as [G1 G2].
  assert (A : pow2 e < pow2 (ilog2 x + 1)) by (eapply Qle_lt_trans; eauto).
  assert (B : pow2 (ilog2 x) < pow2 (e + 1)) by (eapply Qle_lt_trans; eauto).
  apply pow2_lt_inv in A, B. lia.
Qed.

Lemma rhe_bounds y : (Qfloor y <= rhe y <= Qfloor y + 1)%Z.
Proof.
  unfold rhe. destruct (Qcompare _ _); [destruct (Z.even _)| |]; lia.
Qed.

Lemma rhe_comp x y : x == y -> rhe x = rhe y.
Proof.
  intros H. unfold rhe. rewrite (Qfloor_comp _ _ H).
  assert (E : x - inject_Z (Qfloor y) == y - inject_Z (Qfloor y)) by (rewrite H; reflexivity).
  rewrite (Qcompare_comp _ _ E (1#2) (1#2) (Qeq_refl _)). reflexivity.
Qed.

Lemma rhe_Z n : rhe (inject_Z n) = n.
Proof.
  unfold rhe. rewrite Qfloor_Z.
  assert (E : inject_Z n - inject_Z n == 0) by ring.
  rewrite (Qcompare_comp _ _ E (1#2) (1#2) (Qeq_refl _)). reflexivity.
Qed.

Lemma rhe_mono x y : x <= y -> (rhe x <= rhe y)%Z.
Proof.
  intros H. pose proof (Qfloor_resp_le _ _ H) as Hf.
  pose proof (rhe_bounds x) as Bx. pose proof (rhe_bounds y) as By.
  destruct (Z.eq_dec (Qfloor x) (Qfloor y)) as [E|E]; [|lia].
  unfold rhe. rewrite <- E. clear Bx By Hf E.
  remember (inject_Z (Qfloor x)) as f eqn:Ef. clear Ef.
  destruct (Qcompare_spec (x - f) (1#2)) as [Cx|Cx|Cx];
  destruct (Qcompare_spec (y - f) (1#2)) as [Cy|Cy|Cy];
    try destruct (Z.even (Qfloor x)); try lia; exfalso; lra.
Qed.

Lemma rhe_le_Z y n : y <= inject_Z n -> (rhe y <= n)%Z.
Proof.
  intros H. rewrite <- (rhe_Z n). apply rhe_mono, H.
Qed.

Lemma rhe_ge_Z y n : inject_Z n <= y -> (n <= rhe y)%Z.
Proof.
  intros H. rewrite <- (rhe_Z n). apply rhe_mono, H.
Qed.

Lemma RNpos_eq x : RNpos x == inject_Z (rhe (x / pow2 (ulp_exp x))) * pow2 (ulp_exp x).
Proof.
  unfold RNpos. apply Qred_correct.
Qed.

Lemma div_pow2 a b : pow2 a / pow2 b == pow2 (a - b).
Proof.
  pose proof (pow2_pos b). 
  assert (E : pow2 a == pow2 (a - b) * pow2 b).
  { rewrite <- pow2_add. replace (a - b + b)%Z with a by lia. reflexivity. }
  rewrite E. field. intros C. rewrite C in H. discriminate.
Qed.

Lemma RNpos_le_pow2 x k : 0 < x -> x <= pow2 k -> (ulp_exp x <= k)%Z -> RNpos x <= pow2 k.
Proof.
  intros Hx Hk He. rewrite RNpos_eq. set (ex := ulp_exp x) in *.
  pose proof (pow2_pos ex) as Pe.
  assert (R : (rhe (x / pow2 ex) <= 2 ^ (k - ex))%Z).
  { apply rhe_le_Z. rewrite <- pow2_Z by lia. rewrite <- div_pow2.
    apply Qmult_le_compat_r; [exact Hk|]. apply Qlt_le_weak, Qinv_lt_0_compat, Pe. }
  rewrite Zle_Qle in R. rewrite <- pow2_Z in R by lia.
  assert (E : pow2 k == pow2 (k - ex) * pow2 ex).
  { rewrite <- pow2_add. replace (k - ex + ex)%Z with k by lia. reflexivity. }
  rewrite E. apply Qmult_le_compat_r; [exact R | apply Qlt_le_weak, Pe].
Qed.

Lemma RNpos_ge_pow2 x k : pow2 k <= x -> (ulp_exp x <= k)%Z -> pow2 k <= RNpos x.
Proof.
  intros Hk He. rewrite RNpos_eq. set (ex := ulp_exp x) in *.
  pose proof (pow2_pos ex) as Pe.
  assert (R : (2 ^ (k - ex) <= rhe (x / pow2 ex))%Z).
  { apply rhe_ge_Z. rewrite <- pow2_Z by lia. rewrite <- div_pow2.
    apply Qmult_le_compat_r; [exact Hk|]. apply Qlt_le_weak, Qinv_lt_0_compat, Pe. }
  rewrite Zle_Qle in R. rewrite <- pow2_Z in R by lia.
  assert (E : pow2 k == pow2 (k - ex) * pow2 ex).
  { rewrite <- pow2_add. replace (k - ex + ex)%Z with k by lia. reflexivity. }
  rewrite E. apply Qmult_le_compat_r; [exact R | apply Qlt_le_weak, Pe].
Qed.

Lemma ulp_exp_mono x y : 0 < x -> x <= y -> (ulp_exp x <= ulp_exp y)%Z.
Proof.
  intros Hx Hxy. pose proof (ilog2_mono x y Hx Hxy). unfold ulp_exp. lia.
Qed.

Lemma RNpos_mono x y : 0 < x -> x <= y -> RNpos x <= RNpos y.
Proof.
  intros Hx Hxy. assert (Hy : 0 < y) by (eapply Qlt_le_trans; eauto).
  pose proof (ulp_exp_mono x y Hx Hxy) as He.
  destruct (Z.eq_dec (ulp_exp x) (ulp_exp y)) as [E|E].
  - rewrite !RNpos_eq, E. pose proof (pow2_pos (ulp_exp y)) as Pe.
    apply Qmult_le_compat_r; [|apply Qlt_le_weak, Pe].
    rewrite <- Zle_Qle. apply rhe_mono.
    apply Qmult_le_compat_r; [exact Hxy|]. apply Qlt_le_weak, Qinv_lt_0_compat, Pe.
  - destruct (ilog2_spec x Hx) as [_ Hx2]. destruct (ilog2_spec y Hy) as [Hy1 _].
    assert (L : (ilog2 x + 1 <= ilog2 y)%Z /\ (ulp_exp y <= ilog2 y)%Z /\ (ulp_exp x <= ilog2 y)%Z).
    { unfold ulp_exp, prec, emin in *. lia. }
    destruct L as (L1 & L2 & L3).
    apply Qle_trans with (pow2 (ilog2 y)).
    + apply RNpos_le_pow2; [exact Hx | | exact L3].
      apply Qlt_le_weak. eapply Qlt_le_trans; [exact Hx2 | apply pow2_le, L1].
    + apply RNpos_ge_pow2; [exact Hy1 | exact L2].
Qed.

Lemma RNpos_pos x : 0 < x -> 0 <= RNpos x.
Proof.
  intros Hx. rewrite RNpos_eq. pose proof (pow2_pos (ulp_exp x)) as Pe.
  apply Qmult_le_0_compat; [|apply Qlt_le_weak, Pe].
  change 0 with (inject_Z 0). rewrite <- Zle_Qle. apply rhe_ge_Z.
  apply Qmult_le_0_compat; [apply Qlt_le_weak, Hx|]. apply Qlt_le_weak, Qinv_lt_0_compat, Pe.
Qed.

Lemma RN_comp x y : x == y -> RN x = RN y.
Proof.
  intros H. unfold RN. rewrite (Qred_complete _ _ H). reflexivity.
Qed.

Lemma RN_nonneg x : 0 <= x -> 0 <= RN x.
Proof.
  intros H. unfold RN. destruct (Qcompare_spec (Qred x) 0) as [C|C|C].
  - apply Qle_refl.
  - rewrite Qred_correct in C. exfalso. lra.
  - apply RNpos_pos, C.
Qed.

Lemma RN_nonpos x : x <= 0 -> RN x <= 0.
Proof.
  intros H. unfold RN. destruct (Qcompare_spec (Qred x) 0) as [C|C|C].
  - apply Qle_refl.
  - assert (P : 0 < - Qred x) by lra. pose proof (RNpos_pos _ P). lra.
  - rewrite Qred_correct in C. exfalso. lra.
Qed.

Lemma RN_mono x y : x <= y -> RN x <= RN y.
Proof.
  intros H. unfold RN.
  destruct (Qcompare_spec (Qred x) 0) as [Cx|Cx|Cx];
  destruct (Qcompare_spec (Qred y) 0) as [Cy|Cy|Cy];
  pose proof (Qred_correct x) as Ex; pose proof (Qred_correct y) as Ey.
  - apply Qle_refl.
  - exfalso. lra.
  - apply RNpos_pos, Cy.
  - assert (P : 0 < - Qred x) by lra. pose proof (RNpos_pos _ P). lra.
  - assert (P : 0 < - Qred y) by lra.
    assert (Q' : - Qred y <= - Qred x) by lra.
    pose proof (RNpos_mono _ _ P Q'). lra.
  - assert (P : 0 < - Qred x) by lra. pose proof (RNpos_pos _ P).
    pose proof (RNpos_pos _ Cy). lra.
  - exfalso. lra.
  - exfalso. lra.
  - apply RNpos_mono; [exact Cx | lra].
Qed.

Lemma ulp_exp_comp x y : 0 < x -> x == y -> ulp_exp x = ulp_exp y.
Proof.
  intros Hx E. unfold ulp_exp. f_equal. f_equal.
  destruct (ilog2_spec x Hx) as [H1 H2]. symmetry.
  apply ilog2_unique; rewrite <- E; assumption.
Qed.

Lemma RNpos_exact x m : 0 < x -> x == inject_Z m * pow2 (ulp_exp x) -> RNpos x == x.
Proof.
  intros Hx E. rewrite RNpos_eq. pose proof (pow2_pos (ulp_exp x)) as Pe.
  assert (D : x / pow2 (ulp_exp x) == inject_Z m).
  { rewrite E at 1. field. intros C. rewrite C in Pe. discriminate. }
  rewrite (rhe_comp _ _ D), rhe_Z. symmetry. exact E.
Qed.

Lemma RN_pos_eq x : 0 < x -> RN x = RNpos (Qred x).
Proof.
  intros Hx. unfold RN. destruct (Qcompare_spec (Qred x) 0) as [C|C|C];
    rewrite Qred_correct in C; try reflexivity; exfalso; lra.
Qed.

(** Integers of magnitude below [2^53] are doubles. *)
Lemma RN_int_pos n : (0 < n < 2 ^ 53)%Z -> RN (inject_Z n) == inject_Z n.
Proof.
  intros Hn. assert (Hx : 0 < inject_Z n) by (change 0 with (inject_Z 0); rewrite <- Zlt_Qlt; lia).
  rewrite (RN_pos_eq _ Hx). set (x := Qred (inject_Z n)).
  assert (Ex : x == inject_Z n) by apply Qred_correct.
  assert (Hx' : 0 < x) by (rewrite Ex; exact Hx).
  transitivity x; [|exact Ex].
  destruct (ilog2_spec x Hx') as [H1' H2'].
  assert (H1 : pow2 (ilog2 x) <= inject_Z n) by (eapply Qle_trans; [exact H1' | rewrite Ex; apply Qle_refl]).
  assert (H2 : inject_Z n < pow2 (ilog2 x + 1)) by (eapply Qle_lt_trans; [rewrite <- Ex; apply Qle_refl | exact H2']).
  assert (B0 : (0 <= ilog2 x)%Z).
  { assert (A : pow2 0 < pow2 (ilog2 x + 1)).
    { eapply Qle_lt_trans; [|exact H2]. change (pow2 0) with (inject_Z 1).
      rewrite <- Zle_Qle. lia. }
    apply pow2_lt_inv in A. lia. }
  assert (B1 : (ilog2 x < 53)%Z).
  { apply pow2_lt_inv. eapply Qle_lt_trans; [exact H1|].
    rewrite (pow2_Z 53) by lia. rewrite <- Zlt_Qlt. lia. }
  assert (U : ulp_exp x = (ilog2 x - 52)%Z) by (unfold ulp_exp, prec, emin; lia).
  apply (RNpos_exact x (n * 2 ^ (52 - ilog2 x))); [exact Hx'|].
  rewrite U, inject_Z_mult, <- pow2_Z by lia. rewrite <- Qmult_assoc, <- pow2_add.
  replace (52 - ilog2 x + (ilog2 x - 52))%Z with 0%Z by lia.
  rewrite Ex. change (pow2 0) with 1. ring.
Qed.

Lemma RN_0 : RN 0 = 0.
Proof.
  reflexivity.
Qed.

Lemma RN_opp x : RN (- x) == - RN x.
Proof.
  unfold RN. rewrite Qred_opp.
  destruct (Qcompare_spec (Qred x) 0) as [C|C|C];
  destruct (Qcompare_spec (- Qred x) 0) as [D|D|D]; try (exfalso; lra); try reflexivity.
  - rewrite Qopp_involutive. reflexivity.
  - assert (E : - - Qred x == Qred x) by ring.
    assert (P : 0 < - - Qred x) by lra.
    unfold RNpos. rewrite (ulp_exp_comp _ _ P E).
    assert (F : - - Qred x / pow2 (ulp_exp (Qred x)) == Qred x / pow2 (ulp_exp (Qred x))) by (rewrite E; reflexivity).
    rewrite (rhe_comp _ _ F). reflexivity.
Qed.

Lemma RN_int n : (Z.abs n < 2 ^ 53)%Z -> RN (inject_Z n) == inject_Z n.
Proof.
  intros Hn. destruct (Z.lt_trichotomy n 0) as [L|[E|G]].
  - assert (P : RN (inject_Z (- n)) == inject_Z (- n)) by (apply RN_int_pos; lia).
    rewrite inject_Z_opp, RN_opp in P. lra.
  - subst n. reflexivity.
  - apply RN_int_pos. lia.
Qed.

Lemma RN_canon x : Qred (RN x) = RN x.
Proof.
  unfold RN. destruct (Qcompare (Qred x) 0).
  - reflexivity.
  - rewrite Qred_opp. unfold RNpos. rewrite Qred_involutive. reflexivity.
  - unfold RNpos. apply Qred_involutive.
Qed.

Lemma RN_eq_of_Qeq x y : RN x == y -> RN x = Qred y.
Proof.
  intros H. rewrite <- RN_canon. apply Qred_complete, H.
Qed.

Lemma Qred_inject_Z n : Qred (inject_Z n) = inject_Z n.
Proof.
  apply Qred_identity. simpl. apply Z.gcd_1_r.
Qed.

Lemma RN_int_eq n : (Z.abs n < 2 ^ 53)%Z -> RN (inject_Z n) = inject_Z n.
Proof.
  intros H. rewrite (RN_eq_of_Qeq _ _ (RN_int n H)). apply Qred_inject_Z.
Qed.

Lemma max_float_ge : inject_Z (2 ^ 53) <= max_float.
Proof.
  unfold max_float. rewrite <- Zle_Qle. vm_compute. discriminate.
Qed.

(** A value bounded by a small integer rounds within the same bounds and
    does not overflow. *)
Lemma RN_bounded x b :
  (0 <= b < 2 ^ 53)%Z -> - inject_Z b <= x <= inject_Z b ->
  - inject_Z b <= RN x <= inject_Z b /\ overflows (RN x) = false.
Proof.
  intros Hb [L U].
  assert (A : - inject_Z b <= RN x <= inject_Z b).
  { split.
    - rewrite <- (RN_int b) by lia. rewrite <- RN_opp. apply RN_mono, L.
    - rewrite <- (RN_int b) by lia. apply RN_mono, U. }
  split; [exact A|].
  unfold overflows. apply negb_false_iff, Qle_bool_iff, Qabs_Qle_condition.
  pose proof max_float_ge as M.
  assert (B : inject_Z b <= inject_Z (2 ^ 53)) by (rewrite <- Zle_Qle; lia).
  destruct A; split; lra.
Qed.

(** [RN] agrees with the standard library's binary64 on the penalty product
    for every tenth of a second up to the limit, for three time limits. *)
Lemma RN_agrees_with_reference :
  forallb (fun tl =>
    forallb (fun k =>
      Qeq_bool (penalty_product (Z.of_nat k * 100000) tl)
               (reference_penalty_product (Z.of_nat k * 100000) tl))
      (seq 0 (S (Z.to_nat tl * 10))))
    [10; 30; 45]%Z = true.
Proof.
  vm_compute. reflexivity.
Qed.

End Float64Facts.

(** ** Python arithmetic *)

Module ArithFacts.
Import Float64 Float64Facts.
Local Open Scope Q_scope.

Lemma float_result_bounded x b :
  (0 <= b < 2 ^ 53)%Z -> - inject_Z b <= x <= inject_Z b ->
  float_result x = Ok (RN x) /\ - inject_Z b <= RN x <= inject_Z b.
Proof.
  intros Hb Hx. destruct (RN_bounded x b Hb Hx) as [A O].
  unfold float_result. rewrite O. split; [reflexivity | exact A].
Qed.

Lemma float_result_unit x c :
  (0 <= c < 2 ^ 53)%Z -> 0 <= x <= inject_Z c ->
  float_result x = Ok (RN x) /\ 0 <= RN x <= inject_Z c.
Proof.
  intros Hc [L U].
  assert (P : 0 <= inject_Z c) by (eapply Qle_trans; eauto).
  destruct (float_result_bounded x c Hc) as [E [_ B]]; [split; lra|].
  split; [exact E|]. split; [apply RN_nonneg, L | exact B].
Qed.

Lemma float_of_int_small n :
  (Z.abs n < 2 ^ 53)%Z -> float_of_int n = Ok (inject_Z n).
Proof.
  intros H. unfold float_of_int.
  destruct (float_result_bounded (inject_Z n) (Z.abs n)) as [E _].
  - lia.
  - rewrite <- inject_Z_opp, <- !Zle_Qle. lia.
  - rewrite E, (RN_int_eq n H). reflexivity.
Qed.

Lemma py_int_nonneg y : 0 <= y -> py_int y = Qfloor y.
Proof.
  intros H. unfold py_int. apply Qle_bool_iff in H. rewrite H. reflexivity.
Qed.

Lemma Qfloor_range y (b : Z) : 0 <= y <= inject_Z b -> (0 <= Qfloor y <= b)%Z.
Proof.
  intros [L U]. split.
  - change 0%Z with (Qfloor 0). apply Qfloor_resp_le, L.
  - rewrite <- (Qfloor_Z b). apply Qfloor_resp_le, U.
Qed.

Lemma Qlt_bool_iff a b : Qlt_bool a b = true <-> a < b.
Proof.
  unfold Qlt_bool. rewrite negb_true_iff. split.
  - intros H. apply Qnot_le_lt. intros C. apply Qle_bool_iff in C. congruence.
  - intros H. destruct (Qle_bool b a) eqn:E; [|reflexivity].
    apply Qle_bool_iff in E. exfalso. lra.
Qed.

Lemma Qlt_bool_false a b : Qlt_bool a b = false <-> b <= a.
Proof.
  unfold Qlt_bool. rewrite negb_false_iff. apply Qle_bool_iff.
Qed.

End ArithFacts.

(** ** Score of one answer *)

Module ScoringFacts.
Import Float64 Float64Facts ArithFacts ScoringService.
Local Open Scope Q_scope.

Lemma total_seconds_ok submitted start :
  valid_datetime submitted = true -> valid_datetime start = true ->
  total_seconds (submitted - start) = Ok (RN (inject_Z (submitted - start) / 1000000)).
Proof.
  intros Hs Hq. unfold valid_datetime, datetime_end in *.
  apply andb_prop in Hs, Hq. destruct Hs as [S1 S2], Hq as [Q1 Q2].
  apply Z.leb_le in S1, Q1. apply Z.ltb_lt in S2, Q2.
  unfold total_seconds, int_true_div. change (1000000 =? 0)%Z with false. cbv iota.
  destruct (float_result_bounded (inject_Z (submitted - start) / inject_Z 1000000)
              seconds_bound) as [E _]; [unfold seconds_bound; lia | | exact E].
  set (d := (submitted - start)%Z).
  assert (D : (- (seconds_bound * 1000000) <= d <= seconds_bound * 1000000)%Z)
    by (unfold d, seconds_bound; lia).
  destruct D as [D1 D2]. rewrite Zle_Qle in D1, D2.
  rewrite inject_Z_opp in D1. rewrite inject_Z_mult in D1, D2.
  change (inject_Z 1000000) with 1000000 in *.
  generalize dependent (inject_Z d). generalize (inject_Z seconds_bound).
  intros b q D1 D2. split.
  - apply Qle_shift_div_l; [reflexivity | lra].
  - apply Qle_shift_div_r; [reflexivity | lra].
Qed.

Lemma clamp_range t tl :
  (1 <= tl)%Z ->
  0 <= FloatScore.clamp t 0 (inject_Z tl) <= inject_Z tl.
Proof.
  intros H. assert (P : 1 <= inject_Z tl) by (change 1 with (inject_Z 1); rewrite <- Zle_Qle; lia).
  unfold FloatScore.clamp.
  destruct (Qlt_bool t 0) eqn:A; [split; lra|]. apply Qlt_bool_false in A.
  destruct (Qlt_bool (inject_Z tl) t) eqn:B; [split; lra|]. apply Qlt_bool_false in B.
  split; assumption.
Qed.

(** The clamp on mixed int/float values followed by the true division is the
    rounded quotient of the clamped value. *)
Lemma ratio_eval t tl :
  (1 <= tl < 2 ^ 53)%Z ->
  true_div (py_max (PyInt 0) (py_min (PyFloat t) (PyInt tl))) (PyInt tl)
  = Ok (RN (FloatScore.clamp t 0 (inject_Z tl) / inject_Z tl)).
Proof.
  intros H.
  assert (P : 1 <= inject_Z tl) by (change 1 with (inject_Z 1); rewrite <- Zle_Qle; lia).
  assert (NZ : (tl =? 0)%Z = false) by (apply Z.eqb_neq; lia).
  assert (NQ : Qeq_bool (inject_Z tl) 0 = false).
  { destruct (Qeq_bool (inject_Z tl) 0) eqn:E; [|reflexivity].
    apply Qeq_bool_iff in E. exfalso. lra. }
  pose proof (clamp_range t tl ltac:(lia)) as [C0 C1].
  assert (U : 0 <= FloatScore.clamp t 0 (inject_Z tl) / inject_Z tl <= inject_Z 1).
  { split.
    - apply Qle_shift_div_l; lra.
    - apply Qle_shift_div_r; [lra|]. change (inject_Z 1) with 1. lra. }
  destruct (float_result_unit _ 1 ltac:(lia) U) as [E _].
  revert E. unfold FloatScore.clamp, py_min, py_max, num_ltb. cbn [num_val].
  change (inject_Z 0) with 0.
  destruct (Qlt_bool (inject_Z tl) t) eqn:B.
  - (* time_limit < time_taken: the int time_limit is kept *)
    apply Qlt_bool_iff in B.
    assert (A : Qlt_bool t 0 = false) by (apply Qlt_bool_false; lra).
    assert (Z0 : Qlt_bool 0 (inject_Z tl) = true) by (apply Qlt_bool_iff; lra).
    rewrite A. cbn [num_val]. rewrite Z0. intros E.
    unfold true_div, int_true_div. rewrite NZ. exact E.
  - apply Qlt_bool_false in B. cbn [num_val].
    destruct (Qlt_bool 0 t) eqn:Z0.
    + (* 0 < time_taken <= time_limit: the float is kept *)
      apply Qlt_bool_iff in Z0.
      assert (A : Qlt_bool t 0 = false) by (apply Qlt_bool_false; lra).
      rewrite A. intros E. unfold true_div. cbn [as_float].
      rewrite (float_of_int_small tl) by lia. cbn [bind].
      unfold float_div. rewrite NQ. exact E.
    + (* time_taken <= 0: the int 0 is kept *)
      apply Qlt_bool_false in Z0. intros E.
      unfold true_div, int_true_div. rewrite NZ.
      assert (Q' : inject_Z 0 / inject_Z tl
                   == (if Qlt_bool t 0 then 0 else t) / inject_Z tl).
      { destruct (Qlt_bool t 0) eqn:A; [reflexivity|].
        apply Qlt_bool_false in A. assert (T : t == 0) by lra. rewrite T. reflexivity. }
      unfold float_result in *. rewrite (RN_comp _ _ Q'). exact E.
Qed.

Lemma SPM_le : SPEED_PENALTY_MULTIPLIER <= 3 # 10.
Proof.
  apply Qle_bool_iff. vm_compute. reflexivity.
Qed.

Lemma SPM_nonneg : 0 <= SPEED_PENALTY_MULTIPLIER.
Proof.
  apply Qle_bool_iff. vm_compute. reflexivity.
Qed.

(** From a ratio in [0, 1] to the score. *)
Lemma penalty_eval r :
  0 <= r <= 1 ->
  exists x y,
    float_mul_int r BASE_POINTS = Ok x /\ float_mul x SPEED_PENALTY_MULTIPLIER = Ok y /\
    x = RN (r * 1000) /\ y = RN (x * SPEED_PENALTY_MULTIPLIER) /\
    py_int y = Qfloor y /\ (0 <= Qfloor y <= 300)%Z.
Proof.
  intros [R0 R1]. pose proof SPM_le as S1. pose proof SPM_nonneg as S0.
  assert (U1 : 0 <= r * 1000 <= inject_Z 1000).
  { change (inject_Z 1000) with 1000. split; lra. }
  destruct (float_result_unit _ 1000 ltac:(lia) U1) as [E1 [X0 X1]].
  set (x := RN (r * 1000)) in *. change (inject_Z 1000) with 1000 in X1.
  assert (U2 : 0 <= x * SPEED_PENALTY_MULTIPLIER <= inject_Z 300).
  { change (inject_Z 300) with 300. split.
    - apply Qmult_le_0_compat; assumption.
    - apply Qle_trans with (1000 * (3 # 10)); [|apply Qle_bool_iff; reflexivity].
      apply Qmult_le_compat_nonneg; split; assumption. }
  destruct (float_result_unit _ 300 ltac:(lia) U2) as [E2 [Y0 Y1]].
  exists x, (RN (x * SPEED_PENALTY_MULTIPLIER)). repeat split.
  - unfold float_mul_int. rewrite (float_of_int_small BASE_POINTS) by (unfold BASE_POINTS; lia).
    cbn [bind]. unfold float_mul. exact E1.
  - unfold float_mul. exact E2.
  - apply py_int_nonneg, Y0.
  - apply (Qfloor_range _ 300). split; assumption.
  - apply (Qfloor_range _ 300). split; assumption.
Qed.

(** Evaluation of the score of an answer whose option is correct. *)
Lemma score_correct_eval answer o start tl :
  selected_option answer = Some o -> is_correct o = true ->
  (1 <= tl < 2 ^ 53)%Z ->
  valid_datetime (submitted_at answer) = true -> valid_datetime start = true ->
  calculate_answer_score answer start tl
  = Ok (FloatScore.score (submitted_at answer) start tl)
  /\ (700 <= FloatScore.score (submitted_at answer) start tl <= 1000)%Z.
Proof.
  intros So Co Ht Hs Hq. unfold calculate_answer_score. rewrite So, Co. simpl negb. cbv iota.
  rewrite (total_seconds_ok _ _ Hs Hq). cbn [bind].
  rewrite (ratio_eval _ tl Ht). cbn [bind].
  unfold FloatScore.score, FloatScore.penalty, FloatScore.elapsed, FloatScore.fl.
  set (c := FloatScore.clamp _ 0 (inject_Z tl)).
  pose proof (clamp_range (RN (inject_Z (submitted_at answer - start) / 1000000)) tl ltac:(lia))
    as [C0 C1]. fold c in C0, C1.
  assert (P : 1 <= inject_Z tl) by (change 1 with (inject_Z 1); rewrite <- Zle_Qle; lia).
  assert (U : 0 <= c / inject_Z tl <= inject_Z 1).
  { split.
    - apply Qle_shift_div_l; lra.
    - apply Qle_shift_div_r; [lra|]. change (inject_Z 1) with 1. lra. }
  destruct (float_result_unit _ 1 ltac:(lia) U) as [_ R]. change (inject_Z 1) with 1 in R.
  destruct (penalty_eval _ R) as (x & y & E1 & E2 & Ex & Ey & Ei & B).
  rewrite E1. cbn [bind]. rewrite E2. cbn [bind]. rewrite Ei.
  subst y x. fold SPEED_PENALTY_MULTIPLIER.
  set (p := Qfloor _) in *. unfold BASE_POINTS. split; [reflexivity | lia].
Qed.

(** With [time_limit = 0] the clamp yields the int 0 and [0 / 0] raises. *)
Lemma score_zero_limit answer o start :
  selected_option answer = Some o -> is_correct o = true ->
  valid_datetime (submitted_at answer) = true -> valid_datetime start = true ->
  calculate_answer_score answer start 0 = Raise ZeroDivisionError.
Proof.
  intros So Co Hs Hq. unfold calculate_answer_score. rewrite So, Co. simpl negb. cbv iota.
  rewrite (total_seconds_ok _ _ Hs Hq). cbn [bind].
  set (t := RN _).
  assert (V : py_max (PyInt 0) (py_min (PyFloat t) (PyInt 0)) = PyInt 0%Z).
  { unfold py_min, py_max, num_ltb. cbn [num_val]. change (inject_Z 0) with 0.
    destruct (Qlt_bool 0 t) eqn:A; cbn [num_val].
    - reflexivity.
    - rewrite A. reflexivity. }
  rewrite V. reflexivity.
Qed.

Lemma score_at_zero submitted start tl :
  (1 <= tl)%Z -> FloatScore.elapsed submitted start tl == 0 ->
  FloatScore.score submitted start tl = 1000%Z.
Proof.
  intros H E. unfold FloatScore.score, FloatScore.penalty, FloatScore.fl.
  assert (P : 1 <= inject_Z tl) by (change 1 with (inject_Z 1); rewrite <- Zle_Qle; lia).
  assert (D : FloatScore.elapsed submitted start tl / inject_Z tl == 0).
  { rewrite E. field. lra. }
  rewrite (RN_comp _ _ D). vm_compute. reflexivity.
Qed.

Lemma score_at_limit submitted start tl :
  (1 <= tl)%Z -> FloatScore.elapsed submitted start tl == inject_Z tl ->
  FloatScore.score submitted start tl = 700%Z.
Proof.
  intros H E. unfold FloatScore.score, FloatScore.penalty, FloatScore.fl.
  assert (P : 1 <= inject_Z tl) by (change 1 with (inject_Z 1); rewrite <- Zle_Qle; lia).
  assert (D : FloatScore.elapsed submitted start tl / inject_Z tl == 1).
  { rewrite E. field. lra. }
  rewrite (RN_comp _ _ D). vm_compute. reflexivity.
Qed.

Lemma elapsed_zero submitted start tl :
  (1 <= tl)%Z -> (submitted <= start)%Z ->
  FloatScore.elapsed submitted start tl == 0.
Proof.
  intros Ht H. unfold FloatScore.elapsed, FloatScore.clamp, FloatScore.fl.
  set (t := RN _).
  assert (T : t <= 0).
  { apply RN_nonpos. apply Qle_shift_div_r; [reflexivity|].
    rewrite Qmult_0_l. change 0 with (inject_Z 0). rewrite <- Zle_Qle. lia. }
  assert (P : 1 <= inject_Z tl) by (change 1 with (inject_Z 1); rewrite <- Zle_Qle; lia).
  destruct (Qlt_bool t 0) eqn:A; [reflexivity|]. apply Qlt_bool_false in A.
  destruct (Qlt_bool (inject_Z tl) t) eqn:B.
  - apply Qlt_bool_iff in B. exfalso. lra.
  - lra.
Qed.

Lemma elapsed_limit submitted start tl :
  (1 <= tl < 2 ^ 53)%Z -> (start + tl * 1000000 <= submitted)%Z ->
  FloatScore.elapsed submitted start tl == inject_Z tl.
Proof.
  intros Ht H. unfold FloatScore.elapsed, FloatScore.clamp, FloatScore.fl.
  set (t := RN _).
  assert (T : inject_Z tl <= t).
  { rewrite <- (RN_int tl) by lia. apply RN_mono.
    apply Qle_shift_div_l; [reflexivity|].
    change 1000000 with (inject_Z 1000000). rewrite <- inject_Z_mult, <- Zle_Qle. lia. }
  assert (P : 1 <= inject_Z tl) by (change 1 with (inject_Z 1); rewrite <- Zle_Qle; lia).
  destruct (Qlt_bool t 0) eqn:A.
  - apply Qlt_bool_iff in A. exfalso. lra.
  - destruct (Qlt_bool (inject_Z tl) t) eqn:B; [reflexivity|].
    apply Qlt_bool_false in B. lra.
Qed.

Lemma score_incorrect answer start tl :
  answered_correctly answer = false -> calculate_answer_score answer start tl = Ok 0%Z.
Proof.
  unfold answered_correctly, calculate_answer_score.
  destruct (selected_option answer) as [o|]; [|reflexivity].
  intros H. rewrite H. reflexivity.
Qed.

Lemma answered_correctly_inv answer :
  answered_correctly answer = true ->
  exists o, selected_option answer = Some o /\ is_correct o = true.
Proof.
  unfold answered_correctly. destruct (selected_option answer) as [o|]; [|discriminate].
  intros H. exists o. split; [reflexivity | exact H].
Qed.

End ScoringFacts.

(** ** Leaderboard *)

Module RoundingErrorFacts.
Import Float64 Float64Facts ArithFacts ScoringFacts.
Local Open Scope Q_scope.

Lemma rhe_near y : -1 <= inject_Z (rhe y) - y <= 1.
Proof.
  pose proof (rhe_bounds y) as [L U].
  pose proof (Qfloor_le y) as F1. pose proof (Qlt_floor y) as F2.
  rewrite Zle_Qle in L, U. rewrite inject_Z_plus in U, F2.
  change (inject_Z 1) with 1 in U, F2. split; lra.
Qed.

Lemma RNpos_error x :
  0 < x -> x - pow2 (ulp_exp x) <= RNpos x <= x + pow2 (ulp_exp x).
Proof.
  intros Hx. rewrite RNpos_eq.
  pose proof (pow2_pos (ulp_exp x)) as P.
  pose proof (rhe_near (x / pow2 (ulp_exp x))) as [L U].
  set (u := pow2 (ulp_exp x)) in *. set (n := inject_Z (rhe (x / u))) in *.
  assert (x / u * u == x) as E by (field; lra).
  split.
  - assert ((n - x / u) * u >= -1 * u) as H by (apply Qmult_le_compat_r; lra). lra.
  - assert ((n - x / u) * u <= 1 * u) as H by (apply Qmult_le_compat_r; lra). lra.
Qed.

Lemma RN_error x :
  0 < x -> x - pow2 (ulp_exp x) <= RN x <= x + pow2 (ulp_exp x).
Proof.
  intros Hx. rewrite (RN_pos_eq x Hx).
  pose proof (Qred_correct x) as Er.
  assert (0 < Qred x) as Hr by lra.
  pose proof (RNpos_error (Qred x) Hr) as [A B].
  rewrite (ulp_exp_comp (Qred x) x Hr Er) in A, B.
  split; lra.
Qed.

Lemma ulp_exp_pow2 k : (emin <= k - 52)%Z -> ulp_exp (pow2 k) = (k - 52)%Z.
Proof.
  intros H. unfold ulp_exp.
  rewrite (ilog2_unique (pow2 k) k).
  - unfold prec. lia.
  - apply Qle_refl.
  - apply Qlt_le_trans with (pow2 k * 2).
    + pose proof (pow2_pos k). lra.
    + rewrite pow2_add. apply Qle_refl.
Qed.

(** The rounding error of a value in [0, 2^k] is at most one unit in the
    last place of [2^k]. *)
Lemma RN_abs_error x k :
  (emin <= k - 52)%Z -> 0 <= x <= pow2 k ->
  x - pow2 (k - 52) <= RN x <= x + pow2 (k - 52).
Proof.
  intros Hk [L U].
  destruct (Qlt_le_dec 0 x) as [Hx|Hx].
  - pose proof (RN_error x Hx) as [A B].
    pose proof (ulp_exp_mono x (pow2 k) Hx U) as M.
    rewrite (ulp_exp_pow2 k Hk) in M.
    pose proof (pow2_le _ _ M). split; lra.
  - assert (x == 0) as E by lra.
    rewrite (RN_comp _ _ E), RN_0. pose proof (pow2_pos (k - 52)). split; lra.
Qed.

End RoundingErrorFacts.

Module ExactScoreFacts.
Import Float64 Float64Facts ArithFacts ScoringFacts RoundingErrorFacts.
Local Open Scope Q_scope.

Lemma clamp_low x lo hi : x <= lo -> lo <= hi -> FloatScore.clamp x lo hi == lo.
Proof.
  intros H L. unfold FloatScore.clamp.
  destruct (Qlt_bool x lo) eqn:A; [reflexivity|]. apply Qlt_bool_false in A.
  destruct (Qlt_bool hi x) eqn:B; [apply Qlt_bool_iff in B; lra|]. lra.
Qed.

Lemma clamp_high x lo hi : hi <= x -> lo <= hi -> FloatScore.clamp x lo hi == hi.
Proof.
  intros H L. unfold FloatScore.clamp.
  destruct (Qlt_bool x lo) eqn:A; [apply Qlt_bool_iff in A; lra|].
  destruct (Qlt_bool hi x) eqn:B; [reflexivity|]. apply Qlt_bool_false in B. lra.
Qed.

Lemma clamp_mid x lo hi : lo <= x <= hi -> FloatScore.clamp x lo hi == x.
Proof.
  intros [L H]. unfold FloatScore.clamp.
  destruct (Qlt_bool x lo) eqn:A; [apply Qlt_bool_iff in A; lra|].
  destruct (Qlt_bool hi x) eqn:B; [apply Qlt_bool_iff in B; lra|]. reflexivity.
Qed.

Lemma tl_positive tl : (1 <= tl)%Z -> 1 <= inject_Z tl.
Proof.
  intros H. change 1 with (inject_Z 1). rewrite <- Zle_Qle. exact H.
Qed.

Lemma ulp_of_limit tl :
  (1 <= tl)%Z -> pow2 (ulp_exp (inject_Z tl)) <= inject_Z tl * pow2 (-52).
Proof.
  intros H. pose proof (tl_positive tl H) as P.
  assert (0 < inject_Z tl) as P0 by lra.
  assert (0 <= ilog2 (inject_Z tl))%Z as I.
  { assert (ilog2 1 = 0%Z) as E1.
    { apply ilog2_unique; [apply Qle_refl|reflexivity]. }
    rewrite <- E1. apply ilog2_mono; lra. }
  unfold ulp_exp, prec, emin. rewrite Z.max_l by lia.
  replace (ilog2 (inject_Z tl) - (53 - 1))%Z with (ilog2 (inject_Z tl) + -52)%Z by lia.
  rewrite pow2_add. apply Qmult_le_compat_r.
  - apply (ilog2_spec _ P0).
  - apply Qlt_le_weak, pow2_pos.
Qed.

(** The elapsed time of the code and the exact one differ by at most the
    rounding error of [total_seconds()], which is below [time_limit * 2^-52]
    once clamped. *)
Lemma elapsed_error submitted start tl :
  (1 <= tl < 2 ^ 53)%Z ->
  let ex := ScoringSpec.elapsed submitted start tl in
  let ec := FloatScore.elapsed submitted start tl in
  0 <= ex <= inject_Z tl /\ 0 <= ec <= inject_Z tl
  /\ ex - inject_Z tl * pow2 (-52) <= ec <= ex + inject_Z tl * pow2 (-52).
Proof.
  intros Ht ex ec. pose proof (tl_positive tl ltac:(lia)) as P.
  assert (0 <= inject_Z tl) as P0 by lra.
  pose proof (pow2_pos (-52)) as U.
  assert (0 <= inject_Z tl * pow2 (-52)) as TU.
  { apply Qmult_le_0_compat; lra. }
  assert (RN (inject_Z tl) == inject_Z tl) as Rt by (apply RN_int; lia).
  unfold ex, ec, ScoringSpec.elapsed, FloatScore.elapsed, FloatScore.fl.
  set (d := inject_Z (submitted - start) / 1000000).
  destruct (Qlt_le_dec 0 d) as [D0|D0].
  - destruct (Qlt_le_dec d (inject_Z tl)) as [D1|D1].
    + assert (0 <= RN d <= inject_Z tl) as Rd.
      { split; [apply RN_nonneg; lra|].
        rewrite <- Rt. apply RN_mono. lra. }
      rewrite (clamp_mid d), (clamp_mid (RN d)) by (try exact Rd; split; lra).
      pose proof (RN_error d D0) as [A B].
      pose proof (ulp_exp_mono d (inject_Z tl) D0 ltac:(lra)) as M.
      pose proof (pow2_le _ _ M) as M2.
      pose proof (ulp_of_limit tl ltac:(lia)) as L.
      repeat split; lra.
    + assert (inject_Z tl <= RN d) as Rd.
      { rewrite <- Rt. apply RN_mono. exact D1. }
      rewrite (clamp_high d), (clamp_high (RN d)) by lra.
      repeat split; lra.
  - assert (RN d <= 0) as Rd by (apply RN_nonpos; exact D0).
    rewrite (clamp_low d), (clamp_low (RN d)) by lra.
    repeat split; lra.
Qed.

Lemma pow2_m52 : pow2 (-52) == 1 # 4503599627370496.
Proof. reflexivity. Qed.

Lemma pow2_m42 : pow2 (10 - 52) == 1 # 4398046511104.
Proof. reflexivity. Qed.

Lemma pow2_m43 : pow2 (9 - 52) == 1 # 8796093022208.
Proof. reflexivity. Qed.

Lemma pow2_m53 : pow2 (-1 - 52) == 1 # 9007199254740992.
Proof. reflexivity. Qed.

(** The double product of the code lies within [2^-40] of the exact
    product [elapsed / time_limit * 1000 * 0.3]. *)
Lemma product_error submitted start tl :
  (1 <= tl < 2 ^ 53)%Z ->
  let exact := ScoringSpec.elapsed submitted start tl / inject_Z tl * 1000 * (3 # 10) in
  let double :=
    RN (RN (RN (FloatScore.elapsed submitted start tl / inject_Z tl) * 1000)
        * RN (3 # 10)) in
  0 <= exact <= 300 /\ exact - (1 # 1000000) <= double <= exact + (1 # 1000000).
Proof.
  intros Ht. cbv zeta.
  pose proof (tl_positive tl ltac:(lia)) as P.
  destruct (elapsed_error submitted start tl Ht) as ((X0 & X1) & (C0 & C1) & (E0 & E1)).
  cbv zeta in *.
  set (ex := ScoringSpec.elapsed submitted start tl) in *.
  set (ec := FloatScore.elapsed submitted start tl) in *.
  set (t := inject_Z tl) in *.
  pose proof pow2_m52 as U52. set (u := pow2 (-52)) in *.
  assert (0 < t) as T0 by lra.
  assert (0 <= / t) as Ti by (apply Qlt_le_weak, Qinv_lt_0_compat; exact T0).
  (* the two ratios *)
  assert (0 <= ex / t <= 1) as RX.
  { split; [apply Qle_shift_div_l; lra|apply Qle_shift_div_r; lra]. }
  assert (0 <= ec / t <= 1) as RC.
  { split; [apply Qle_shift_div_l; lra|apply Qle_shift_div_r; lra]. }
  assert (ex / t - u <= ec / t <= ex / t + u) as RE.
  { split.
    - apply Qle_shift_div_l; [exact T0|].
      assert ((ex / t - u) * t == ex - t * u) as E by (field; lra). lra.
    - apply Qle_shift_div_r; [exact T0|].
      assert ((ex / t + u) * t == ex + t * u) as E by (field; lra). lra. }
  set (rx := ex / t) in *. set (rc := ec / t) in *.
  (* first rounding: the quotient *)
  assert (rc - u <= RN rc <= rc + u) as R1
    by (apply (RN_abs_error rc 0); [unfold emin; lia|split; [lra|change (pow2 0) with 1; lra]]).
  assert (0 <= RN rc <= 1) as B1.
  { split; [apply RN_nonneg; lra|].
    assert (RN 1 == 1) as E by (apply (RN_int 1); simpl; lia).
    apply Qle_trans with (RN 1); [apply RN_mono; lra|lra]. }
  set (r1 := RN rc) in *.
  (* second rounding: times 1000 *)
  pose proof pow2_m42 as U42.
  assert (r1 * 1000 - pow2 (10 - 52) <= RN (r1 * 1000) <= r1 * 1000 + pow2 (10 - 52)) as R2.
  { apply (RN_abs_error (r1 * 1000) 10); [unfold emin; lia|].
    change (pow2 10) with 1024. split; lra. }
  assert (0 <= RN (r1 * 1000) <= 1000) as B2.
  { split; [apply RN_nonneg; lra|].
    assert (RN (inject_Z 1000) == inject_Z 1000) as E by (apply RN_int; simpl; lia).
    change (inject_Z 1000) with 1000 in E.
    apply Qle_trans with (RN 1000); [apply RN_mono; lra|lra]. }
  set (x := RN (r1 * 1000)) in *.
  (* the constant 0.3 *)
  pose proof pow2_m53 as U53.
  assert ((3 # 10) - pow2 (-1 - 52) <= RN (3 # 10) <= (3 # 10) + pow2 (-1 - 52)) as R3.
  { apply (RN_abs_error (3 # 10) (-1)); [unfold emin; lia|].
    change (pow2 (-1)) with (1 # 2). split; lra. }
  pose proof SPM_nonneg as S0. pose proof SPM_le as S1.
  unfold SPEED_PENALTY_MULTIPLIER in S0, S1.
  set (c := RN (3 # 10)) in *.
  (* third rounding: the product *)
  assert (0 <= x * c <= 300) as B3.
  { split; [apply Qmult_le_0_compat; lra|].
    apply Qle_trans with (1000 * c); [apply Qmult_le_compat_r; lra|lra]. }
  pose proof pow2_m43 as U43.
  assert (x * c - pow2 (9 - 52) <= RN (x * c) <= x * c + pow2 (9 - 52)) as R4.
  { apply (RN_abs_error (x * c) 9); [unfold emin; lia|].
    change (pow2 9) with 512. split; lra. }
  (* the product against the exact one *)
  assert (x * (3 # 10) - (1 # 9007199254740) <= x * c <= x * (3 # 10)) as XC.
  { split.
    - assert (x * ((3 # 10) - c) <= 1000 * ((3 # 10) - c)) as H
        by (apply Qmult_le_compat_r; lra).
      lra.
    - assert (x * c <= x * (3 # 10)) as H.
      { rewrite (Qmult_comm x c), (Qmult_comm x (3 # 10)).
        apply Qmult_le_compat_r; lra. }
      exact H. }
  split; [split; lra|]. split; lra.
Qed.

Lemma floor_near a b : a - 1 < b -> b < a + 1 -> (Qfloor a - 1 <= Qfloor b <= Qfloor a + 1)%Z.
Proof.
  intros L U.
  pose proof (Qfloor_le a) as A1. pose proof (Qlt_floor a) as A2.
  pose proof (Qfloor_le b) as B1. pose proof (Qlt_floor b) as B2.
  rewrite inject_Z_plus in A2, B2. change (inject_Z 1) with 1 in A2, B2.
  split.
  - assert (inject_Z (Qfloor a) < inject_Z (Qfloor b + 1 + 1)) as H.
    { rewrite !inject_Z_plus. change (inject_Z 1) with 1. lra. }
    rewrite <- Zlt_Qlt in H. lia.
  - assert (inject_Z (Qfloor b) < inject_Z (Qfloor a + 1 + 1)) as H.
    { rewrite !inject_Z_plus. change (inject_Z 1) with 1. lra. }
    rewrite <- Zlt_Qlt in H. lia.
Qed.

(** The score of the code is within one point of the formula evaluated in
    exact arithmetic. *)
Lemma score_near_exact submitted start tl :
  (1 <= tl < 2 ^ 53)%Z ->
  (ScoringSpec.score submitted start tl - 1
   <= FloatScore.score submitted start tl
   <= ScoringSpec.score submitted start tl + 1)%Z
  /\ (700 <= ScoringSpec.score submitted start tl <= 1000)%Z.
Proof.
  intros Ht. destruct (product_error submitted start tl Ht) as [[P0 P1] [L U]].
  cbv zeta in *.
  unfold ScoringSpec.score, FloatScore.score, ScoringSpec.penalty, FloatScore.penalty,
    FloatScore.fl, BASE_POINTS.
  change (inject_Z 1000) with 1000.
  set (p := ScoringSpec.elapsed submitted start tl / inject_Z tl * 1000 * (3 # 10)) in *.
  set (y := RN _) in *.
  pose proof (floor_near p y ltac:(lra) ltac:(lra)) as N.
  assert (0 <= Qfloor p <= 300)%Z as Fp.
  { apply (Qfloor_range p 300). change (inject_Z 300) with 300. split; lra. }
  split; lia.
Qed.

Lemma exact_score_at_zero submitted start tl :
  (1 <= tl)%Z -> (submitted <= start)%Z -> ScoringSpec.score submitted start tl = 1000%Z.
Proof.
  intros Ht H. pose proof (tl_positive tl Ht) as P.
  unfold ScoringSpec.score, ScoringSpec.penalty, BASE_POINTS.
  assert (ScoringSpec.elapsed submitted start tl == 0) as E.
  { unfold ScoringSpec.elapsed. apply clamp_low; [|lra].
    assert (inject_Z (submitted - start) <= 0) as N
      by (change 0 with (inject_Z 0); rewrite <- Zle_Qle; lia).
    apply Qle_shift_div_r; lra. }
  assert (Qfloor (ScoringSpec.elapsed submitted start tl / inject_Z tl
                  * inject_Z 1000 * (3 # 10)) = 0%Z) as F.
  { rewrite <- (Qfloor_Z 0). apply Qfloor_comp. rewrite E. unfold Qdiv.
    change (inject_Z 0) with 0. ring. }
  rewrite F. reflexivity.
Qed.

Lemma exact_score_at_limit submitted start tl :
  (1 <= tl)%Z -> (start + tl * 1000000 <= submitted)%Z ->
  ScoringSpec.score submitted start tl = 700%Z.
Proof.
  intros Ht H. pose proof (tl_positive tl Ht) as P.
  unfold ScoringSpec.score, ScoringSpec.penalty, BASE_POINTS.
  assert (ScoringSpec.elapsed submitted start tl == inject_Z tl) as E.
  { unfold ScoringSpec.elapsed. apply clamp_high; [|lra].
    assert (inject_Z (tl * 1000000) <= inject_Z (submitted - start)) as N
      by (rewrite <- Zle_Qle; lia).
    rewrite inject_Z_mult in N. change (inject_Z 1000000) with 1000000 in N.
    apply Qle_shift_div_l; lra. }
  assert (Qfloor (ScoringSpec.elapsed submitted start tl / inject_Z tl
                  * inject_Z 1000 * (3 # 10)) = 300%Z) as F.
  { rewrite <- (Qfloor_Z 300). apply Qfloor_comp. rewrite E.
    change (inject_Z 1000) with 1000. change (inject_Z 300) with 300. field. lra. }
  rewrite F. reflexivity.
Qed.

End ExactScoreFacts.

Module LeaderboardFacts.
Import Float64 Float64Facts ArithFacts ScoringFacts ScoringService ListFacts SortFacts.
Local Open Scope Z_scope.

Lemma scorable_correct answer :
  scorable answer = true -> answered_correctly answer = true ->
  valid_datetime (submitted_at answer) = true
  /\ 1 <= time_limit (answer_question answer) < 2 ^ 53.
Proof.
  unfold scorable. intros H C. rewrite C in H. simpl in H.
  apply andb_prop in H. destruct H as [H H3]. apply andb_prop in H. destruct H as [H1 H2].
  apply Z.leb_le in H2. apply Z.ltb_lt in H3. auto.
Qed.

(** The score of a scorable answer is returned and lies in [0, 1000]. *)
Lemma score_total answer start :
  valid_datetime start = true -> scorable answer = true ->
  exists score, calculate_answer_score answer start (time_limit (answer_question answer))
                = Ok score /\ 0 <= score <= 1000.
Proof.
  intros Hq Hs. destruct (answered_correctly answer) eqn:C.
  - destruct (scorable_correct answer Hs C) as [V T].
    destruct (answered_correctly_inv answer C) as (o & So & Co).
    destruct (score_correct_eval answer o start _ So Co T V Hq) as [E B].
    eexists. split; [exact E | lia].
  - exists 0. split; [apply score_incorrect, C | lia].
Qed.

Lemma tally_bounds session answers : forall tp cc tp' cc',
  tally session answers tp cc = Ok (tp', cc') ->
  cc <= cc' <= cc + Z.of_nat (List.length answers).
Proof.
  induction answers as [|a rest IH]; intros tp cc tp' cc' H; simpl in H.
  - injection H as <- <-. simpl. lia.
  - destruct (calculate_answer_score a _ _) as [score|e]; [|discriminate].
    cbn [bind] in H. apply IH in H. simpl List.length.
    destruct (answered_correctly a); lia.
Qed.

Lemma tally_total session answers : forall tp cc,
  valid_datetime (question_start_time_of session) = true ->
  forallb scorable answers = true ->
  exists tp' cc', tally session answers tp cc = Ok (tp', cc').
Proof.
  induction answers as [|a rest IH]; intros tp cc Hq Hs; simpl.
  - eauto.
  - simpl in Hs. apply andb_prop in Hs. destruct Hs as [Ha Hr].
    destruct (score_total a _ Hq Ha) as (score & E & _). rewrite E. cbn [bind].
    apply IH; assumption.
Qed.

Lemma Z_to_Q_le a b : a <= b -> (inject_Z a <= inject_Z b)%Q.
Proof.
  intros H. rewrite <- Zle_Qle. exact H.
Qed.

(** [percent_of] returns a value in [0, 100] when [0 <= correct <= answered]. *)
Lemma percent_of_total c n :
  0 <= c <= n ->
  exists v, percent_of c n = Ok v /\ (0 <= num_val v <= 100)%Q
    /\ (0 < n -> v = PyFloat (RN (RN (inject_Z c / inject_Z n) * 100))).
Proof.
  intros [C0 Cn]. unfold percent_of. destruct (n >? 0) eqn:G.
  - assert (N : 0 < n) by (rewrite Z.gtb_ltb in G; apply Z.ltb_lt in G; exact G).
    assert (NZ : (n =? 0) = false) by (apply Z.eqb_neq; lia).
    unfold int_true_div. rewrite NZ.
    assert (Pn : (0 < inject_Z n)%Q) by (change 0%Q with (inject_Z 0); rewrite <- Zlt_Qlt; lia).
    assert (Pc : (0 <= inject_Z c)%Q) by (change 0%Q with (inject_Z 0); apply Z_to_Q_le; lia).
    assert (Pcn : (inject_Z c <= inject_Z n)%Q) by (apply Z_to_Q_le; lia).
    assert (U : (0 <= inject_Z c / inject_Z n <= inject_Z 1)%Q).
    { split.
      - apply Qle_shift_div_l; [exact Pn | lra].
      - apply Qle_shift_div_r; [exact Pn|]. change (inject_Z 1) with 1%Q. lra. }
    destruct (float_result_unit _ 1 ltac:(lia) U) as [E [R0 R1]].
    rewrite E. cbn [bind]. change (inject_Z 1) with 1%Q in R1.
    unfold float_mul_int. rewrite (float_of_int_small 100) by lia. cbn [bind].
    unfold float_mul. change (inject_Z 100) with 100%Q.
    assert (U2 : (0 <= RN (inject_Z c / inject_Z n) * 100 <= inject_Z 100)%Q).
    { change (inject_Z 100) with 100%Q. split; lra. }
    destruct (float_result_unit _ 100 ltac:(lia) U2) as [E2 [P0 P1]].
    rewrite E2. cbn [bind]. eexists. split; [reflexivity|].
    cbn [num_val]. change (inject_Z 100) with 100%Q in P1. split; [split; assumption|].
    intros _. reflexivity.
  - exists (PyInt 0). split; [reflexivity|]. split.
    + cbn [num_val]. change (inject_Z 0) with 0%Q. split; lra.
    + intros N. rewrite Z.gtb_ltb in G. apply Z.ltb_ge in G. lia.
Qed.

Lemma score_entry_total session tq all_answers participant :
  valid_datetime (question_start_time_of session) = true ->
  forallb scorable all_answers = true ->
  exists e, score_entry session tq all_answers participant = Ok e
            /\ entry_student_id e = participant_student_id participant.
Proof.
  intros Hq Hs. unfold score_entry.
  set (sa := student_answers_of all_answers (participant_student_id participant)).
  assert (Hsa : forallb scorable sa = true) by (apply forallb_filter, Hs).
  destruct (tally_total session sa 0 0 Hq Hsa) as (tp & cc & E).
  rewrite E. cbn [bind snd fst].
  pose proof (tally_bounds _ _ _ _ _ _ E) as B.
  destruct (percent_of_total cc (Z.of_nat (List.length sa)) ltac:(lia)) as (v & Ev & _).
  rewrite Ev. cbn [bind]. eexists. split; reflexivity.
Qed.

Lemma dict_set_fresh {V} k (v : V) d :
  ~ In k (map fst d) -> dict_set k v d = d ++ [(k, v)].
Proof.
  induction d as [|[k' v'] d IH]; simpl; [reflexivity|].
  intros H. destruct (k' =? k) eqn:E.
  - apply Z.eqb_eq in E. exfalso. apply H. left. exact E.
  - rewrite IH; [reflexivity|]. intros C. apply H. right. exact C.
Qed.

(** With distinct student ids every participant adds one dict entry. *)
Lemma student_scores_distinct session tq all_answers participants :
  forall scores : list (Z * ScoreEntry),
  valid_datetime (question_start_time_of session) = true ->
  forallb scorable all_answers = true ->
  NoDup (map fst scores ++ map (fun p : ParticipantObj => participant_student_id p) participants) ->
  exists es : list (Z * ScoreEntry),
    student_scores session tq all_answers participants scores = Ok (scores ++ es)
    /\ map (fun ke => entry_student_id (snd ke)) es
       = map (fun p : ParticipantObj => participant_student_id p) participants.
Proof.
  induction participants as [|p rest IH]; intros scores Hq Hs Hd; simpl.
  - exists []. rewrite app_nil_r. split; reflexivity.
  - destruct (score_entry_total session tq all_answers p Hq Hs) as (e & E & Eid).
    rewrite E. cbn [bind].
    simpl in Hd.
    assert (Fresh : ~ In (participant_student_id p) (map fst scores)).
    { apply NoDup_remove_2 in Hd. intros C. apply Hd. apply in_or_app. left. exact C. }
    rewrite (dict_set_fresh _ _ _ Fresh).
    destruct (IH (scores ++ [(participant_student_id p, e)]) Hq Hs) as (es & Ees & Ids).
    + rewrite map_app. simpl. rewrite <- app_assoc. simpl. exact Hd.
    + exists ((participant_student_id p, e) :: es). split.
      * etransitivity; [exact Ees|]. rewrite <- app_assoc. reflexivity.
      * simpl. rewrite Eid, Ids. reflexivity.
Qed.

Lemma in_order_key_ge a b : in_order key_gt a b <-> key_ge a b.
Proof.
  unfold in_order, key_gt, key_ge, num_ltb.
  destruct (total_points b =? total_points a) eqn:E.
  - apply Z.eqb_eq in E. rewrite Qlt_bool_false. split.
    + intros H. right. split; [symmetry; exact E | exact H].
    + intros [H | [_ H]]; [lia | exact H].
  - apply Z.eqb_neq in E. rewrite Z.ltb_ge. split.
    + intros H. left. lia.
    + intros [H | [H _]]; [lia | congruence].
Qed.

Lemma key_ge_trans a b c : key_ge a b -> key_ge b c -> key_ge a c.
Proof.
  unfold key_ge. intros [H1 | [H1 Q1]] [H2 | [H2 Q2]].
  - left. lia.
  - left. lia.
  - left. lia.
  - right. split; [lia|]. eapply Qle_trans; eassumption.
Qed.

Lemma key_gt_asym x y : key_gt x y = true -> key_gt y x = false.
Proof.
  unfold key_gt, num_ltb. rewrite (Z.eqb_sym (total_points y)).
  destruct (total_points x =? total_points y) eqn:E.
  - rewrite Qlt_bool_iff, Qlt_bool_false. intros H. apply Qlt_le_weak, H.
  - rewrite Z.ltb_lt, Z.ltb_ge. lia.
Qed.

Lemma key_gt_negtrans x y z :
  key_gt y x = false -> key_gt z y = false -> key_gt z x = false.
Proof.
  intros H1 H2. apply in_order_key_ge. apply (key_ge_trans x y z); apply in_order_key_ge; assumption.
Qed.

Lemma leaderboard_sorted l : StronglySorted key_ge (sort_by key_gt l).
Proof.
  eapply SortFacts.StronglySorted_weaken;
    [| apply (sort_by_sorted key_gt key_gt_asym key_gt_negtrans)].
  intros a b. apply in_order_key_ge.
Qed.

Lemma enumerate_fst {A} (l : list A) : forall k,
  map fst (enumerate k l) = map (fun i => k + Z.of_nat i) (seq 0 (List.length l)).
Proof.
  induction l as [|x l IH]; intros k; simpl; [reflexivity|].
  rewrite Z.add_0_r. f_equal. rewrite IH, <- seq_shift, map_map.
  apply map_ext. intros i. lia.
Qed.

Lemma enumerate_snd {A} (l : list A) : forall k, map snd (enumerate k l) = l.
Proof.
  induction l as [|x l IH]; intros k; simpl; [reflexivity|]. now rewrite IH.
Qed.

Lemma add_ranks_rank l :
  map rank (add_ranks l) = map Z.of_nat (seq 1 (List.length l)).
Proof.
  unfold add_ranks. rewrite map_map. cbn [rank].
  change (map (fun x : Z * ScoreEntry => fst x) (enumerate 1 l)) with (map fst (enumerate 1 l)).
  rewrite enumerate_fst, <- seq_shift, map_map.
  apply map_ext. intros i. lia.
Qed.

Lemma add_ranks_entry l : map entry (add_ranks l) = l.
Proof.
  unfold add_ranks. rewrite map_map. cbn [entry].
  change (map (fun x : Z * ScoreEntry => snd x) (enumerate 1 l)) with (map snd (enumerate 1 l)).
  apply enumerate_snd.
Qed.

End LeaderboardFacts.

(** ** Cleared answers *)

Module NullAnswerFacts.
Import Float64 Float64Facts ArithFacts ScoringFacts ScoringService LeaderboardFacts.
Local Open Scope Z_scope.

Lemma tally_skip_null session a0 l2 : forall l1 tp cc,
  selected_option a0 = None ->
  tally session (l1 ++ a0 :: l2) tp cc = tally session (l1 ++ l2) tp cc.
Proof.
  induction l1 as [|a l1 IH]; intros tp cc H0; simpl.
  - unfold calculate_answer_score, answered_correctly. rewrite H0. cbn [bind].
    rewrite Z.add_0_r. reflexivity.
  - destruct (calculate_answer_score a _ _); cbn [bind]; [|reflexivity].
    apply IH, H0.
Qed.

Lemma student_answers_of_app l1 l2 sid :
  student_answers_of (l1 ++ l2) sid = student_answers_of l1 sid ++ student_answers_of l2 sid.
Proof.
  apply filter_app.
Qed.

Lemma student_answers_of_insert l1 l2 (a0 : AnswerObj) sid :
  answer_student_id a0 = sid ->
  student_answers_of (l1 ++ a0 :: l2) sid
  = student_answers_of l1 sid ++ a0 :: student_answers_of l2 sid.
Proof.
  intros H. unfold student_answers_of. rewrite filter_app. simpl.
  rewrite H, Z.eqb_refl. reflexivity.
Qed.

Lemma py_round1_mono x y : (x <= y)%Q -> (py_round1 x <= py_round1 y)%Q.
Proof.
  intros H. unfold py_round1. apply RN_mono.
  apply Qmult_le_compat_r; [|discriminate].
  rewrite <- Zle_Qle. apply rhe_mono. lra.
Qed.

Lemma percent_float_mono c n :
  0 <= c -> 0 < n ->
  (py_round1 (RN (RN (inject_Z c / inject_Z (n + 1)) * 100))
   <= py_round1 (RN (RN (inject_Z c / inject_Z n) * 100)))%Q.
Proof.
  intros Hc Hn. apply py_round1_mono, RN_mono.
  apply Qmult_le_compat_r; [|discriminate]. apply RN_mono.
  assert (Pn : (0 < inject_Z n)%Q) by (change 0%Q with (inject_Z 0); rewrite <- Zlt_Qlt; lia).
  assert (Pn1 : (0 < inject_Z (n + 1))%Q) by (change 0%Q with (inject_Z 0); rewrite <- Zlt_Qlt; lia).
  assert (Pc : (0 <= inject_Z c)%Q) by (change 0%Q with (inject_Z 0); rewrite <- Zle_Qle; lia).
  apply Qle_shift_div_r; [exact Pn1|].
  assert (E : (inject_Z c / inject_Z n * inject_Z (n + 1)
               == inject_Z c + inject_Z c / inject_Z n)%Q).
  { rewrite inject_Z_plus. change (inject_Z 1) with 1%Q. field. lra. }
  rewrite E.
  assert (Q0 : (0 <= inject_Z c / inject_Z n)%Q) by (apply Qle_shift_div_l; lra).
  lra.
Qed.

(** Adding one answered question never raises the percentage. *)
Lemma percent_of_next c n v :
  0 <= c <= n -> percent_of c n = Ok v ->
  exists v', percent_of c (n + 1) = Ok v'
    /\ (num_val (round1 v') <= num_val (round1 v))%Q.
Proof.
  intros Hc E.
  destruct (percent_of_total c (n + 1) ltac:(lia)) as (v' & E' & _ & F').
  specialize (F' ltac:(lia)).
  exists v'. split; [exact E'|].
  destruct (percent_of_total c n Hc) as (v0 & E0 & _ & F0).
  rewrite E in E0. injection E0 as <-.
  destruct (Z.eq_dec n 0) as [-> | Nn].
  - assert (c = 0) by lia. subst c. subst v'.
    unfold percent_of in E. simpl in E. injection E as <-.
    apply Qle_bool_iff. vm_compute. reflexivity.
  - rewrite F', (F0 ltac:(lia)). cbn [round1 num_val].
    apply percent_float_mono; lia.
Qed.

(** For up to 33 answers, one of them correct, the displayed percentage
    strictly drops. *)
Lemma percent_small_strict_check :
  forallb (fun n =>
    forallb (fun c =>
      Qlt_bool
        (py_round1 (RN (RN (inject_Z (Z.of_nat c) / inject_Z (Z.of_nat n + 1)) * 100)))
        (py_round1 (RN (RN (inject_Z (Z.of_nat c) / inject_Z (Z.of_nat n)) * 100))))
      (seq 1 n))
    (seq 1 33) = true.
Proof.
  vm_compute. reflexivity.
Qed.

Lemma percent_small_strict c n v v' :
  1 <= c <= n -> n <= 33 ->
  percent_of c n = Ok v -> percent_of c (n + 1) = Ok v' ->
  (num_val (round1 v') < num_val (round1 v))%Q.
Proof.
  intros Hc Hn E E'.
  destruct (percent_of_total c n ltac:(lia)) as (v0 & E0 & _ & F0).
  destruct (percent_of_total c (n + 1) ltac:(lia)) as (v1 & E1 & _ & F1).
  rewrite E in E0. injection E0 as <-. rewrite E' in E1. injection E1 as <-.
  rewrite (F0 ltac:(lia)), (F1 ltac:(lia)). cbn [round1 num_val].
  pose proof percent_small_strict_check as K.
  rewrite forallb_forall in K. specialize (K (Z.to_nat n)).
  rewrite forallb_forall in K.
  specialize (K ltac:(apply in_seq; lia) (Z.to_nat c) ltac:(apply in_seq; lia)).
  rewrite !Z2Nat.id in K by lia. apply Qlt_bool_iff, K.
Qed.

Lemma dict_get_set {V} k k' (v : V) d :
  dict_get k (dict_set k' v d) = if k' =? k then Some v else dict_get k d.
Proof.
  induction d as [|[k0 v0] d IH]; simpl.
  - reflexivity.
  - destruct (k0 =? k') eqn:E; simpl.
    + apply Z.eqb_eq in E. subst k0. destruct (k' =? k); reflexivity.
    + destruct (k0 =? k) eqn:E2.
      * apply Z.eqb_eq in E2. subst k0. rewrite Z.eqb_sym, E. reflexivity.
      * exact IH.
Qed.

Lemma answer_map_skip_null a0 l2 : forall l1 m,
  selected_option a0 = None ->
  answer_map (l1 ++ a0 :: l2) m = answer_map (l1 ++ l2) m.
Proof.
  induction l1 as [|a l1 IH]; intros m H0; simpl.
  - rewrite H0. reflexivity.
  - destruct (selected_option a) as [o|]; [|apply IH, H0].
    destruct (py_chr _); cbn [bind]; [apply IH, H0 | reflexivity].
Qed.

(** A question for which every answer in the list is cleared has no entry
    in the answer map. *)
Lemma answer_map_absent k l : forall m0 m,
  dict_get k m0 = None ->
  (forall a : AnswerObj, In a l -> answer_question_id a = k -> selected_option a = None) ->
  answer_map l m0 = Ok m -> dict_get k m = None.
Proof.
  induction l as [|a l IH]; intros m0 m H0 Hn E; simpl in E.
  - injection E as <-. exact H0.
  - destruct (selected_option a) as [o|] eqn:So.
    + destruct (py_chr _) as [c|]; cbn [bind] in E; [|discriminate].
      apply (IH _ _) in E; [exact E | | intros b Hb; apply Hn; right; exact Hb].
      rewrite dict_get_set.
      destruct (answer_question_id a =? k) eqn:Ek; [|exact H0].
      apply Z.eqb_eq in Ek. rewrite (Hn a (or_introl eq_refl) Ek) in So. discriminate.
    + apply (IH _ _ H0) in E; [exact E|]. intros b Hb; apply Hn; right; exact Hb.
Qed.

End NullAnswerFacts.

(** ** Answer upsert *)

Module AnswerFacts.
Import ScoringDataAccess ListFacts.
Local Open Scope Z_scope.

Lemma overwrite_keeps_key s st q o now a :
  answer_key_matches s st q (overwrite_answer o now a) = answer_key_matches s st q a.
Proof.
  reflexivity.
Qed.

(** The rows of one key after a submission. *)
Lemma submit_answer_rows db now s st q o :
  filter (answer_key_matches s st q) (student_answers (fst (submit_answer db now s st q o)))
  = match filter (answer_key_matches s st q) (student_answers db) with
    | [] => [snd (submit_answer db now s st q o)]
    | _ :: rest => snd (submit_answer db now s st q o) :: rest
    end
  /\ answer_option_id (snd (submit_answer db now s st q o)) = o
  /\ submitted_at (snd (submit_answer db now s st q o)) = now
  /\ answer_key_matches s st q (snd (submit_answer db now s st q o)) = true.
Proof.
  unfold submit_answer, get_student_answer.
  rewrite find_filter_head.
  destruct (find (answer_key_matches s st q) (student_answers db)) as [existing|] eqn:F.
  - rewrite find_filter_head in F.
    destruct (filter (answer_key_matches s st q) (student_answers db)) as [|x rest] eqn:E;
      [discriminate|]. injection F as ->. simpl.
    assert (K : answer_key_matches s st q existing = true).
    { assert (I : In existing (filter (answer_key_matches s st q) (student_answers db)))
        by (rewrite E; left; reflexivity).
      apply filter_In in I. apply I. }
    rewrite update_first_filter by (intros; rewrite overwrite_keeps_key; assumption).
    rewrite E. repeat split. rewrite overwrite_keeps_key. exact K.
  - rewrite (find_none_filter _ _ F). simpl.
    rewrite filter_app, (find_none_filter _ _ F). simpl.
    unfold answer_key_matches at 1. simpl. rewrite !Z.eqb_refl. simpl.
    repeat split. unfold answer_key_matches. simpl. rewrite !Z.eqb_refl. reflexivity.
Qed.

(** Rows of other keys are left alone. *)
Lemma submit_answer_other_rows db now s st q o s' st' q' :
  (s', st', q') <> (s, st, q) ->
  filter (answer_key_matches s' st' q') (student_answers (fst (submit_answer db now s st q o)))
  = filter (answer_key_matches s' st' q') (student_answers db).
Proof.
  intros N. unfold submit_answer, get_student_answer.
  assert (D : forall a, answer_key_matches s st q a = true -> answer_key_matches s' st' q' a = false).
  { intros a H. unfold answer_key_matches in *.
    apply andb_prop in H. destruct H as [H H3]. apply andb_prop in H. destruct H as [H1 H2].
    apply Z.eqb_eq in H1, H2, H3. rewrite H1, H2, H3.
    destruct (s =? s') eqn:E1; destruct (st =? st') eqn:E2; destruct (q =? q') eqn:E3;
      try reflexivity.
    apply Z.eqb_eq in E1, E2, E3. subst. contradiction. }
  destruct (find _ _) as [existing|] eqn:F; simpl.
  - apply update_first_filter_other. intros x Hx. split.
    + apply D, Hx.
    + apply D. rewrite overwrite_keeps_key. exact Hx.
  - rewrite filter_app. simpl.
    rewrite (D _) by (unfold answer_key_matches; simpl; rewrite !Z.eqb_refl; reflexivity).
    apply app_nil_r.
Qed.

End AnswerFacts.

(** ** Session lifecycle *)

Module SessionFacts.
Import SessionDataAccess QuestionDataAccess ParticipantDataAccess SessionService ListFacts SortFacts.
Local Open Scope Z_scope.

Lemma index_of_range qid qs k :
  index_of qid qs k = -1 \/ k <= index_of qid qs k < k + Z.of_nat (List.length qs).
Proof.
  revert k. induction qs as [|q qs IH]; intros k; simpl; [left; reflexivity|].
  destruct (question_id q =? qid); [right; lia|].
  destruct (IH (k + 1)) as [H|H]; [left; exact H | right; lia].
Qed.

(** The search returns the last position when only the last question has
    the id looked for. *)
Lemma index_of_last qid init q k :
  question_id q = qid -> (forall q', In q' init -> question_id q' <> qid) ->
  index_of qid (init ++ [q]) k = k + Z.of_nat (List.length init).
Proof.
  intros Hq. revert k. induction init as [|x init IH]; intros k Hn; simpl.
  - rewrite Hq, Z.eqb_refl. lia.
  - destruct (question_id x =? qid) eqn:E.
    + apply Z.eqb_eq in E. exfalso. apply (Hn x); [left; reflexivity | exact E].
    + rewrite IH by (intros q' Hq'; apply Hn; right; exact Hq'). lia.
Qed.

Lemma index_of_nth qid qs k :
  index_of qid qs k <> -1 -> 0 <= k ->
  exists p, nth_error qs (Z.to_nat (index_of qid qs k - k)) = Some p /\ question_id p = qid.
Proof.
  revert k. induction qs as [|q qs IH]; intros k H Hk; simpl in *; [contradiction|].
  destruct (question_id q =? qid) eqn:E.
  - exists q. rewrite Z.sub_diag. split; [reflexivity | apply Z.eqb_eq, E].
  - destruct (IH (k + 1) H ltac:(lia)) as (p & Hp & Hid). exists p. split; [|exact Hid].
    destruct (index_of_range qid qs (k + 1)) as [R|R]; [contradiction|].
    replace (Z.to_nat (index_of qid qs (k + 1) - k))
      with (S (Z.to_nat (index_of qid qs (k + 1) - (k + 1)))) by lia.
    exact Hp.
Qed.

(** What [next_question] does, by the position of the next question only. *)
Lemma next_question_cases db sid session :
  get_session_by_id db sid = Some session ->
  let qs := get_questions_by_quiz db (quiz_id session) in
  let next_idx := current_index session qs + 1 in
  match nth_error qs (Z.to_nat next_idx) with
  | Some next =>
    next_question db sid
    = (fst (update_current_question db sid (question_id next)),
       {| success := true; message := None; payload := Some next |})
  | None => next_question db sid = (db, failure "No more questions")
  end.
Proof.
  intros Hs qs next_idx. unfold next_question. rewrite Hs. fold qs. fold next_idx.
  assert (R : 0 <= next_idx).
  { unfold next_idx, current_index. destruct (current_question_id session) as [c|]; [|lia].
    destruct (index_of_range c qs 0); lia. }
  destruct (next_idx >=? Z.of_nat (List.length qs)) eqn:G.
  - assert (N : nth_error qs (Z.to_nat next_idx) = None).
    { apply nth_error_None. apply Z.geb_le in G. lia. }
    rewrite N. reflexivity.
  - destruct (nth_error qs (Z.to_nat next_idx)); reflexivity.
Qed.

Lemma get_after_update_current db sid qid session :
  get_session_by_id db sid = Some session ->
  get_session_by_id (fst (update_current_question db sid qid)) sid
  = Some (set_current_question qid session).
Proof.
  intros H. unfold update_current_question. rewrite H. simpl.
  unfold get_session_by_id in *. simpl.
  rewrite find_update_first by reflexivity. rewrite H. reflexivity.
Qed.

Lemma get_after_update_status db now sid st session :
  get_session_by_id db sid = Some session ->
  get_session_by_id (fst (update_status db now sid st)) sid
  = Some (set_status st now session).
Proof.
  intros H. unfold update_status. rewrite H. simpl.
  unfold get_session_by_id in *. simpl.
  rewrite find_update_first by reflexivity. rewrite H. reflexivity.
Qed.

Lemma questions_after_update_current db sid qid quiz :
  get_questions_by_quiz (fst (update_current_question db sid qid)) quiz
  = get_questions_by_quiz db quiz.
Proof.
  unfold update_current_question. destruct (get_session_by_id db sid); reflexivity.
Qed.

Lemma questions_after_update_status db now sid st quiz :
  get_questions_by_quiz (fst (update_status db now sid st)) quiz
  = get_questions_by_quiz db quiz.
Proof.
  unfold update_status. destruct (get_session_by_id db sid); reflexivity.
Qed.

(** With distinct ids the search finds a question at its own position. *)
Lemma index_of_nth_error qs n q k :
  NoDup (map question_id qs) -> nth_error qs n = Some q ->
  index_of (question_id q) qs k = k + Z.of_nat n.
Proof.
  revert n k. induction qs as [|x qs IH]; intros n k Hd Hn; [destruct n; discriminate|].
  simpl in Hd. inversion Hd as [|? ? Hnot Hd']; subst. destruct n as [|n]; simpl in *.
  - injection Hn as ->. rewrite Z.eqb_refl. lia.
  - destruct (question_id x =? question_id q) eqn:E.
    + apply Z.eqb_eq in E. exfalso. apply Hnot. rewrite E.
      apply in_map, (nth_error_In _ _ Hn).
    + rewrite (IH n (k + 1) Hd' Hn). lia.
Qed.

Lemma quiz_questions_NoDup db quiz :
  NoDup (map question_id (questions db)) ->
  NoDup (map question_id (get_questions_by_quiz db quiz)).
Proof.
  intros H. unfold get_questions_by_quiz.
  eapply Permutation_NoDup.
  - apply Permutation_map. symmetry. apply sort_by_perm.
  - apply NoDup_map_filter, H.
Qed.

Lemma quiz_questions_sorted db quiz :
  StronglySorted (fun a b => question_order a <= question_order b)
                 (get_questions_by_quiz db quiz).
Proof.
  unfold get_questions_by_quiz.
  eapply StronglySorted_weaken;
    [| apply (sort_by_sorted order_before)].
  - intros a b H. unfold in_order, order_before in H. apply Z.ltb_ge in H. exact H.
  - intros x y H. unfold order_before in *. apply Z.ltb_lt in H. apply Z.ltb_ge. lia.
  - intros x y z H1 H2. unfold order_before in *. apply Z.ltb_ge in H1, H2. apply Z.ltb_ge. lia.
Qed.

(** One successful step of [next_question] moves the pointer one position
    forward. *)
Lemma next_question_step db sid :
  NoDup (map question_id (questions db)) ->
  pointer_index db sid <= pointer_index (fst (next_question db sid)) sid.
Proof.
  intros Hd. unfold pointer_index at 1.
  destruct (get_session_by_id db sid) as [session|] eqn:Hs.
  - pose proof (next_question_cases db sid session Hs) as C. cbv zeta in C.
    set (qs := get_questions_by_quiz db (quiz_id session)) in *.
    destruct (nth_error qs (Z.to_nat (current_index session qs + 1))) as [next|] eqn:N.
    + rewrite C. simpl fst. unfold pointer_index.
      rewrite (get_after_update_current db sid _ session Hs).
      rewrite questions_after_update_current. simpl quiz_id. fold qs.
      unfold current_index at 2. simpl current_question_id. cbv iota.
      rewrite (index_of_nth_error qs _ next 0 (quiz_questions_NoDup db _ Hd) N).
      assert (R : -1 <= current_index session qs).
      { unfold current_index. destruct (current_question_id session) as [c|]; [|lia].
        destruct (index_of_range c qs 0); lia. }
      lia.
    + rewrite C. simpl fst. unfold pointer_index. rewrite Hs. fold qs. lia.
  - unfold next_question. rewrite Hs. simpl. unfold pointer_index. rewrite Hs. lia.
Qed.

Lemma end_session_step db now sid :
  pointer_index (fst (end_session db now sid)) sid = pointer_index db sid.
Proof.
  unfold end_session, pointer_index.
  destruct (get_session_by_id db sid) as [session|] eqn:Hs.
  - rewrite (get_after_update_status db now sid CLOSED session Hs).
    rewrite questions_after_update_status. reflexivity.
  - unfold update_status. rewrite Hs. simpl. rewrite Hs. reflexivity.
Qed.

Lemma run_command_questions sid db c : questions (run_command sid db c) = questions db.
Proof.
  destruct c as [now| |now]; simpl.
  - unfold start_session. destruct (get_session_by_id db sid) as [s|]; [|reflexivity].
    destruct (get_questions_by_quiz db (quiz_id s)); [reflexivity|]. simpl.
    unfold update_current_question, update_status.
    destruct (get_session_by_id db sid); simpl;
      destruct (get_session_by_id _ sid); reflexivity.
  - unfold next_question. destruct (get_session_by_id db sid) as [s|] eqn:Hs; [|reflexivity].
    destruct (_ >=? _); [reflexivity|].
    destruct (nth_error _ _); [|reflexivity]. simpl.
    unfold update_current_question. rewrite Hs. reflexivity.
  - unfold end_session, update_status. destruct (get_session_by_id db sid); reflexivity.
Qed.

Lemma run_commands_forward sid cs : forall db,
  NoDup (map question_id (questions db)) ->
  Forall (fun c => is_start c = false) cs ->
  pointer_index db sid <= pointer_index (run_commands sid db cs) sid.
Proof.
  induction cs as [|c cs IH]; intros db Hd Hc; [simpl; lia|].
  inversion Hc as [|? ? H1 H2]; subst.
  assert (S1 : pointer_index db sid <= pointer_index (run_command sid db c) sid).
  { destruct c as [now| |now]; [discriminate | |].
    - apply next_question_step, Hd.
    - unfold run_command. rewrite end_session_step. lia. }
  assert (Hd' : NoDup (map question_id (questions (run_command sid db c))))
    by (rewrite run_command_questions; exact Hd).
  specialize (IH (run_command sid db c) Hd' H2).
  change (run_commands sid db (c :: cs)) with (run_commands sid (run_command sid db c) cs).
  lia.
Qed.

End SessionFacts.

(** ** Joining *)

Module JoinFacts.
Import SessionDataAccess ParticipantDataAccess SessionService ListFacts.
Local Open Scope Z_scope.

Lemma add_participant_rows db now sid student :
  session_participants (fst (add_participant db now sid student))
  = session_participants db
    ++ [{| participant_session_id := sid; participant_student_id := student;
           joined_at := now |}].
Proof.
  reflexivity.
Qed.

Lemma add_participant_count db now sid student :
  get_participant_count (fst (add_participant db now sid student)) sid
  = S (get_participant_count db sid).
Proof.
  unfold get_participant_count, get_participants_by_session. simpl.
  rewrite filter_app, length_app. simpl. rewrite Z.eqb_refl. simpl. lia.
Qed.

Lemma add_participant_is_participant db now sid student :
  is_participant (fst (add_participant db now sid student)) sid student = true.
Proof.
  unfold is_participant, get_participant. simpl.
  destruct (find _ (session_participants db ++ _)) eqn:F; [reflexivity|].
  pose proof (find_none _ _ F
    {| participant_session_id := sid; participant_student_id := student;
       joined_at := now |}) as C.
  unfold is_row in C. simpl in C. rewrite !Z.eqb_refl in C.
  simpl in C. discriminate C. apply in_or_app. right. left. reflexivity.
Qed.

End JoinFacts.

(** ** Session codes *)

Module CodeFacts.
Import SessionCode.

Lemma attempt_loop_exhausted rc ce n : forall a chk,
  (forall j, (j < n)%nat -> ce (rc (a + j)%nat) = true) ->
  attempt_loop rc ce n a chk = (Raise exhausted, chk ++ map rc (seq a n)).
Proof.
  induction n as [|n IH]; intros a chk H; simpl.
  - rewrite app_nil_r. reflexivity.
  - pose proof (H 0%nat ltac:(lia)) as H0. rewrite Nat.add_0_r in H0. rewrite H0. simpl.
    rewrite IH.
    + rewrite <- app_assoc. reflexivity.
    + intros j Hj. replace (S a + j)%nat with (a + S j)%nat by lia. apply H. lia.
Qed.

Lemma attempt_loop_first_free rc ce n : forall a chk k,
  (k < n)%nat -> ce (rc (a + k)%nat) = false ->
  (forall j, (j < k)%nat -> ce (rc (a + j)%nat) = true) ->
  attempt_loop rc ce n a chk = (Ok (rc (a + k)%nat), chk ++ map rc (seq a (S k))).
Proof.
  induction n as [|n IH]; intros a chk k Hk Hf Hb; [lia|]. simpl.
  destruct k as [|k].
  - rewrite Nat.add_0_r in *. rewrite Hf. reflexivity.
  - pose proof (Hb 0%nat ltac:(lia)) as H0. rewrite Nat.add_0_r in H0. rewrite H0. simpl.
    rewrite (IH (S a) _ k).
    + replace (S a + k)%nat with (a + S k)%nat by lia.
      rewrite <- app_assoc. reflexivity.
    + lia.
    + replace (S a + k)%nat with (a + S k)%nat by lia. exact Hf.
    + intros j Hj. replace (S a + j)%nat with (a + S j)%nat by lia. apply Hb. lia.
Qed.

(** The loop either finds the first free code or checks all [n] draws. *)
Lemma attempt_loop_cases (rc : nat -> string) (ce : string -> bool) n : forall a,
  (forall j, (j < n)%nat -> ce (rc (a + j)%nat) = true)
  \/ exists k, (k < n)%nat /\ ce (rc (a + k)%nat) = false
               /\ forall j, (j < k)%nat -> ce (rc (a + j)%nat) = true.
Proof.
  induction n as [|n IH]; intros a; [left; intros; lia|].
  destruct (ce (rc a)) eqn:E.
  - destruct (IH (S a)) as [H | (k & Hk & Hf & Hb)].
    + left. intros [|j] Hj; [rewrite Nat.add_0_r; exact E|].
      replace (a + S j)%nat with (S a + j)%nat by lia. apply H. lia.
    + right. exists (S k). split; [lia|]. split.
      * replace (a + S k)%nat with (S a + k)%nat by lia. exact Hf.
      * intros [|j] Hj; [rewrite Nat.add_0_r; exact E|].
        replace (a + S j)%nat with (S a + j)%nat by lia. apply Hb. lia.
  - right. exists 0%nat. split; [lia|]. split; [rewrite Nat.add_0_r; exact E|].
    intros; lia.
Qed.

End CodeFacts.

(** ** Uniqueness invariants *)

Module InvariantFacts.
Import ScoringDataAccess SessionDataAccess ParticipantDataAccess SessionService ListFacts.
Local Open Scope Z_scope.

(** Submissions keep at most one row per key. *)
Lemma submit_answer_keeps_unique db now s st q o :
  (forall s' st' q', (count_rows db s' st' q' <= 1)%nat) ->
  forall s' st' q', (count_rows (fst (submit_answer db now s st q o)) s' st' q' <= 1)%nat.
Proof.
  intros H s' st' q'. unfold count_rows.
  destruct (Z.eq_dec s' s) as [Es|Ns]; [destruct (Z.eq_dec st' st) as [Et|Nt];
    [destruct (Z.eq_dec q' q) as [Eq|Nq]|]|].
  - subst. destruct (AnswerFacts.submit_answer_rows db now s st q o) as [R _].
    rewrite R. specialize (H s st q). unfold count_rows in H.
    destruct (filter _ (student_answers db)) as [|x rest]; simpl in *; lia.
  - rewrite AnswerFacts.submit_answer_other_rows by congruence. apply H.
  - rewrite AnswerFacts.submit_answer_other_rows by congruence. apply H.
  - rewrite AnswerFacts.submit_answer_other_rows by congruence. apply H.
Qed.

(** Joining keeps at most one participant row per (session, student). *)
Lemma join_session_keeps_unique db now code student :
  (forall s t, (List.length (filter (is_row s t) (session_participants db)) <= 1)%nat) ->
  forall s t,
    (List.length (filter (is_row s t)
                   (session_participants (fst (join_session db now code student)))) <= 1)%nat.
Proof.
  intros H s t. unfold join_session.
  destruct (get_session_by_code db code) as [session|]; [|apply H].
  destruct (SessionStatus_eqb (status session) CLOSED); [apply H|].
  destruct (is_participant db (session_id session) student) eqn:P; [apply H|].
  cbn [fst]. rewrite JoinFacts.add_participant_rows, filter_app, length_app. simpl.
  destruct (is_row s t _) eqn:E; simpl; [|specialize (H s t); lia].
  unfold is_row in E. simpl in E. apply andb_prop in E. destruct E as [E1 E2].
  apply Z.eqb_eq in E1, E2. subst s t.
  unfold is_participant, get_participant in P.
  destruct (find _ _) eqn:F; [discriminate|].
  rewrite (find_none_filter _ _ F). simpl. lia.
Qed.

End InvariantFacts.

(* ================================================================== *)
(** * The properties C1 to C10 of the specification *)
(* ================================================================== *)

Import ScoringService ScoringDataAccess.
Import SessionDataAccess QuestionDataAccess ParticipantDataAccess SessionService.
Import SessionCode.
Local Open Scope Z_scope.

(** C1 fails as stated: five seconds into a 30 s limit the formula gives
    [1000 - floor(5 / 30 * 1000 * 0.3) = 1000 - 50 = 950], but the code
    returns 951: its product of doubles is 49.99..., which [int] truncates
    to 49. *)
Lemma score_differs_from_exact_formula :
  let answer := Example.answer_of 7 Example.q1 (Some Example.option_a)
                  (Example.t0 + 5000000) in
  answered_correctly answer = true
  /\ calculate_answer_score answer Example.t0 30 = Ok 951
  /\ ScoringSpec.score (submitted_at answer) Example.t0 30 = 950.
Proof.
  cbv zeta. split; [reflexivity|]. split; vm_compute; reflexivity.
Qed.

(** C1, amended.  An answer without a selected option, or whose option is
    not the correct one, scores 0.  A correct answer scores
    [max(0, 1000 - int((elapsed / time_limit) * 1000 * 0.3))] with
    [elapsed = clamp(submitted_at - question_start_time, 0, time_limit)] in
    seconds, every operation rounded to a double as Python does
    ([FloatScore.score]).  That score is within one point of the formula
    evaluated in exact arithmetic ([ScoringSpec.score]), lies in
    [700, 1000], and agrees with the exact formula at both ends: 1000 for an
    answer stamped at or before the start, 700 for one stamped at or after
    the limit.  [time_limit] ranges over the positive values of the Integer
    column (any int below 2^53 converts to a double exactly). *)
Theorem calculate_answer_score_spec (answer : AnswerObj) (start : datetime) (tl : Z) :
  (answered_correctly answer = false ->
   calculate_answer_score answer start tl = Ok 0)
  /\
  (answered_correctly answer = true ->
   1 <= tl < 2 ^ 53 ->
   valid_datetime (submitted_at answer) = true -> valid_datetime start = true ->
   let exact := ScoringSpec.score (submitted_at answer) start tl in
   let score := FloatScore.score (submitted_at answer) start tl in
   let elapsed := FloatScore.elapsed (submitted_at answer) start tl in
   calculate_answer_score answer start tl = Ok score
   /\ exact - 1 <= score <= exact + 1
   /\ 0 <= score <= 1000 /\ 700 <= score
   /\ 700 <= exact <= 1000
   /\ ((elapsed == 0)%Q -> score = 1000)
   /\ ((elapsed == inject_Z tl)%Q -> score = 700)
   /\ (submitted_at answer <= start -> score = 1000 /\ exact = 1000)
   /\ (start + tl * 1000000 <= submitted_at answer -> score = 700 /\ exact = 700)).
Proof.
  split.
  - apply ScoringFacts.score_incorrect.
  - intros Hc Ht Hs Hq exact score elapsed.
    destruct (ScoringFacts.answered_correctly_inv answer Hc) as (o & So & Co).
    destruct (ScoringFacts.score_correct_eval answer o start tl So Co Ht Hs Hq) as [E B].
    fold score in B.
    destruct (ExactScoreFacts.score_near_exact (submitted_at answer) start tl Ht) as [N X].
    fold score exact in N. fold exact in X.
    split; [exact E|]. split; [exact N|]. split; [lia|]. split; [lia|]. split; [exact X|].
    split; [|split; [|split]].
    + apply ScoringFacts.score_at_zero. lia.
    + apply ScoringFacts.score_at_limit. lia.
    + intros H. split.
      * apply ScoringFacts.score_at_zero; [lia|].
        apply ScoringFacts.elapsed_zero; [lia | exact H].
      * apply ExactScoreFacts.exact_score_at_zero; [lia | exact H].
    + intros H. split.
      * apply ScoringFacts.score_at_limit; [lia|].
        apply ScoringFacts.elapsed_limit; [exact Ht | exact H].
      * apply ExactScoreFacts.exact_score_at_limit; [lia | exact H].
Qed.

Lemma calculate_answer_score_spec_witness :
  calculate_answer_score Example.answer1 Example.t0 30 = Ok 970
  /\ (ScoringSpec.score (submitted_at Example.answer1) Example.t0 30 - 1 <= 970
      <= ScoringSpec.score (submitted_at Example.answer1) Example.t0 30 + 1)
  /\ calculate_answer_score Example.answer2 Example.t0 30 = Ok 0.
Proof.
  destruct (calculate_answer_score_spec Example.answer1 Example.t0 30) as [_ H1].
  destruct (calculate_answer_score_spec Example.answer2 Example.t0 30) as [H2 _].
  destruct H1 as (E & N & _); [reflexivity | lia | reflexivity | reflexivity |].
  assert (FloatScore.score (submitted_at Example.answer1) Example.t0 30 = 970) as V
    by (vm_compute; reflexivity).
  rewrite V in E, N.
  split; [exact E|]. split; [exact N|]. apply H2. reflexivity.
Defined.

(** The floor is taken of the double product, which can lie just below the
    exact value: 0.7 s into a 10 s limit the product is 20.999..., the
    penalty 20 and the score 980, where exact arithmetic gives 21 and 979. *)
Remark score_uses_double_rounding :
  calculate_answer_score Example.answer1 (Example.t0 + 3000000 - 700000) 10 = Ok 980
  /\ ScoringSpec.score (submitted_at Example.answer1) (Example.t0 + 3000000 - 700000) 10
     = 979.
Proof.
  split; vm_compute; reflexivity.
Qed.

(** C2 fails as stated: starting a session that has already
    advanced puts the current-question pointer back on the first question. *)
Lemma start_session_resets_pointer :
  let db2 := run_commands 5 Example.store0 [Start Example.t0; Next] in
  let db3 := run_commands 5 Example.store0 [Start Example.t0; Next; Start Example.t0] in
  pointer_index db2 5 = 1 /\ pointer_index db3 5 = 0
  /\ option_map current_question_id (get_session_by_id db2 5) = Some (Some 12)
  /\ option_map current_question_id (get_session_by_id db3 5) = Some (Some 11).
Proof.
  repeat split.
Qed.

(** C2, amended.  With distinct question ids, no sequence of [next_question]
    and [end_session] calls ever moves the current-question pointer to an
    earlier position of the quiz's question order, and when the question
    orders of the quiz are distinct [next_question] returns a question whose
    order is strictly greater than that of the previous current question.
    [start_session], whenever it succeeds, places the pointer on the first
    question, whatever the session's status and pointer were. *)
Theorem pointer_only_advances (db : Store) (sid : uuid) :
  NoDup (map question_id (questions db)) ->
  (forall cs, Forall (fun c => is_start c = false) cs ->
     pointer_index db sid <= pointer_index (run_commands sid db cs) sid)
  /\ (forall session previous next,
        get_session_by_id db sid = Some session ->
        let qs := get_questions_by_quiz db (quiz_id session) in
        NoDup (map question_order qs) ->
        In previous qs -> current_question_id session = Some (question_id previous) ->
        payload (snd (next_question db sid)) = Some next ->
        question_order previous < question_order next)
  /\ (forall now, success (snd (start_session db now sid)) = true ->
        pointer_index (fst (start_session db now sid)) sid = 0).
Proof.
  intros Hd. split; [|split].
  - intros cs Hc. apply SessionFacts.run_commands_forward; assumption.
  - intros session previous next Hs qs Ho Hin Hc Hp.
    pose proof (SessionFacts.quiz_questions_NoDup db (quiz_id session) Hd) as Hq. fold qs in Hq.
    destruct (In_nth_error _ _ Hin) as [i Hi].
    assert (Ci : current_index session qs = Z.of_nat i).
    { unfold current_index. rewrite Hc.
      rewrite (SessionFacts.index_of_nth_error qs i previous 0 Hq Hi). lia. }
    pose proof (SessionFacts.next_question_cases db sid session Hs) as C. cbv zeta in C.
    fold qs in C. rewrite Ci in C.
    replace (Z.to_nat (Z.of_nat i + 1)) with (S i) in C by lia.
    destruct (nth_error qs (S i)) as [n|] eqn:N; rewrite C in Hp; simpl in Hp;
      [|discriminate]. injection Hp as ->.
    pose proof (SortFacts.StronglySorted_nth _ qs i (S i) previous next
                  (SessionFacts.quiz_questions_sorted db (quiz_id session)) Hi N
                  ltac:(lia)) as Hle.
    cbv beta in Hle.
    assert (Hne : question_order previous <> question_order next).
    { intros E. 
      assert (M1 : nth_error (map question_order qs) i = Some (question_order previous))
        by (rewrite nth_error_map, Hi; reflexivity).
      assert (M2 : nth_error (map question_order qs) (S i) = Some (question_order previous))
        by (rewrite nth_error_map, N, E; reflexivity).
      assert (L : (i < List.length (map question_order qs))%nat)
        by (apply nth_error_Some; rewrite M1; discriminate).
      pose proof (proj1 (NoDup_nth_error _) Ho i (S i) L
                    (eq_trans M1 (eq_sym M2))). lia. }
    lia.
  - intros now Hok. unfold start_session in *.
    destruct (get_session_by_id db sid) as [session|] eqn:Hs; [|discriminate].
    destruct (get_questions_by_quiz db (quiz_id session)) as [|first rest] eqn:Q;
      [discriminate|]. cbn [fst].
    unfold pointer_index.
    pose proof (SessionFacts.get_after_update_status db now sid ACTIVE session Hs) as G1.
    rewrite (SessionFacts.get_after_update_current _ sid _ _ G1).
    rewrite SessionFacts.questions_after_update_current,
            SessionFacts.questions_after_update_status.
    simpl quiz_id. rewrite Q. unfold current_index. simpl.
    rewrite Z.eqb_refl. reflexivity.
Qed.

Lemma pointer_only_advances_witness :
  pointer_index Example.store0 5
  <= pointer_index (run_commands 5 Example.store0 [Next; Next; End_ Example.t0; Next]) 5.
Proof.
  destruct (pointer_only_advances Example.store0 5) as [H _].
  - repeat constructor; simpl; intuition discriminate.
  - apply H. repeat constructor.
Defined.

(** C3 fails as stated: on a PENDING session [next_question]
    succeeds and moves the current-question pointer. *)
Lemma next_question_on_pending_session :
  get_session_by_id Example.store0 5 = Some Example.session_pending
  /\ status Example.session_pending = PENDING
  /\ current_question_id Example.session_pending = None
  /\ success (snd (next_question Example.store0 5)) = true
  /\ payload (snd (next_question Example.store0 5)) = Some Example.q1
  /\ option_map current_question_id
       (get_session_by_id (fst (next_question Example.store0 5)) 5) = Some (Some 11).
Proof.
  repeat split.
Qed.

(** C3, amended.  [next_question] never reads the status.  On an existing
    session in any status it advances to the question after the current one
    when there is one, and answers "No more questions" with the store
    untouched otherwise; it changes nothing of the session but the
    current-question pointer. *)
Theorem next_question_ignores_status (db : Store) (sid : uuid) (session : QuizSession) :
  get_session_by_id db sid = Some session ->
  let qs := get_questions_by_quiz db (quiz_id session) in
  let r := next_question db sid in
  match nth_error qs (Z.to_nat (current_index session qs + 1)) with
  | Some next =>
    snd r = {| success := true; message := None; payload := Some next |}
    /\ get_session_by_id (fst r) sid
       = Some (set_current_question (question_id next) session)
  | None => r = (db, failure "No more questions")
  end
  /\ (forall session', get_session_by_id (fst r) sid = Some session' ->
      status session' = status session
      /\ start_time session' = start_time session
      /\ end_time session' = end_time session).
Proof.
  intros Hs qs r.
  pose proof (SessionFacts.next_question_cases db sid session Hs) as C. cbv zeta in C.
  fold qs in C. fold r in C.
  destruct (nth_error qs (Z.to_nat (current_index session qs + 1))) as [next|].
  - rewrite C. cbn [fst snd].
    rewrite (SessionFacts.get_after_update_current db sid _ session Hs).
    split; [split; reflexivity|].
    intros s' E. injection E as <-. repeat split.
  - rewrite C. cbn [fst]. split; [reflexivity|].
    intros s' E. rewrite Hs in E. injection E as <-. repeat split.
Qed.

Lemma next_question_ignores_status_witness :
  snd (next_question Example.store0 5)
  = {| success := true; message := None; payload := Some Example.q1 |}.
Proof.
  destruct (next_question_ignores_status Example.store0 5 Example.session_pending eq_refl)
    as [H _].
  simpl in H. apply H.
Defined.

(** C4.  For a quiz without questions the leaderboard is empty.  For a quiz
    with at least one question and N participants (distinct students, the
    SessionParticipant invariant) whose answers are scorable, the leaderboard
    is returned, holds exactly one entry per participant, carries the ranks
    1, 2, ..., N in list order, and is sorted non-increasing in the
    lexicographic order on (total_points, percent_correct).  Whenever a
    leaderboard is returned at all it is sorted and ranked in this way. *)
Theorem calculate_leaderboard_ranking (session : QuizSession)
    (participants : list ParticipantObj) (questions : list Question)
    (all_answers : list AnswerObj) :
  (questions = [] ->
   calculate_leaderboard session participants questions all_answers = Ok [])
  /\ (questions <> [] ->
      NoDup (map (fun p : ParticipantObj => participant_student_id p) participants) ->
      valid_datetime (question_start_time_of session) = true ->
      forallb scorable all_answers = true ->
      exists lb,
        calculate_leaderboard session participants questions all_answers = Ok lb
        /\ List.length lb = List.length participants
        /\ Permutation (map (fun e : LeaderboardEntry => entry_student_id e) lb)
                       (map (fun p : ParticipantObj => participant_student_id p) participants)
        /\ map rank lb = map Z.of_nat (seq 1 (List.length participants))
        /\ StronglySorted key_ge (map entry lb))
  /\ (forall lb,
        calculate_leaderboard session participants questions all_answers = Ok lb ->
        map rank lb = map Z.of_nat (seq 1 (List.length lb))
        /\ StronglySorted key_ge (map entry lb)).
Proof.
  split; [|split].
  - intros ->. reflexivity.
  - intros Hq Hd Hv Hs. unfold calculate_leaderboard. cbv zeta.
    assert (NZ : (Z.of_nat (List.length questions) =? 0) = false).
    { apply Z.eqb_neq. destruct questions; [contradiction | simpl; lia]. }
    rewrite NZ.
    destruct (LeaderboardFacts.student_scores_distinct session
                (Z.of_nat (List.length questions)) all_answers participants []
                Hv Hs Hd) as (es & E & Ids).
    rewrite E. cbn [bind app].
    set (sorted := sort_by key_gt (dict_values es)).
    assert (Len : List.length sorted = List.length participants).
    { unfold sorted. rewrite (Permutation_length (SortFacts.sort_by_perm key_gt _)).
      unfold dict_values. rewrite length_map.
      rewrite <- (length_map (fun ke : Z * ScoreEntry => entry_student_id (snd ke)) es), Ids.
      apply length_map. }
    exists (add_ranks sorted). split; [reflexivity|].
    assert (LenR : List.length (add_ranks sorted) = List.length sorted).
    { rewrite <- (length_map entry), LeaderboardFacts.add_ranks_entry. reflexivity. }
    split; [rewrite LenR; exact Len|]. split; [|split].
    + rewrite <- Ids.
      replace (map (fun e : LeaderboardEntry => entry_student_id e) (add_ranks sorted))
        with (map entry_student_id (map entry (add_ranks sorted)))
        by (rewrite map_map; reflexivity).
      rewrite LeaderboardFacts.add_ranks_entry. unfold sorted.
      rewrite (Permutation_map entry_student_id (SortFacts.sort_by_perm key_gt _)).
      unfold dict_values. rewrite map_map. reflexivity.
    + rewrite LeaderboardFacts.add_ranks_rank, Len. reflexivity.
    + rewrite LeaderboardFacts.add_ranks_entry. apply LeaderboardFacts.leaderboard_sorted.
  - intros lb. unfold calculate_leaderboard. cbv zeta.
    destruct (Z.of_nat (List.length questions) =? 0).
    + intros E. injection E as <-. split; [reflexivity | constructor].
    + destruct (student_scores _ _ _ _ _) as [scores|e]; cbn [bind]; [|discriminate].
      intros E. injection E as <-.
      split.
      * rewrite LeaderboardFacts.add_ranks_rank.
        rewrite <- (length_map entry (add_ranks _)), LeaderboardFacts.add_ranks_entry.
        reflexivity.
      * rewrite LeaderboardFacts.add_ranks_entry. apply LeaderboardFacts.leaderboard_sorted.
Qed.

Lemma calculate_leaderboard_ranking_witness :
  exists lb,
    calculate_leaderboard Example.session5 [Example.ann; Example.bob]
      [Example.q1; Example.q2]
      [Example.answer1; Example.bob_wrong; Example.answer2; Example.bob_null] = Ok lb
    /\ map rank lb = [1; 2]
    /\ map (fun e : LeaderboardEntry => entry_student_id e) lb = [7; 8]
    /\ map (fun e : LeaderboardEntry => total_points e) lb = [970; 0].
Proof.
  destruct (calculate_leaderboard_ranking Example.session5 [Example.ann; Example.bob]
              [Example.q1; Example.q2]
              [Example.answer1; Example.bob_wrong; Example.answer2; Example.bob_null])
    as (_ & H & _).
  destruct H as (lb & E & _).
  - discriminate.
  - repeat constructor; simpl; intuition discriminate.
  - reflexivity.
  - reflexivity.
  - exists lb. split; [exact E|].
    assert (V : calculate_leaderboard Example.session5 [Example.ann; Example.bob]
      [Example.q1; Example.q2]
      [Example.answer1; Example.bob_wrong; Example.answer2; Example.bob_null]
      = Ok (add_ranks [
          {| entry_student_id := 7; student_name := "ann"; total_points := 970;
             correct_count := 1; total_questions := 2; answered_count := 2;
             percent_correct := PyFloat (50 # 1); participation := "2/2" |};
          {| entry_student_id := 8; student_name := "bob"; total_points := 0;
             correct_count := 0; total_questions := 2; answered_count := 2;
             percent_correct := PyFloat 0; participation := "2/2" |}]))
      by (vm_compute; reflexivity).
    rewrite V in E. injection E as <-. repeat split.
Defined.

(** C5.  Two submissions for one (session, student, question) key leave
    exactly one row for the key, holding the option of the second call and
    the time of the second call; a first submission for an absent key
    appends exactly one row.  The table is assumed to hold at most one row
    for the key beforehand, the invariant that submissions maintain. *)
Theorem submit_answer_upsert (db : Store) (now1 now2 : datetime)
    (s st q : uuid) (o1 o2 : option uuid) :
  (count_rows db s st q <= 1)%nat ->
  let r1 := submit_answer db now1 s st q o1 in
  let r2 := submit_answer (fst r1) now2 s st q o2 in
  filter (answer_key_matches s st q) (student_answers (fst r2)) = [snd r2]
  /\ count_rows (fst r2) s st q = 1%nat
  /\ get_student_answer (fst r2) s st q = Some (snd r2)
  /\ answer_option_id (snd r2) = o2
  /\ submitted_at (snd r2) = now2
  /\ (count_rows db s st q = 0%nat ->
      student_answers (fst r1) = student_answers db ++ [snd r1]
      /\ count_rows (fst r1) s st q = 1%nat
      /\ answer_option_id (snd r1) = o1 /\ submitted_at (snd r1) = now1).
Proof.
  intros Hc r1 r2.
  destruct (AnswerFacts.submit_answer_rows db now1 s st q o1) as (R1 & O1 & T1 & _).
  destruct (AnswerFacts.submit_answer_rows (fst r1) now2 s st q o2) as (R2 & O2 & T2 & _).
  fold r1 in R1, O1, T1. fold r2 in R2, O2, T2.
  assert (F1 : filter (answer_key_matches s st q) (student_answers (fst r1)) = [snd r1]).
  { rewrite R1. unfold count_rows in Hc.
    destruct (filter _ (student_answers db)) as [|x [|y rest]]; simpl in Hc;
      [reflexivity | reflexivity | lia]. }
  rewrite F1 in R2.
  split; [exact R2|]. split; [unfold count_rows; rewrite R2; reflexivity|].
  split; [unfold get_student_answer; rewrite ListFacts.find_filter_head, R2; reflexivity|].
  split; [exact O2|]. split; [exact T2|].
  intros H0. split; [|split; [unfold count_rows; rewrite F1; reflexivity | split; assumption]].
  unfold r1, submit_answer, get_student_answer.
  assert (N : find (answer_key_matches s st q) (student_answers db) = None).
  { rewrite ListFacts.find_filter_head. unfold count_rows in H0.
    destruct (filter _ (student_answers db)); [reflexivity | discriminate]. }
  rewrite N. reflexivity.
Qed.

Lemma submit_answer_upsert_witness :
  let r1 := submit_answer Example.store0 Example.t0 5 7 11 (Some 101) in
  let r2 := submit_answer (fst r1) (Example.t0 + 2000000) 5 7 11 (Some 103) in
  student_answers (fst r1)
  = [{| answer_session_id := 5; answer_student_id := 7; answer_question_id := 11;
        answer_option_id := Some 101; submitted_at := Example.t0 |}]
  /\ count_rows (fst r2) 5 7 11 = 1%nat
  /\ answer_option_id (snd r2) = Some 103
  /\ submitted_at (snd r2) = Example.t0 + 2000000.
Proof.
  intros r1 r2.
  destruct (submit_answer_upsert Example.store0 Example.t0 (Example.t0 + 2000000)
              5 7 11 (Some 101) (Some 103)) as (_ & C & _ & O & T & F).
  - apply Nat.leb_le. reflexivity.
  - destruct F as (A & _); [reflexivity|].
    split; [exact A|]. split; [exact C|]. split; [exact O | exact T].
Defined.

(** C6.  When the current question is the last one of the quiz, or the quiz
    has no question at all, [next_question] answers "No more questions" and
    the store it leaves is the store it found: status, current question,
    start and end time of the session are untouched. *)
Theorem next_question_exhausted (db : Store) (sid : uuid) (session : QuizSession) :
  get_session_by_id db sid = Some session ->
  let qs := get_questions_by_quiz db (quiz_id session) in
  (qs = []
   \/ exists init last,
        qs = init ++ [last]
        /\ current_question_id session = Some (question_id last)
        /\ (forall q, In q init -> question_id q <> question_id last)) ->
  next_question db sid = (db, failure "No more questions")
  /\ get_session_by_id (fst (next_question db sid)) sid = Some session.
Proof.
  intros Hs qs Hlast.
  assert (E : next_question db sid = (db, failure "No more questions")).
  { pose proof (SessionFacts.next_question_cases db sid session Hs) as C. cbv zeta in C.
    fold qs in C.
    assert (N : nth_error qs (Z.to_nat (current_index session qs + 1)) = None).
    { apply nth_error_None. destruct Hlast as [H0 | (init & last & Hq & Hc & Hn)].
      - rewrite H0. simpl. lia.
      - unfold current_index. rewrite Hc, Hq.
        rewrite (SessionFacts.index_of_last _ init last 0 eq_refl Hn).
        rewrite length_app. simpl. lia. }
    rewrite N in C. exact C. }
  split; [exact E|]. rewrite E. exact Hs.
Qed.

Lemma next_question_exhausted_witness :
  next_question Example.store_last 5 = (Example.store_last, failure "No more questions").
Proof.
  destruct (next_question_exhausted Example.store_last 5 Example.session_last eq_refl)
    as [H _].
  - right. exists [Example.q1], Example.q2. split; [reflexivity|]. split; [reflexivity|].
    intros q [<- | []]. discriminate.
  - exact H.
Defined.

(** C7.  Joining by the code of an existing session: a CLOSED session
    refuses with "This session has ended" and the store is untouched; on a
    PENDING or ACTIVE session a student who already participates gets
    "Already joined" with the store, hence the participant count, untouched;
    any other student gets exactly one new SessionParticipant row, after
    which a second join is the idempotent "Already joined". *)
Theorem join_session_outcomes (db : Store) (now now' : datetime) (code : string)
    (student_id : uuid) (session : QuizSession) :
  get_session_by_code db code = Some session ->
  let sid := session_id session in
  let r := join_session db now code student_id in
  (status session = CLOSED ->
   r = (db, failure "This session has ended"))
  /\ (status session <> CLOSED -> is_participant db sid student_id = true ->
      r = (db, {| success := true; message := Some "Already joined"%string;
                  payload := Some session |}))
  /\ (status session <> CLOSED -> is_participant db sid student_id = false ->
      snd r = {| success := true; message := Some "Joined successfully"%string;
                 payload := Some session |}
      /\ session_participants (fst r)
         = session_participants db
           ++ [{| participant_session_id := sid; participant_student_id := student_id;
                  joined_at := now |}]
      /\ get_participant_count (fst r) sid = S (get_participant_count db sid)
      /\ join_session (fst r) now' code student_id
         = (fst r, {| success := true; message := Some "Already joined"%string;
                      payload := Some session |})).
Proof.
  intros Hs sid r. unfold r, join_session. rewrite Hs. fold sid.
  split; [|split].
  - intros Hc. rewrite Hc. reflexivity.
  - intros Hc Hp. rewrite Hp.
    destruct (status session); try reflexivity. contradiction.
  - intros Hc Hp. rewrite Hp.
    assert (E : SessionStatus_eqb (status session) CLOSED = false)
      by (destruct (status session); try reflexivity; contradiction).
    rewrite E. cbn [fst snd]. split; [reflexivity|]. split; [reflexivity|].
    split; [apply JoinFacts.add_participant_count|].
    assert (G : get_session_by_code (fst (add_participant db now sid student_id)) code
                = Some session) by exact Hs.
    rewrite G. fold sid. rewrite E, JoinFacts.add_participant_is_participant. reflexivity.
Qed.

Lemma join_session_outcomes_witness :
  let db := Example.store0 in
  let r := join_session db Example.t0 "12345" 7 in
  get_participant_count (fst r) 5 = 1%nat
  /\ message (snd r) = Some "Joined successfully"%string
  /\ message (snd (join_session (fst r) Example.t0 "12345" 7)) = Some "Already joined"%string.
Proof.
  intros db r.
  destruct (join_session_outcomes db Example.t0 Example.t0 "12345" 7 Example.session_pending
              eq_refl) as (_ & _ & H).
  destruct H as (H1 & _ & H3 & H4); [discriminate | reflexivity |].
  split; [exact H3|].
  split; [exact (f_equal message H1) | exact (f_equal (fun x => message (snd x)) H4)].
Defined.

(** C8.  [generate_session_code] always terminates within 100 uniqueness
    checks.  If the check reports every generated code as existing it fails
    with the exhaustion error after exactly 100 checks; otherwise it returns
    the first generated code the check reports free.  A returned code is
    always one the check reported free. *)
Theorem generate_session_code_bounded (random_code : nat -> string)
    (code_exists : string -> bool) :
  let r := generate_session_code_with random_code code_exists in
  (List.length (snd r) <= 100)%nat
  /\ ((forall k, (k < 100)%nat -> code_exists (random_code k) = true) ->
      fst r = Raise exhausted /\ snd r = map random_code (seq 0 100)
      /\ List.length (snd r) = 100%nat)
  /\ (forall k, (k < 100)%nat -> code_exists (random_code k) = false ->
      (forall j, (j < k)%nat -> code_exists (random_code j) = true) ->
      fst r = Ok (random_code k) /\ snd r = map random_code (seq 0 (S k)))
  /\ (forall code, fst r = Ok code -> code_exists code = false)
  /\ (forall db, generate_session_code random_code db
                 = generate_session_code_with random_code
                     (SessionDataAccess.session_code_exists db)).
Proof.
  intros r. unfold r, generate_session_code_with, max_attempts.
  assert (A : forall k, (k < 100)%nat -> code_exists (random_code k) = false ->
      (forall j, (j < k)%nat -> code_exists (random_code j) = true) ->
      attempt_loop random_code code_exists 100 0 []
      = (Ok (random_code k), map random_code (seq 0 (S k)))).
  { intros k Hk Hf Hb.
    apply (CodeFacts.attempt_loop_first_free random_code code_exists 100 0 [] k Hk Hf Hb). }
  assert (B : (forall k, (k < 100)%nat -> code_exists (random_code k) = true) ->
      attempt_loop random_code code_exists 100 0 []
      = (Raise exhausted, map random_code (seq 0 100))).
  { intros H. apply (CodeFacts.attempt_loop_exhausted random_code code_exists 100 0 [] H). }
  split; [|split; [|split; [|split]]].
  - destruct (CodeFacts.attempt_loop_cases random_code code_exists 100 0)
      as [H | (k & Hk & Hf & Hb)]; simpl Nat.add in *.
    + rewrite (B H). cbn [snd]. rewrite length_map, length_seq. lia.
    + rewrite (A k Hk Hf Hb). cbn [snd]. rewrite length_map, length_seq. lia.
  - intros H. rewrite (B H). cbn [fst snd]. split; [reflexivity|]. split; [reflexivity|].
    rewrite length_map, length_seq. reflexivity.
  - intros k Hk Hf Hb. rewrite (A k Hk Hf Hb). split; reflexivity.
  - intros code C.
    destruct (CodeFacts.attempt_loop_cases random_code code_exists 100 0)
      as [H | (k & Hk & Hf & Hb)]; simpl Nat.add in *.
    + rewrite (B H) in C. discriminate.
    + rewrite (A k Hk Hf Hb) in C. simpl in C. injection C as <-. exact Hf.
  - reflexivity.
Qed.

Lemma generate_session_code_bounded_witness :
  let stub := generate_session_code_with (fun _ => "00000"%string) (fun _ => true) in
  fst stub = Raise exhausted /\ List.length (snd stub) = 100%nat.
Proof.
  intros stub.
  destruct (generate_session_code_bounded (fun _ => "00000"%string) (fun _ => true))
    as (_ & H & _).
  destruct H as (E & _ & L); [reflexivity|]. split; [exact E | exact L].
Defined.

(** C9.  The score divides by [time_limit] without a guard: on an answer whose
    option is correct the computation returns a score for every
    [time_limit >= 1] the Integer column can hold, and raises
    [ZeroDivisionError] when [time_limit = 0]. *)
Theorem calculate_answer_score_division (answer : AnswerObj) (start : datetime) (tl : Z) :
  answered_correctly answer = true ->
  valid_datetime (submitted_at answer) = true -> valid_datetime start = true ->
  (1 <= tl < 2 ^ 53 -> exists score, calculate_answer_score answer start tl = Ok score)
  /\ (tl = 0 -> calculate_answer_score answer start tl = Raise ZeroDivisionError).
Proof.
  intros Hc Hs Hq.
  destruct (ScoringFacts.answered_correctly_inv answer Hc) as (o & So & Co).
  split.
  - intros Ht.
    destruct (ScoringFacts.score_correct_eval answer o start tl So Co Ht Hs Hq) as [E _].
    eexists. exact E.
  - intros ->. apply (ScoringFacts.score_zero_limit answer o start So Co Hs Hq).
Qed.

Lemma calculate_answer_score_division_witness :
  (exists score, calculate_answer_score Example.answer1 Example.t0 30 = Ok score)
  /\ calculate_answer_score Example.answer1 Example.t0 0 = Raise ZeroDivisionError.
Proof.
  destruct (calculate_answer_score_division Example.answer1 Example.t0 30) as [H _];
    [reflexivity | reflexivity | reflexivity |].
  destruct (calculate_answer_score_division Example.answer1 Example.t0 0) as [_ H0];
    [reflexivity | reflexivity | reflexivity |].
  split; [apply H; lia | apply H0; reflexivity].
Defined.

(** C10 fails as stated: for a student without a correct answer
    the cleared row leaves [percent_correct] where it was (0.0), and the
    denominator of the participation string is the number of questions,
    which the row does not change. *)
Lemma null_answer_keeps_zero_percent :
  exists e e',
    score_entry Example.session5 2 [Example.bob_wrong] Example.bob = Ok e
    /\ score_entry Example.session5 2 [Example.bob_wrong; Example.bob_null] Example.bob = Ok e'
    /\ selected_option Example.bob_null = None
    /\ percent_correct e = PyFloat 0 /\ percent_correct e' = PyFloat 0
    /\ participation e = "1/2"%string /\ participation e' = "2/2"%string.
Proof.
  do 2 eexists. repeat split; vm_compute; reflexivity.
Qed.

(** The bound of 33 answers below is sharp: one correct answer out of 34 and
    out of 35 both display as 2.9. *)
Remark percent_34_35 :
  exists v v',
    percent_of 1 34 = Ok v /\ percent_of 1 35 = Ok v'
    /\ (num_val (round1 v) == Float64.RN (29 # 10))%Q
    /\ (num_val (round1 v') == Float64.RN (29 # 10))%Q.
Proof.
  do 2 eexists. split; [vm_compute; reflexivity|]. split; [vm_compute; reflexivity|].
  split; apply Qeq_bool_iff; vm_compute; reflexivity.
Qed.

(** C10, amended.  A row whose option is null scores 0 and is not counted
    correct, but it is counted in [answered_count]: with the row present the
    student's entry has the same total and correct count, [answered_count]
    one higher (the numerator of the participation string and the
    denominator of [percent_correct]), and a [percent_correct] that is never
    higher, and strictly lower when the student has a correct answer among at
    most 33 answers.  In the detailed results the row adds nothing to the
    answer map, so its question renders as '-' exactly as if the row did not
    exist. *)
Theorem null_answer_effect (session : QuizSession) (total : Z)
    (before after : list AnswerObj) (a0 : AnswerObj) (p : ParticipantObj) (e : ScoreEntry) :
  selected_option a0 = None ->
  answer_student_id a0 = participant_student_id p ->
  score_entry session total (before ++ after) p = Ok e ->
  let sid := participant_student_id p in
  (forall start tl, calculate_answer_score a0 start tl = Ok 0)
  /\ answered_correctly a0 = false
  /\ (exists e',
        score_entry session total (before ++ a0 :: after) p = Ok e'
        /\ total_points e' = total_points e
        /\ correct_count e' = correct_count e
        /\ answered_count e' = answered_count e + 1
        /\ participation e'
           = (str_of_Z (answered_count e + 1) ++ "/" ++ str_of_Z total)%string
        /\ (num_val (percent_correct e') <= num_val (percent_correct e))%Q
        /\ (1 <= correct_count e -> answered_count e <= 33 ->
            (num_val (percent_correct e') < num_val (percent_correct e))%Q))
  /\ answer_map (student_answers_of (before ++ a0 :: after) sid) []
     = answer_map (student_answers_of (before ++ after) sid) []
  /\ (forall m question,
        answer_map (student_answers_of (before ++ a0 :: after) sid) [] = Ok m ->
        question_id question = answer_question_id a0 ->
        (forall a : AnswerObj, In a (before ++ after) -> answer_student_id a = sid ->
           answer_question_id a = question_id question -> selected_option a = None) ->
        answer_cell m question = dash).
Proof.
  intros H0 Hsid He sid.
  assert (S0 : forall start tl, calculate_answer_score a0 start tl = Ok 0).
  { intros start tl. unfold calculate_answer_score. rewrite H0. reflexivity. }
  assert (C0 : answered_correctly a0 = false).
  { unfold answered_correctly. rewrite H0. reflexivity. }
  split; [exact S0|]. split; [exact C0|].
  assert (Ins : student_answers_of (before ++ a0 :: after) sid
                = student_answers_of before sid ++ a0 :: student_answers_of after sid)
    by (apply NullAnswerFacts.student_answers_of_insert, Hsid).
  assert (App : student_answers_of (before ++ after) sid
                = student_answers_of before sid ++ student_answers_of after sid)
    by apply NullAnswerFacts.student_answers_of_app.
  split; [|split].
  - unfold score_entry in *. fold sid in He |- *. rewrite Ins. rewrite App in He.
    rewrite (NullAnswerFacts.tally_skip_null session a0 _ _ 0 0 H0).
    set (s1 := student_answers_of before sid) in *.
    set (s2 := student_answers_of after sid) in *.
    destruct (tally session (s1 ++ s2) 0 0) as [[tp cc]|] eqn:T; cbn [bind] in He |- *;
      [|discriminate].
    cbn [fst snd] in He |- *.
    pose proof (LeaderboardFacts.tally_bounds _ _ _ _ _ _ T) as B.
    destruct (percent_of cc (Z.of_nat (List.length (s1 ++ s2)))) as [v|] eqn:P;
      cbn [bind] in He; [|discriminate].
    injection He as <-. cbn [total_points correct_count answered_count participation
                          percent_correct].
    assert (L : Z.of_nat (List.length (s1 ++ a0 :: s2))
                = Z.of_nat (List.length (s1 ++ s2)) + 1).
    { rewrite !length_app. simpl. lia. }
    rewrite L.
    destruct (NullAnswerFacts.percent_of_next cc (Z.of_nat (List.length (s1 ++ s2))) v
                ltac:(lia) P) as (v' & P' & Le).
    rewrite P'. cbn [bind]. eexists. split; [reflexivity|].
    cbn [total_points correct_count answered_count participation percent_correct].
    repeat split; try reflexivity; [exact Le|].
    intros Hc Hn.
    apply (NullAnswerFacts.percent_small_strict cc (Z.of_nat (List.length (s1 ++ s2))) v v');
      try assumption. lia.
  - rewrite Ins, App. apply NullAnswerFacts.answer_map_skip_null, H0.
  - intros m question Em Hq Hnone. unfold answer_cell.
    rewrite Ins, (NullAnswerFacts.answer_map_skip_null a0 _ _ [] H0), <- App in Em.
    rewrite (NullAnswerFacts.answer_map_absent (question_id question)
               (student_answers_of (before ++ after) sid) [] m eq_refl);
      [reflexivity | | exact Em].
    intros a Ha Hk. unfold student_answers_of in Ha. apply filter_In in Ha.
    destruct Ha as [Ha Hs]. apply Z.eqb_eq in Hs. apply (Hnone a Ha Hs Hk).
Qed.

Lemma null_answer_effect_witness :
  exists e',
    score_entry Example.session5 2 [Example.answer1; Example.answer_null] Example.ann = Ok e'
    /\ total_points e' = 970 /\ answered_count e' = 2
    /\ participation e' = "2/2"%string
    /\ (num_val (percent_correct e') < 100)%Q.
Proof.
  destruct (null_answer_effect Example.session5 2 [Example.answer1] [] Example.answer_null
              Example.ann
              {| entry_student_id := 7; student_name := "ann"; total_points := 970;
                 correct_count := 1; total_questions := 2; answered_count := 1;
                 percent_correct := PyFloat (100 # 1); participation := "1/2" |})
    as (_ & _ & (e' & E & T & _ & A & P & _ & S) & _).
  - reflexivity.
  - reflexivity.
  - vm_compute. reflexivity.
  - exists e'. split; [exact E|]. split; [exact T|]. split; [exact A|]. split; [exact P|].
    apply S; simpl; lia.
Defined.

(* ================================================================== *)
(** * Further properties of the code *)
(* ================================================================== *)

Module RowFacts.

Lemma find_update_first_other {A} (p r : A -> bool) (f : A -> A) l :
  (forall x, r (f x) = r x) -> (forall x, p x = true -> r x = false) ->
  find r (update_first p f l) = find r l.
Proof.
  intros Hf Hpr. induction l as [|x l IH]; simpl; [reflexivity|].
  destruct (p x) eqn:Px; simpl.
  - rewrite Hf, (Hpr x Px). reflexivity.
  - destruct (r x); [reflexivity|exact IH].
Qed.

Lemma update_first_twice {A} (p : A -> bool) (f g : A -> A) l :
  (forall x, p x = true -> p (f x) = true) ->
  update_first p g (update_first p f l) = update_first p (fun x => g (f x)) l.
Proof.
  intros Hp. induction l as [|x l IH]; simpl; [reflexivity|].
  destruct (p x) eqn:Px; simpl.
  - rewrite (Hp x Px). reflexivity.
  - rewrite Px, IH. reflexivity.
Qed.

Lemma update_first_ext {A} (p : A -> bool) (f g : A -> A) l :
  (forall x, p x = true -> f x = g x) -> update_first p f l = update_first p g l.
Proof.
  intros E. induction l as [|x l IH]; simpl; [reflexivity|].
  destruct (p x) eqn:Px; [rewrite (E x Px); reflexivity|rewrite IH; reflexivity].
Qed.

Lemma map_update_first {A B} (p : A -> bool) (f : A -> A) (h : A -> B) l :
  (forall x, h (f x) = h x) -> map h (update_first p f l) = map h l.
Proof.
  intros E. induction l as [|x l IH]; simpl; [reflexivity|].
  destruct (p x); simpl; [rewrite E|rewrite IH]; reflexivity.
Qed.

Lemma filter_length_update_first {A} (p r : A -> bool) (f : A -> A) l :
  (forall x, r (f x) = r x) ->
  List.length (filter r (update_first p f l)) = List.length (filter r l).
Proof.
  intros E. induction l as [|x l IH]; simpl; [reflexivity|].
  destruct (p x); simpl.
  - rewrite E. destruct (r x); reflexivity.
  - destruct (r x); simpl; rewrite IH; reflexivity.
Qed.

Lemma find_same_row {A} (p r : A -> bool) (f : A -> A) l s :
  (forall x, r (f x) = r x) ->
  find p l = Some s -> find r l = Some s ->
  find r (update_first p f l) = Some (f s).
Proof.
  intros Hf. induction l as [|x l IH]; simpl; [discriminate|].
  intros Hp Hr. destruct (p x) eqn:Px.
  - injection Hp as <-. simpl. rewrite Hf.
    destruct (r x) eqn:Rx; [reflexivity|].
    apply find_some in Hr. destruct Hr as [_ Hr]. congruence.
  - simpl. destruct (r x) eqn:Rx.
    + injection Hr as <-. apply find_some in Hp. destruct Hp as [_ Hp]. congruence.
    + apply IH; assumption.
Qed.

Lemma remove_first_app_single {A} (p : A -> bool) l x :
  find p l = None -> p x = true -> remove_first p (l ++ [x]) = l.
Proof.
  induction l as [|y l IH]; simpl; intros Hn Px.
  - rewrite Px. reflexivity.
  - destruct (p y); [discriminate|]. rewrite (IH Hn Px). reflexivity.
Qed.

Lemma filter_remove_first_other {A} (p r : A -> bool) l :
  (forall x, p x = true -> r x = false) ->
  filter r (remove_first p l) = filter r l.
Proof.
  intros H. induction l as [|x l IH]; simpl; [reflexivity|].
  destruct (p x) eqn:Px.
  - rewrite (H x Px). reflexivity.
  - simpl. rewrite IH. reflexivity.
Qed.

Lemma find_remove_first_other {A} (p r : A -> bool) l :
  (forall x, p x = true -> r x = false) ->
  find r (remove_first p l) = find r l.
Proof.
  intros H. induction l as [|x l IH]; simpl; [reflexivity|].
  destruct (p x) eqn:Px.
  - rewrite (H x Px). reflexivity.
  - simpl. rewrite IH. reflexivity.
Qed.

End RowFacts.

Module LifecycleFacts.
Import ListFacts SortFacts SessionFacts RowFacts.

Lemma start_session_cases db now sid session :
  get_session_by_id db sid = Some session ->
  match get_questions_by_quiz db (quiz_id session) with
  | [] => start_session db now sid = (db, failure "Quiz has no questions")
  | first :: _ =>
    let session' := set_current_question (question_id first) (set_status ACTIVE now session) in
    start_session db now sid
    = (fst (update_current_question (fst (update_status db now sid ACTIVE)) sid
              (question_id first)),
       {| success := true; message := None; payload := Some session' |})
    /\ get_session_by_id (fst (start_session db now sid)) sid = Some session'
  end.
Proof.
  intros G. unfold start_session. rewrite G.
  destruct (get_questions_by_quiz db (quiz_id session)) as [|first rest]; [reflexivity|].
  cbv zeta.
  pose proof (get_after_update_status db now sid ACTIVE session G) as G1.
  pose proof (get_after_update_current _ sid (question_id first) _ G1) as G2.
  split.
  - f_equal. f_equal. unfold update_current_question at 1. rewrite G1. reflexivity.
  - cbn [fst]. exact G2.
Qed.

Lemma quiz_questions_in db quiz q :
  In q (get_questions_by_quiz db quiz) <-> In q (questions db) /\ question_quiz_id q = quiz.
Proof.
  unfold get_questions_by_quiz. split.
  - intros H. apply (Permutation_in _ (sort_by_perm _ _)) in H.
    apply filter_In in H. destruct H as [H1 H2]. split; [exact H1|]. apply Z.eqb_eq. exact H2.
  - intros [H1 H2]. apply (Permutation_in _ (Permutation_sym (sort_by_perm _ _))).
    apply filter_In. split; [exact H1|]. apply Z.eqb_eq. exact H2.
Qed.

Lemma quiz_questions_nil db quiz :
  get_questions_by_quiz db quiz = []
  <-> forall q, In q (questions db) -> question_quiz_id q <> quiz.
Proof.
  split.
  - intros E q Hq Hz.
    assert (In q (get_questions_by_quiz db quiz)) as H by (apply quiz_questions_in; auto).
    rewrite E in H. exact H.
  - intros H. destruct (get_questions_by_quiz db quiz) as [|q l] eqn:E; [reflexivity|].
    assert (In q (get_questions_by_quiz db quiz)) as Hq by (rewrite E; left; reflexivity).
    apply quiz_questions_in in Hq. destruct Hq as [H1 H2]. destruct (H q H1 H2).
Qed.

(** What a lifecycle command can do to the row of its session. *)
Lemma run_command_row sid db c session :
  get_session_by_id db sid = Some session ->
  exists session',
    get_session_by_id (run_command sid db c) sid = Some session'
    /\ (session' = session
        \/ (exists now qid, c = Start now
              /\ session' = set_current_question qid (set_status ACTIVE now session))
        \/ (exists qid, c = Next /\ session' = set_current_question qid session)
        \/ (exists now, c = End_ now /\ session' = set_status CLOSED now session)).
Proof.
  intros G. destruct c as [now| |now]; cbn [run_command].
  - pose proof (start_session_cases db now sid session G) as C.
    destruct (get_questions_by_quiz db (quiz_id session)) as [|first rest].
    + rewrite C. cbn [fst]. exists session. split; [exact G|left; reflexivity].
    + destruct C as [_ C]. eexists. split; [exact C|].
      right. left. exists now, (question_id first). split; reflexivity.
  - pose proof (next_question_cases db sid session G) as C. cbv zeta in C.
    destruct (nth_error _ _) as [next|].
    + rewrite C. cbn [fst]. eexists. split; [apply get_after_update_current; exact G|].
      right. right. left. exists (question_id next). split; reflexivity.
    + rewrite C. cbn [fst]. exists session. split; [exact G|left; reflexivity].
  - unfold end_session. eexists. split; [apply get_after_update_status; exact G|].
    right. right. right. exists now. split; reflexivity.
Qed.

Lemma get_other_after_update db sid sid' f :
  sid' <> sid -> (forall s, session_id (f s) = session_id s) ->
  find (has_id sid') (update_first (has_id sid) f (quiz_sessions db))
  = get_session_by_id db sid'.
Proof.
  intros N Hf. unfold get_session_by_id. apply find_update_first_other.
  - intros x. unfold has_id. rewrite Hf. reflexivity.
  - intros x. unfold has_id. intros H. apply Z.eqb_eq in H. apply Z.eqb_neq. lia.
Qed.

Lemma update_row_frame db sid f :
  (forall s, session_id (f s) = session_id s) ->
  (forall s, session_code (f s) = session_code s) ->
  let db' := with_quiz_sessions db (update_first (has_id sid) f (quiz_sessions db)) in
  questions db' = questions db
  /\ session_participants db' = session_participants db
  /\ student_answers db' = student_answers db
  /\ map session_id (quiz_sessions db') = map session_id (quiz_sessions db)
  /\ map session_code (quiz_sessions db') = map session_code (quiz_sessions db)
  /\ forall sid', sid' <> sid -> get_session_by_id db' sid' = get_session_by_id db sid'.
Proof.
  intros Hi Hc db'. repeat split; try reflexivity.
  - apply map_update_first. exact Hi.
  - apply map_update_first. exact Hc.
  - intros sid' N. apply (get_other_after_update db sid sid' f N Hi).
Qed.

Lemma update_status_frame db now sid st :
  let db' := fst (update_status db now sid st) in
  questions db' = questions db
  /\ session_participants db' = session_participants db
  /\ student_answers db' = student_answers db
  /\ map session_id (quiz_sessions db') = map session_id (quiz_sessions db)
  /\ map session_code (quiz_sessions db') = map session_code (quiz_sessions db)
  /\ forall sid', sid' <> sid -> get_session_by_id db' sid' = get_session_by_id db sid'.
Proof.
  unfold update_status. destruct (get_session_by_id db sid); cbn [fst].
  - apply update_row_frame; reflexivity.
  - repeat split; reflexivity.
Qed.

Lemma update_current_frame db sid qid :
  let db' := fst (update_current_question db sid qid) in
  questions db' = questions db
  /\ session_participants db' = session_participants db
  /\ student_answers db' = student_answers db
  /\ map session_id (quiz_sessions db') = map session_id (quiz_sessions db)
  /\ map session_code (quiz_sessions db') = map session_code (quiz_sessions db)
  /\ forall sid', sid' <> sid -> get_session_by_id db' sid' = get_session_by_id db sid'.
Proof.
  unfold update_current_question. destruct (get_session_by_id db sid); cbn [fst].
  - apply update_row_frame; reflexivity.
  - repeat split; reflexivity.
Qed.

Lemma run_command_frame sid db c :
  let db' := run_command sid db c in
  questions db' = questions db
  /\ session_participants db' = session_participants db
  /\ student_answers db' = student_answers db
  /\ map session_id (quiz_sessions db') = map session_id (quiz_sessions db)
  /\ map session_code (quiz_sessions db') = map session_code (quiz_sessions db)
  /\ forall sid', sid' <> sid -> get_session_by_id db' sid' = get_session_by_id db sid'.
Proof.
  destruct c as [now| |now]; cbn [run_command].
  - unfold start_session. destruct (get_session_by_id db sid) as [session|] eqn:G;
      [|repeat split; reflexivity].
    destruct (get_questions_by_quiz db (quiz_id session)) as [|first rest];
      [repeat split; reflexivity|].
    cbv zeta. cbn [fst].
    destruct (update_status_frame db now sid ACTIVE) as (A1 & A2 & A3 & A4 & A5 & A6).
    destruct (update_current_frame (fst (update_status db now sid ACTIVE)) sid
                (question_id first)) as (B1 & B2 & B3 & B4 & B5 & B6).
    cbv zeta in *.
    repeat split; try congruence.
    intros sid' N. rewrite (B6 sid' N). apply A6. exact N.
  - unfold next_question. destruct (get_session_by_id db sid) as [session|] eqn:G;
      [|repeat split; reflexivity].
    cbv zeta. destruct (_ >=? _); [repeat split; reflexivity|].
    destruct (nth_error _ _) as [next|]; [|repeat split; reflexivity].
    cbn [fst]. apply update_current_frame.
  - unfold end_session. apply update_status_frame.
Qed.

Lemma run_commands_frame sid cs : forall db,
  let db' := run_commands sid db cs in
  questions db' = questions db
  /\ session_participants db' = session_participants db
  /\ student_answers db' = student_answers db
  /\ map session_id (quiz_sessions db') = map session_id (quiz_sessions db)
  /\ map session_code (quiz_sessions db') = map session_code (quiz_sessions db)
  /\ forall sid', sid' <> sid -> get_session_by_id db' sid' = get_session_by_id db sid'.
Proof.
  induction cs as [|c cs IH]; intros db.
  - repeat split; reflexivity.
  - change (run_commands sid db (c :: cs))
      with (run_commands sid (run_command sid db c) cs).
    destruct (IH (run_command sid db c)) as (A1 & A2 & A3 & A4 & A5 & A6).
    destruct (run_command_frame sid db c) as (B1 & B2 & B3 & B4 & B5 & B6).
    cbv zeta in *.
    repeat split; try congruence.
    intros sid' N. rewrite (A6 sid' N). apply B6. exact N.
Qed.

End LifecycleFacts.

Module WalkFacts.
Import ListFacts SortFacts SessionFacts RowFacts LifecycleFacts.

Lemma questions_only db db' quiz :
  questions db' = questions db ->
  get_questions_by_quiz db' quiz = get_questions_by_quiz db quiz.
Proof.
  intros E. unfold get_questions_by_quiz. rewrite E. reflexivity.
Qed.

Lemma run_commands_snoc sid db cs c :
  run_commands sid db (cs ++ [c]) = run_command sid (run_commands sid db cs) c.
Proof.
  unfold run_commands. rewrite fold_left_app. reflexivity.
Qed.

Lemma set_status_closed_twice now now' s :
  set_status CLOSED now' (set_status CLOSED now s) = set_status CLOSED now s.
Proof.
  destruct s as [i q c st cq [t1|] [t2|] ca]; reflexivity.
Qed.

(** State of the session after [start_session] and [k] calls of
    [next_question]. *)
Lemma walk_state db now sid session :
  NoDup (map question_id (questions db)) ->
  get_session_by_id db sid = Some session ->
  get_questions_by_quiz db (quiz_id session) <> [] ->
  forall k,
    let qs := get_questions_by_quiz db (quiz_id session) in
    let db_k := run_commands sid db (Start now :: repeat Next k) in
    exists s q,
      get_session_by_id db_k sid = Some s
      /\ quiz_id s = quiz_id session
      /\ questions db_k = questions db
      /\ nth_error qs (Nat.min k (List.length qs - 1)) = Some q
      /\ current_question_id s = Some (question_id q).
Proof.
  intros Hd G Hne k. cbv zeta.
  induction k as [|k IH].
  - cbn [repeat]. unfold run_commands. cbn [fold_left run_command].
    pose proof (start_session_cases db now sid session G) as C.
    destruct (get_questions_by_quiz db (quiz_id session)) as [|first rest] eqn:Eq;
      [destruct (Hne eq_refl)|].
    destruct C as [C1 C2]. eexists. exists first.
    split; [exact C2|]. split; [reflexivity|].
    split; [apply (run_command_frame sid db (Start now))|].
    split; reflexivity.
  - destruct IH as (s & q & Gs & Qs & Fq & Nq & Cq).
    change (Start now :: repeat Next (S k)) with (Start now :: (Next :: repeat Next k)).
    rewrite (repeat_cons k Next).
    change (Start now :: repeat Next k ++ [Next]) with ((Start now :: repeat Next k) ++ [Next]).
    rewrite run_commands_snoc.
    set (db_k := run_commands sid db (Start now :: repeat Next k)) in *.
    cbn [run_command].
    pose proof (next_question_cases db_k sid s Gs) as C. cbv zeta in C.
    rewrite Qs, (questions_only db db_k _ Fq) in C.
    set (qs := get_questions_by_quiz db (quiz_id session)) in *.
    assert (NoDup (map question_id qs)) as Hq by (apply quiz_questions_NoDup; exact Hd).
    unfold current_index in C. rewrite Cq in C.
    rewrite (index_of_nth_error qs _ q 0 Hq Nq) in C.
    assert (List.length qs <> 0)%nat as Hl.
    { destruct qs; [destruct (Hne eq_refl)|simpl; lia]. }
    replace (Z.to_nat (0 + Z.of_nat (Nat.min k (List.length qs - 1)) + 1))
      with (S (Nat.min k (List.length qs - 1))) in C by lia.
    destruct (Nat.lt_ge_cases k (List.length qs - 1)) as [Lt|Ge].
    + rewrite (Nat.min_l k) in C by lia.
      destruct (nth_error qs (S k)) as [next|] eqn:Nn.
      * rewrite C. cbn [fst]. eexists. exists next.
        split; [apply get_after_update_current; exact Gs|].
        split; [exact Qs|].
        split; [rewrite <- Fq; apply (update_current_frame db_k sid (question_id next))|].
        split; [rewrite (Nat.min_l (S k)) by lia; exact Nn|reflexivity].
      * apply nth_error_None in Nn. lia.
    + rewrite (Nat.min_r k) in C by lia. rewrite (Nat.min_r k) in Nq by lia.
      destruct (nth_error qs (S (List.length qs - 1))) as [next|] eqn:Nn.
      * assert (nth_error qs (S (List.length qs - 1)) <> None) as Hc by congruence.
        apply nth_error_Some in Hc. lia.
      * rewrite C. cbn [fst]. exists s, q.
        split; [exact Gs|]. split; [exact Qs|]. split; [exact Fq|].
        split; [rewrite (Nat.min_r (S k)) by lia; exact Nq|exact Cq].
Qed.

End WalkFacts.

Module TableFacts.
Import ListFacts RowFacts AnswerFacts JoinFacts CodeFacts.

Lemma filter_filter_neg_same {A} (r : A -> bool) l :
  filter r (filter (fun x => negb (r x)) l) = [].
Proof.
  induction l as [|x l IH]; simpl; [reflexivity|].
  destruct (r x) eqn:Rx; simpl; [exact IH|]. rewrite Rx. exact IH.
Qed.

Lemma filter_filter_neg_other {A} (r r' : A -> bool) l :
  (forall x, r' x = true -> r x = false) ->
  filter r' (filter (fun x => negb (r x)) l) = filter r' l.
Proof.
  intros H. induction l as [|x l IH]; simpl; [reflexivity|].
  destruct (r x) eqn:Rx; simpl.
  - destruct (r' x) eqn:R'x; [|exact IH]. rewrite (H x R'x) in Rx. discriminate.
  - rewrite IH. reflexivity.
Qed.

Lemma find_remove_first_unique (sid : uuid) l :
  NoDup (map session_id l) -> find (has_id sid) (remove_first (has_id sid) l) = None.
Proof.
  induction l as [|x l IH]; simpl; [reflexivity|].
  intros N. apply NoDup_cons_iff in N. destruct N as [Nx Nl].
  destruct (has_id sid x) eqn:Hx.
  - destruct (find (has_id sid) l) as [y|] eqn:F; [|reflexivity].
    apply find_some in F. destruct F as [Hy Hi]. unfold has_id in Hx, Hi.
    apply Z.eqb_eq in Hx, Hi. destruct Nx. apply in_map_iff. exists y. split; [lia|exact Hy].
  - simpl. rewrite Hx. apply IH. exact Nl.
Qed.

Lemma remove_first_length {A} (p : A -> bool) l x :
  find p l = Some x -> List.length (remove_first p l) = pred (List.length l).
Proof.
  induction l as [|y l IH]; simpl; [discriminate|].
  destruct (p y); [reflexivity|]. intros F. simpl. rewrite (IH F).
  destruct l; [discriminate|reflexivity].
Qed.

(** At most one row per (session, student) gives participants with distinct
    student ids in every session. *)
Lemma participants_distinct (l : list SessionParticipant) (sid : uuid) :
  (forall s t, (List.length (filter (is_row s t) l) <= 1)%nat) ->
  NoDup (map participant_student_id
             (filter (fun p => (participant_session_id p =? sid)%Z) l)).
Proof.
  induction l as [|x l IH]; intros H; simpl; [constructor|].
  assert (forall s t, (List.length (filter (is_row s t) l) <= 1)%nat) as Hl.
  { intros s t. specialize (H s t). simpl in H. destruct (is_row s t x); simpl in H; lia. }
  destruct (participant_session_id x =? sid) eqn:Ex; [|apply IH; exact Hl].
  simpl. constructor; [|apply IH; exact Hl].
  intros Hin. apply in_map_iff in Hin. destruct Hin as (y & Ey & Hy).
  apply filter_In in Hy. destruct Hy as [Hy Sy].
  specialize (H sid (participant_student_id x)). simpl in H.
  assert (is_row sid (participant_student_id x) x = true) as Rx.
  { unfold is_row. rewrite Ex. apply Z.eqb_refl. }
  assert (is_row sid (participant_student_id x) y = true) as Ry.
  { unfold is_row. rewrite Sy. apply Z.eqb_eq. exact Ey. }
  rewrite Rx in H. simpl in H.
  assert (In y (filter (is_row sid (participant_student_id x)) l)) as Hf
    by (apply filter_In; split; assumption).
  destruct (filter (is_row sid (participant_student_id x)) l); [destruct Hf|simpl in H; lia].
Qed.

Lemma find_app_single_fresh {A} (p : A -> bool) l x :
  find p l = None -> p x = true -> find p (l ++ [x]) = Some x.
Proof.
  induction l as [|y l IH]; simpl; intros F Px.
  - rewrite Px. reflexivity.
  - destruct (p y); [discriminate|]. apply IH; assumption.
Qed.

Lemma find_none_forall {A} (p : A -> bool) l :
  (forall x, In x l -> p x = false) -> find p l = None.
Proof.
  intros H. destruct (find p l) as [y|] eqn:F; [|reflexivity].
  apply find_some in F. destruct F as [Hy Py]. rewrite (H y Hy) in Py. discriminate.
Qed.

Lemma store_eta db :
  {| quiz_sessions := quiz_sessions db; questions := questions db;
     session_participants := session_participants db;
     student_answers := student_answers db |} = db.
Proof. destruct db; reflexivity. Qed.

Lemma generate_session_code_cases rc db :
  (exists k, (k < 100)%nat
     /\ fst (SessionCode.generate_session_code rc db) = Ok (rc k)
     /\ session_code_exists db (rc k) = false)
  \/ (fst (SessionCode.generate_session_code rc db) = Raise SessionCode.exhausted
      /\ forall k, (k < 100)%nat -> session_code_exists db (rc k) = true).
Proof.
  unfold SessionCode.generate_session_code, SessionCode.generate_session_code_with.
  destruct (attempt_loop_cases rc (session_code_exists db) SessionCode.max_attempts 0%nat)
    as [All|(k & Hk & Free & Before)].
  - right. rewrite (attempt_loop_exhausted _ _ _ _ _ All). split; [reflexivity|exact All].
  - left. exists k. split; [exact Hk|].
    rewrite (attempt_loop_first_free _ _ _ _ _ k Hk Free Before). split; [reflexivity|exact Free].
Qed.

End TableFacts.

Module ScoreOrderFacts.
Import Float64 Float64Facts ArithFacts ScoringFacts ScoringService LeaderboardFacts.
Local Open Scope Q_scope.

Lemma clamp_mono x y lo hi :
  lo <= hi -> x <= y -> FloatScore.clamp x lo hi <= FloatScore.clamp y lo hi.
Proof.
  intros L H. unfold FloatScore.clamp.
  destruct (Qlt_bool x lo) eqn:A; destruct (Qlt_bool y lo) eqn:B;
    destruct (Qlt_bool hi x) eqn:C; destruct (Qlt_bool hi y) eqn:D;
    try apply Qlt_bool_iff in A; try apply Qlt_bool_false in A;
    try apply Qlt_bool_iff in B; try apply Qlt_bool_false in B;
    try apply Qlt_bool_iff in C; try apply Qlt_bool_false in C;
    try apply Qlt_bool_iff in D; try apply Qlt_bool_false in D; lra.
Qed.

Lemma elapsed_mono s1 s2 start tl :
  (1 <= tl)%Z -> (s1 <= s2)%Z ->
  FloatScore.elapsed s1 start tl <= FloatScore.elapsed s2 start tl.
Proof.
  intros Ht H. unfold FloatScore.elapsed, FloatScore.fl.
  apply clamp_mono.
  - change 0 with (inject_Z 0). rewrite <- Zle_Qle. lia.
  - apply RN_mono. apply Qmult_le_compat_r; [|discriminate].
    rewrite <- Zle_Qle. lia.
Qed.

Lemma penalty_mono s1 s2 start tl :
  (1 <= tl)%Z -> (s1 <= s2)%Z ->
  (FloatScore.penalty s1 start tl <= FloatScore.penalty s2 start tl)%Z.
Proof.
  intros Ht H. unfold FloatScore.penalty, FloatScore.fl.
  pose proof (elapsed_mono s1 s2 start tl Ht H) as E.
  assert (P : 0 < inject_Z tl) by (change 0 with (inject_Z 0); rewrite <- Zlt_Qlt; lia).
  apply Qfloor_resp_le. apply RN_mono.
  apply Qmult_le_compat_r; [|exact SPM_nonneg].
  apply RN_mono. apply Qmult_le_compat_r; [|discriminate].
  apply RN_mono. apply Qmult_le_compat_r; [exact E|].
  apply Qlt_le_weak. apply Qinv_lt_0_compat. exact P.
Qed.

Lemma score_antitone s1 s2 start tl :
  (1 <= tl)%Z -> (s1 <= s2)%Z ->
  (FloatScore.score s2 start tl <= FloatScore.score s1 start tl)%Z.
Proof.
  intros Ht H. unfold FloatScore.score.
  pose proof (penalty_mono s1 s2 start tl Ht H). lia.
Qed.

Lemma py_round1_0 : py_round1 0 = 0.
Proof. vm_compute. reflexivity. Qed.

Lemma py_round1_100 : py_round1 100 = 100.
Proof. vm_compute. reflexivity. Qed.

Lemma round1_range v :
  0 <= num_val v <= 100 -> 0 <= num_val (round1 v) <= 100.
Proof.
  destruct v as [n|x]; cbn [round1 num_val]; [tauto|].
  intros [L U]. split.
  - rewrite <- py_round1_0. apply NullAnswerFacts.py_round1_mono. exact L.
  - rewrite <- py_round1_100. apply NullAnswerFacts.py_round1_mono. exact U.
Qed.

Local Open Scope Z_scope.

(** The loop over a student's answers adds between 700 and 1000 points for
    each correct answer and nothing for the others. *)
Lemma tally_points session answers : forall tp cc tp' cc',
  valid_datetime (question_start_time_of session) = true ->
  forallb scorable answers = true ->
  tally session answers tp cc = Ok (tp', cc') ->
  cc' = cc + Z.of_nat (List.length (filter answered_correctly answers))
  /\ tp + 700 * (cc' - cc) <= tp' <= tp + 1000 * (cc' - cc).
Proof.
  induction answers as [|a rest IH]; intros tp cc tp' cc' Hq Hs H; cbn [tally] in H.
  - injection H as <- <-. cbn [filter List.length]. lia.
  - simpl in Hs. apply andb_prop in Hs. destruct Hs as [Ha Hr].
    cbn [filter]. destruct (answered_correctly a) eqn:C.
    + destruct (scorable_correct a Ha C) as [Hv Ht].
      destruct (answered_correctly_inv a C) as (o & So & Co).
      destruct (score_correct_eval a o _ _ So Co Ht Hv Hq) as [E B].
      rewrite E in H. cbn [bind] in H.
      destruct (IH _ _ _ _ Hq Hr H) as [Ec Bp].
      cbn [List.length]. split; [lia|]. lia.
    + rewrite (score_incorrect a _ _ C) in H. cbn [bind] in H.
      destruct (IH _ _ _ _ Hq Hr H) as [Ec Bp]. split; lia.
Qed.

Lemma score_entry_fields session tq all_answers p e :
  valid_datetime (question_start_time_of session) = true ->
  forallb scorable all_answers = true ->
  score_entry session tq all_answers p = Ok e ->
  let mine := student_answers_of all_answers (participant_student_id p) in
  entry_student_id e = participant_student_id p
  /\ student_name e = username (student p)
  /\ total_questions e = tq
  /\ answered_count e = Z.of_nat (List.length mine)
  /\ correct_count e = Z.of_nat (List.length (filter answered_correctly mine))
  /\ 700 * correct_count e <= total_points e <= 1000 * correct_count e
  /\ (0 <= num_val (percent_correct e) <= 100)%Q
  /\ (exists v, percent_of (correct_count e) (answered_count e) = Ok v
                /\ percent_correct e = round1 v)
  /\ participation e
     = (str_of_Z (answered_count e) ++ "/" ++ str_of_Z (total_questions e))%string.
Proof.
  intros Hq Hs E mine. unfold score_entry in E. fold mine in E.
  assert (Hsa : forallb scorable mine = true) by (apply ListFacts.forallb_filter, Hs).
  destruct (tally_total session mine 0 0 Hq Hsa) as (tp & cc & Et).
  rewrite Et in E. cbn [bind snd fst] in E.
  destruct (tally_points _ _ _ _ _ _ Hq Hsa Et) as [Ec Bp].
  assert (0 <= cc <= Z.of_nat (List.length mine)) as Rc.
  { rewrite Ec. pose proof (filter_length_le answered_correctly mine). lia. }
  destruct (percent_of_total cc (Z.of_nat (List.length mine)) Rc) as (v & Ev & Rv & _).
  rewrite Ev in E. cbn [bind] in E. injection E as <-.
  cbn [entry_student_id student_name total_questions answered_count correct_count
       total_points percent_correct participation].
  repeat split; try reflexivity; try lia.
  - apply (round1_range v Rv).
  - apply (round1_range v Rv).
  - exists v. split; [exact Ev|reflexivity].
Qed.

Lemma dict_set_in {V} k (v : V) d kv :
  In kv (dict_set k v d) -> kv = (k, v) \/ In kv d.
Proof.
  induction d as [|[k' v'] d IH]; simpl.
  - intros [<-|[]]. left. reflexivity.
  - destruct (k' =? k).
    + intros [<-|H]; [left; reflexivity|right; right; exact H].
    + intros [<-|H]; [right; left; reflexivity|].
      destruct (IH H) as [->|H']; [left; reflexivity|right; right; exact H'].
Qed.

Lemma student_scores_values session tq all_answers participants :
  forall scores out,
  student_scores session tq all_answers participants scores = Ok out ->
  forall kv, In kv out ->
    In kv scores
    \/ exists p, In p participants
                 /\ score_entry session tq all_answers p = Ok (snd kv).
Proof.
  induction participants as [|p rest IH]; intros scores out H kv Hin; simpl in H.
  - injection H as <-. left. exact Hin.
  - destruct (score_entry session tq all_answers p) as [e|] eqn:E; [|discriminate].
    cbn [bind] in H. destruct (IH _ _ H kv Hin) as [H1|(p' & Hp & Ep)].
    + apply dict_set_in in H1. destruct H1 as [->|H1]; [|left; exact H1].
      right. exists p. split; [left; reflexivity|exact E].
    + right. exists p'. split; [right; exact Hp|exact Ep].
Qed.

Lemma leaderboard_entries session participants questions all_answers lb e :
  calculate_leaderboard session participants questions all_answers = Ok lb ->
  In e lb ->
  questions <> []
  /\ exists p, In p participants
               /\ score_entry session (Z.of_nat (List.length questions)) all_answers p
                  = Ok (entry e).
Proof.
  unfold calculate_leaderboard. cbv zeta.
  destruct (Z.of_nat (List.length questions) =? 0) eqn:Z0.
  - intros H. injection H as <-. intros [].
  - destruct (student_scores _ _ _ _ _) as [scores|] eqn:S; [|discriminate].
    cbn [bind]. intros H. injection H as <-. intros Hin.
    split; [intros ->; discriminate|].
    assert (In (entry e) (map entry (add_ranks (sort_by key_gt (dict_values scores)))))
      as H by (apply in_map; exact Hin).
    rewrite add_ranks_entry in H.
    apply (Permutation_in _ (SortFacts.sort_by_perm _ _)) in H.
    unfold dict_values in H. apply in_map_iff in H. destruct H as ([k e'] & Ee & Hk).
    cbn [snd] in Ee. subst e'.
    destruct (student_scores_values _ _ _ _ _ _ S _ Hk) as [[]|(p & Hp & Ep)].
    exists p. split; [exact Hp|exact Ep].
Qed.

End ScoreOrderFacts.

Module StableFacts.
Import ListFacts SortFacts ScoringService LeaderboardFacts ScoreOrderFacts.

Section Stable.
Context {A : Type} (before : A -> A -> bool).
Hypothesis not_before_trans :
  forall x y z, before y x = false -> before z y = false -> before z x = false.

Lemma insert_by_class c x l :
  filter (fun y => negb (before c y) && negb (before y c)) (insert_by before x l)
  = if negb (before c x) && negb (before x c)
    then x :: filter (fun y => negb (before c y) && negb (before y c)) l
    else filter (fun y => negb (before c y) && negb (before y c)) l.
Proof.
  induction l as [|y l IH]; [reflexivity|].
  cbn [insert_by]. destruct (before y x) eqn:B; [|reflexivity].
  cbn [filter]. rewrite IH.
  destruct (negb (before c x) && negb (before x c)) eqn:Tx;
    destruct (negb (before c y) && negb (before y c)) eqn:Ty; try reflexivity.
  apply andb_prop in Tx, Ty. destruct Tx as [T1 T2], Ty as [T3 T4].
  apply negb_true_iff in T1, T2, T3, T4.
  rewrite (not_before_trans x c y T1 T4) in B. discriminate.
Qed.

Lemma sort_by_stable c l :
  filter (fun y => negb (before c y) && negb (before y c)) (sort_by before l)
  = filter (fun y => negb (before c y) && negb (before y c)) l.
Proof.
  induction l as [|x l IH]; [reflexivity|].
  cbn [sort_by]. rewrite insert_by_class, IH. reflexivity.
Qed.

End Stable.

Lemma insert_by_first {A} (before : A -> A -> bool) x l :
  (forall y, In y l -> before y x = false) -> insert_by before x l = x :: l.
Proof.
  destruct l as [|y l]; [reflexivity|]. intros H. cbn [insert_by].
  rewrite (H y (or_introl eq_refl)). reflexivity.
Qed.

Lemma sort_by_all_tied {A} (before : A -> A -> bool) l :
  (forall x y, In x l -> In y l -> before y x = false) -> sort_by before l = l.
Proof.
  induction l as [|x l IH]; [reflexivity|]. intros H.
  cbn [sort_by]. rewrite IH by (intros a b Ha Hb; apply H; right; assumption).
  apply insert_by_first. intros y Hy. apply H; [left; reflexivity|right; exact Hy].
Qed.

(** With distinct students the loop over the participants appends one entry
    for each, in their order. *)
Lemma student_scores_entries session tq all_answers participants :
  forall scores : list (Z * ScoreEntry),
  NoDup (map fst scores ++ map (fun p : ParticipantObj => participant_student_id p) participants) ->
  forall out,
  student_scores session tq all_answers participants scores = Ok out ->
  exists es : list (Z * ScoreEntry),
    out = scores ++ es
    /\ Forall2 (fun (p : ParticipantObj) ke =>
                  fst ke = participant_student_id p
                  /\ score_entry session tq all_answers p = Ok (snd ke))
               participants es.
Proof.
  induction participants as [|p rest IH]; intros scores Hd out H; simpl in H.
  - injection H as <-. exists []. rewrite app_nil_r. split; [reflexivity|constructor].
  - destruct (score_entry session tq all_answers p) as [e|] eqn:E; [|discriminate].
    cbn [bind] in H. simpl in Hd.
    assert (Fresh : ~ In (participant_student_id p) (map fst scores)).
    { apply NoDup_remove_2 in Hd. intros C. apply Hd. apply in_or_app. left. exact C. }
    rewrite (dict_set_fresh _ _ _ Fresh) in H.
    destruct (IH (scores ++ [(participant_student_id p, e)])) with (out := out)
      as (es & Eo & F2).
    + rewrite map_app. simpl. rewrite <- app_assoc. simpl. exact Hd.
    + exact H.
    + exists ((participant_student_id p, e) :: es). split.
      * rewrite Eo, <- app_assoc. reflexivity.
      * constructor; [split; [reflexivity|exact E]|exact F2].
Qed.

Lemma leaderboard_values session participants questions all_answers lb :
  questions <> [] ->
  NoDup (map (fun p : ParticipantObj => participant_student_id p) participants) ->
  calculate_leaderboard session participants questions all_answers = Ok lb ->
  exists es : list (Z * ScoreEntry),
    lb = add_ranks (sort_by key_gt (map snd es))
    /\ Forall2 (fun (p : ParticipantObj) ke =>
                  fst ke = participant_student_id p
                  /\ score_entry session (Z.of_nat (List.length questions)) all_answers p
                     = Ok (snd ke))
               participants es.
Proof.
  intros Hne Hd. unfold calculate_leaderboard. cbv zeta.
  destruct (Z.of_nat (List.length questions) =? 0) eqn:Z0.
  - apply Z.eqb_eq in Z0. destruct questions; [destruct (Hne eq_refl)|simpl in Z0; lia].
  - destruct (student_scores _ _ _ _ _) as [scores|] eqn:S; [|discriminate].
    cbn [bind]. intros H. injection H as <-.
    destruct (student_scores_entries _ _ _ _ [] Hd _ S) as (es & -> & F2).
    exists es. split; [reflexivity|exact F2].
Qed.

Lemma class_order session tq all_answers (c : ScoreEntry) participants :
  forall es : list (Z * ScoreEntry),
  Forall2 (fun (p : ParticipantObj) ke =>
             fst ke = participant_student_id p
             /\ score_entry session tq all_answers p = Ok (snd ke))
          participants es ->
  map entry_student_id (filter (same_key c) (map snd es))
  = map (fun p : ParticipantObj => participant_student_id p)
        (filter (fun p => match score_entry session tq all_answers p with
                          | Ok e => same_key c e
                          | Raise _ => false
                          end) participants).
Proof.
  intros es F2. induction F2 as [|p [k e] ps es [Hk He] _ IH]; [reflexivity|].
  cbn [map filter snd fst] in *. rewrite He.
  destruct (same_key c e); [|exact IH].
  cbn [map]. rewrite IH. f_equal.
  unfold score_entry in He.
  destruct (tally _ _ _ _); [|discriminate]. cbn [bind] in He.
  destruct (percent_of _ _); [|discriminate]. cbn [bind] in He.
  injection He as <-. reflexivity.
Qed.

End StableFacts.

Module DetailFacts.
Import ListFacts ScoringService LeaderboardFacts NullAnswerFacts.

(** [question_map] numbers the questions 1, 2, ... in list order. *)
Lemma question_map_loop (qs : list Question) : forall k (d : list (Z * Z)),
  NoDup (map fst d ++ map question_id qs) ->
  fold_left (fun d iq => dict_set (question_id (snd iq)) (fst iq + 1) d)
            (enumerate k qs) d
  = d ++ map (fun iq => (question_id (snd iq), fst iq + 1)) (enumerate k qs).
Proof.
  induction qs as [|q qs IH]; intros k d N; cbn [enumerate fold_left map].
  - rewrite app_nil_r. reflexivity.
  - cbn [snd fst]. cbn [map] in N.
    assert (~ In (question_id q) (map fst d)) as Fresh.
    { apply NoDup_remove_2 in N. intros C. apply N. apply in_or_app. left. exact C. }
    rewrite (dict_set_fresh _ _ _ Fresh). rewrite IH.
    + rewrite <- app_assoc. reflexivity.
    + rewrite map_app. cbn [map fst]. rewrite <- app_assoc. exact N.
Qed.

Lemma dict_get_enumerated (qs : list Question) : forall k i q,
  NoDup (map question_id qs) -> nth_error qs i = Some q ->
  dict_get (question_id q)
           (map (fun iq => (question_id (snd iq), fst iq + 1)) (enumerate k qs))
  = Some (k + Z.of_nat i + 1).
Proof.
  induction qs as [|q0 qs IH]; intros k i q N Hn; [destruct i; discriminate|].
  cbn [enumerate map snd fst dict_get].
  apply NoDup_cons_iff in N. destruct N as [N0 N].
  destruct i as [|i]; cbn [nth_error] in Hn.
  - injection Hn as ->. rewrite Z.eqb_refl. f_equal. lia.
  - destruct (question_id q0 =? question_id q) eqn:E.
    + apply Z.eqb_eq in E. destruct N0. rewrite E. apply in_map.
      apply (nth_error_In _ _ Hn).
    + rewrite (IH (k + 1) i q N Hn). f_equal. lia.
Qed.

Lemma question_map_get qs i q :
  NoDup (map question_id qs) -> nth_error qs i = Some q ->
  dict_get (question_id q) (question_map qs) = Some (Z.of_nat i + 1).
Proof.
  intros N Hn. unfold question_map. rewrite question_map_loop by exact N.
  cbn [app]. rewrite (dict_get_enumerated qs 0 i q N Hn). f_equal.
Qed.

(** The loop that adds the columns, on questions numbered from [k]. *)
Lemma add_question_columns_loop qmap amap : forall qs k cols,
  (forall i q, nth_error qs i = Some q ->
     dict_get (question_id q) qmap = Some (k + Z.of_nat i)) ->
  (forall j, In j (map fst cols) -> j < k) ->
  add_question_columns qmap amap qs cols
  = Ok (cols ++ map (fun iq => (fst iq, answer_cell amap (snd iq))) (enumerate k qs)).
Proof.
  induction qs as [|q qs IH]; intros k cols Hq Hc; cbn [add_question_columns enumerate map].
  - rewrite app_nil_r. reflexivity.
  - rewrite (Hq 0%nat q eq_refl). rewrite Z.add_0_r.
    assert (~ In k (map fst cols)) as Fresh by (intros C; apply Hc in C; lia).
    rewrite (dict_set_fresh _ _ _ Fresh). rewrite (IH (k + 1)).
    + rewrite <- app_assoc. reflexivity.
    + intros i q' Hn. rewrite (Hq (S i) q' Hn). f_equal. lia.
    + intros j Hj. rewrite map_app in Hj. apply in_app_or in Hj.
      destruct Hj as [Hj|[<-|[]]]; [apply Hc in Hj; lia|cbn; lia].
Qed.

Lemma add_question_columns_all questions amap :
  NoDup (map question_id questions) ->
  add_question_columns (question_map questions) amap questions []
  = Ok (map (fun iq => (fst iq, answer_cell amap (snd iq))) (enumerate 1 questions)).
Proof.
  intros N. rewrite (add_question_columns_loop _ amap questions 1 []).
  - reflexivity.
  - intros i q Hn. rewrite (question_map_get _ _ _ N Hn). f_equal. lia.
  - intros j [].
Qed.

Lemma dict_get_columns (f : Question -> char) (l : list Question) : forall k i q,
  nth_error l i = Some q ->
  dict_get (k + Z.of_nat i) (map (fun iq => (fst iq, f (snd iq))) (enumerate k l))
  = Some (f q).
Proof.
  induction l as [|y l IH]; intros k i q H; [destruct i; discriminate|].
  destruct i as [|i]; cbn [nth_error enumerate map dict_get fst snd] in *.
  - injection H as ->. replace (k + Z.of_nat 0) with k by lia.
    rewrite Z.eqb_refl. reflexivity.
  - destruct (k =? k + Z.of_nat (S i)) eqn:E; [apply Z.eqb_eq in E; lia|].
    replace (k + Z.of_nat (S i)) with (k + 1 + Z.of_nat i) by lia.
    apply IH. exact H.
Qed.


End DetailFacts.

Module AnswerMapFacts.
Import ListFacts ScoringService LeaderboardFacts NullAnswerFacts DetailFacts.

Lemma find_app {A} (p : A -> bool) l1 l2 :
  find p (l1 ++ l2) = match find p l1 with Some x => Some x | None => find p l2 end.
Proof.
  induction l1 as [|x l1 IH]; simpl; [reflexivity|]. destruct (p x); [reflexivity|exact IH].
Qed.

Lemma py_chr_ok n c : py_chr n = Ok c -> c = n.
Proof.
  unfold py_chr. destruct (_ && _); [|discriminate]. intros H. injection H as <-. reflexivity.
Qed.

(** A key of the answer map holds the letter of the last answer of the list
    that names the question and has an option. *)
Lemma answer_map_last k l : forall m0 m,
  answer_map l m0 = Ok m ->
  dict_get k m
  = match find (fun a : AnswerObj =>
                  (answer_question_id a =? k)
                  && match selected_option a with Some _ => true | None => false end) (rev l) with
    | Some a => option_map (fun o => 64 + option_order o) (selected_option a)
    | None => dict_get k m0
    end.
Proof.
  induction l as [|a rest IH]; intros m0 m H; cbn [answer_map] in H.
  - injection H as <-. reflexivity.
  - cbn [rev]. rewrite find_app. cbn [find].
    destruct (selected_option a) as [o|] eqn:So.
    + destruct (py_chr (64 + option_order o)) as [c|] eqn:Ec; [|discriminate].
      cbn [bind] in H. apply py_chr_ok in Ec. subst c.
      rewrite (IH _ _ H). destruct (find _ (rev rest)); [reflexivity|].
      rewrite dict_get_set, andb_true_r.
      destruct (answer_question_id a =? k); [rewrite So|]; reflexivity.
    + rewrite (IH _ _ H). destruct (find _ (rev rest)); [reflexivity|].
      rewrite andb_false_r. reflexivity.
Qed.

Lemma answer_map_total l : forall m0,
  (forall (a : AnswerObj) o, In a l -> selected_option a = Some o ->
     0 <= 64 + option_order o < 1114112) ->
  exists m, answer_map l m0 = Ok m.
Proof.
  induction l as [|a rest IH]; intros m0 H; cbn [answer_map]; [eauto|].
  destruct (selected_option a) as [o|] eqn:So.
  - unfold py_chr. destruct (H a o (or_introl eq_refl) So) as [L U].
    apply Z.leb_le in L. apply Z.ltb_lt in U. rewrite L, U. cbn [andb bind].
    apply IH. intros a' o' Hin. apply H. right. exact Hin.
  - apply IH. intros a' o' Hin. apply H. right. exact Hin.
Qed.

Lemma columns_keys (f : Question -> char) (l : list Question) k :
  map fst (map (fun iq : Z * Question => (fst iq, f (snd iq))) (enumerate k l))
  = map (fun i => k + Z.of_nat i) (seq 0 (List.length l)).
Proof.
  rewrite map_map. cbn [fst]. apply enumerate_fst.
Qed.

Lemma detailed_row_eval questions all_answers (e : LeaderboardEntry) r :
  NoDup (map question_id questions) ->
  detailed_row questions all_answers e = Ok r ->
  exists amap,
    answer_map (student_answers_of all_answers (entry_student_id e)) [] = Ok amap
    /\ r = {| result_rank := rank e;
              result_student_name := student_name e;
              result_total_points := total_points e;
              result_percent_correct := percent_correct e;
              result_participation := participation e;
              result_answers :=
                map (fun iq => (fst iq, answer_cell amap (snd iq)))
                    (enumerate 1 questions) |}.
Proof.
  intros N. unfold detailed_row. cbv zeta.
  destruct (answer_map _ _) as [amap|]; [|discriminate]. cbn [bind].
  rewrite (add_question_columns_all questions amap N). cbn [bind].
  intros H. injection H as <-. exists amap. split; reflexivity.
Qed.

Lemma detailed_rows_total questions all_answers :
  NoDup (map question_id questions) ->
  (forall (a : AnswerObj) o, In a all_answers -> selected_option a = Some o ->
     0 <= 64 + option_order o < 1114112) ->
  forall lb : list LeaderboardEntry,
  exists rows,
    detailed_rows questions all_answers lb = Ok rows
    /\ Forall2 (fun (e : LeaderboardEntry) r => detailed_row questions all_answers e = Ok r)
               lb rows.
Proof.
  intros N Hc lb. induction lb as [|e lb (rows & E & F)]; cbn [detailed_rows].
  - exists []. split; [reflexivity|constructor].
  - destruct (answer_map_total (student_answers_of all_answers (entry_student_id e)) [])
      as (amap & Ea).
    { intros a o Hin. apply Hc. unfold student_answers_of in Hin.
      apply filter_In in Hin. apply Hin. }
    assert (exists r, detailed_row questions all_answers e = Ok r) as (r & Er).
    { unfold detailed_row. cbv zeta. rewrite Ea. cbn [bind].
      rewrite (add_question_columns_all questions amap N). cbn [bind]. eauto. }
    rewrite Er, E. cbn [bind]. exists (r :: rows). split; [reflexivity|].
    constructor; assumption.
Qed.

End AnswerMapFacts.

Module PercentFacts.
Import Float64 Float64Facts ArithFacts ScoringFacts ScoringService LeaderboardFacts
       ScoreOrderFacts.

Lemma percent_of_all n : 0 < n -> percent_of n n = Ok (PyFloat 100).
Proof.
  intros N. unfold percent_of.
  assert ((n >? 0) = true) as G by (apply Z.gtb_lt; exact N). rewrite G.
  assert ((n =? 0) = false) as NZ by (apply Z.eqb_neq; lia).
  unfold int_true_div. rewrite NZ. unfold float_result.
  assert (inject_Z n / inject_Z n == 1)%Q as E.
  { apply Qmult_inv_r. intros C. apply (inject_Z_injective n 0) in C. lia. }
  rewrite (RN_comp _ _ E). vm_compute. reflexivity.
Qed.

Lemma percent_of_none n : 0 < n -> percent_of 0 n = Ok (PyFloat 0).
Proof.
  intros N. unfold percent_of.
  assert ((n >? 0) = true) as G by (apply Z.gtb_lt; exact N). rewrite G.
  assert ((n =? 0) = false) as NZ by (apply Z.eqb_neq; lia).
  unfold int_true_div. rewrite NZ. unfold float_result.
  assert (inject_Z 0 / inject_Z n == 0)%Q as E.
  { unfold Qdiv. change (inject_Z 0) with 0%Q. ring. }
  rewrite (RN_comp _ _ E). vm_compute. reflexivity.
Qed.

Lemma filter_all {A} (p : A -> bool) l : forallb p l = true -> filter p l = l.
Proof.
  induction l as [|x l IH]; simpl; [reflexivity|].
  intros H. apply andb_prop in H. destruct H as [Hx Hl]. rewrite Hx, (IH Hl). reflexivity.
Qed.

Lemma filter_none {A} (p : A -> bool) l :
  forallb (fun x => negb (p x)) l = true -> filter p l = [].
Proof.
  induction l as [|x l IH]; simpl; [reflexivity|].
  intros H. apply andb_prop in H. destruct H as [Hx Hl].
  apply negb_true_iff in Hx. rewrite Hx. exact (IH Hl).
Qed.

(** Without answers every participant gets the same entry but for the id
    and the name. *)
Lemma student_scores_no_answers session tq participants :
  forall scores : list (Z * ScoreEntry),
  NoDup (map fst scores ++ map (fun p : ParticipantObj => participant_student_id p) participants) ->
  student_scores session tq [] participants scores
  = Ok (scores
        ++ map (fun p : ParticipantObj =>
                  (participant_student_id p,
                   {| entry_student_id := participant_student_id p;
                      student_name := username (student p);
                      total_points := 0; correct_count := 0;
                      total_questions := tq; answered_count := 0;
                      percent_correct := PyInt 0;
                      participation := (str_of_Z 0 ++ "/" ++ str_of_Z tq)%string |}))
               participants).
Proof.
  induction participants as [|p rest IH]; intros scores Hd; cbn [student_scores map].
  - rewrite app_nil_r. reflexivity.
  - change (score_entry session tq [] p)
      with (Ok {| entry_student_id := participant_student_id p;
                  student_name := username (student p);
                  total_points := 0; correct_count := 0;
                  total_questions := tq; answered_count := 0;
                  percent_correct := PyInt 0;
                  participation := (str_of_Z 0 ++ "/" ++ str_of_Z tq)%string |}).
    cbn [bind]. cbn [map] in Hd.
    assert (Fresh : ~ In (participant_student_id p) (map fst scores)).
    { apply NoDup_remove_2 in Hd. intros C. apply Hd. apply in_or_app. left. exact C. }
    rewrite (dict_set_fresh _ _ _ Fresh). rewrite IH.
    + rewrite <- app_assoc. reflexivity.
    + rewrite map_app. cbn [map fst]. rewrite <- app_assoc. exact Hd.
Qed.

End PercentFacts.

Module TallyFacts.
Import Float64 Float64Facts ArithFacts ScoringFacts ScoringService LeaderboardFacts
       ScoreOrderFacts ListFacts.

(** When every correct answer of the list scores [c] the loop adds [c] for
    each of them. *)
Lemma tally_uniform session c answers : forall tp cc,
  (forall a, In a answers -> answered_correctly a = true ->
     calculate_answer_score a (question_start_time_of session)
                            (time_limit (answer_question a)) = Ok c) ->
  tally session answers tp cc
  = Ok (tp + c * Z.of_nat (List.length (filter answered_correctly answers)),
        cc + Z.of_nat (List.length (filter answered_correctly answers))).
Proof.
  induction answers as [|a rest IH]; intros tp cc H; cbn [tally filter].
  - cbn [List.length Z.of_nat]. f_equal. f_equal; lia.
  - destruct (answered_correctly a) eqn:C.
    + rewrite (H a (or_introl eq_refl) C). cbn [bind].
      rewrite IH by (intros a' Hin; apply H; right; exact Hin).
      cbn [List.length]. f_equal. f_equal; lia.
    + rewrite (score_incorrect a _ _ C). cbn [bind].
      rewrite IH by (intros a' Hin; apply H; right; exact Hin).
      f_equal. f_equal; lia.
Qed.

Lemma score_entry_uniform session tq all_answers (p : ParticipantObj) e c :
  (forall a : AnswerObj,
     In a (student_answers_of all_answers (participant_student_id p)) ->
     answered_correctly a = true ->
     calculate_answer_score a (question_start_time_of session)
                            (time_limit (answer_question a)) = Ok c) ->
  score_entry session tq all_answers p = Ok e ->
  total_points e = c * correct_count e.
Proof.
  intros H E. unfold score_entry in E.
  rewrite (tally_uniform session c _ 0 0 H) in E. cbn [bind fst snd] in E.
  destruct (percent_of _ _); [|discriminate]. cbn [bind] in E.
  injection E as <-. cbn [total_points correct_count]. lia.
Qed.

Lemma score_late (a : AnswerObj) start :
  scorable a = true -> answered_correctly a = true -> valid_datetime start = true ->
  start + time_limit (answer_question a) * 1000000 <= submitted_at a ->
  calculate_answer_score a start (time_limit (answer_question a)) = Ok 700.
Proof.
  intros Hs C Hq L.
  destruct (scorable_correct a Hs C) as [Hv Ht].
  destruct (answered_correctly_inv a C) as (o & So & Co).
  destruct (score_correct_eval a o start _ So Co Ht Hv Hq) as [E _].
  rewrite E. f_equal. apply score_at_limit; [lia|].
  apply elapsed_limit; [exact Ht|exact L].
Qed.

Lemma score_early (a : AnswerObj) start :
  scorable a = true -> answered_correctly a = true -> valid_datetime start = true ->
  submitted_at a <= start ->
  calculate_answer_score a start (time_limit (answer_question a)) = Ok 1000.
Proof.
  intros Hs C Hq L.
  destruct (scorable_correct a Hs C) as [Hv Ht].
  destruct (answered_correctly_inv a C) as (o & So & Co).
  destruct (score_correct_eval a o start _ So Co Ht Hv Hq) as [E _].
  rewrite E. f_equal. apply score_at_zero; [lia|].
  apply elapsed_zero; [lia|exact L].
Qed.

Lemma student_scores_same_answers session tq A B participants :
  (forall p : ParticipantObj, In p participants ->
     student_answers_of A (participant_student_id p)
     = student_answers_of B (participant_student_id p)) ->
  forall scores,
    student_scores session tq A participants scores
    = student_scores session tq B participants scores.
Proof.
  induction participants as [|p rest IH]; intros H scores; cbn [student_scores];
    [reflexivity|].
  assert (score_entry session tq A p = score_entry session tq B p) as E.
  { unfold score_entry. rewrite (H p (or_introl eq_refl)). reflexivity. }
  rewrite E. destruct (score_entry session tq B p); [|reflexivity]. cbn [bind].
  apply IH. intros p' Hp. apply H. right. exact Hp.
Qed.

Lemma submit_answer_reads_answers_only db1 db2 now s st q o :
  student_answers db1 = student_answers db2 ->
  student_answers (fst (ScoringDataAccess.submit_answer db1 now s st q o))
  = student_answers (fst (ScoringDataAccess.submit_answer db2 now s st q o))
  /\ snd (ScoringDataAccess.submit_answer db1 now s st q o)
     = snd (ScoringDataAccess.submit_answer db2 now s st q o).
Proof.
  intros E. unfold ScoringDataAccess.submit_answer, ScoringDataAccess.get_student_answer,
    ScoringDataAccess.create_answer. rewrite E.
  destruct (find _ (student_answers db2));
    cbn [fst snd student_answers with_student_answers]; rewrite ?E; split; reflexivity.
Qed.

End TallyFacts.

Module ZeroLimitFacts.
Import Float64 Float64Facts ArithFacts ScoringFacts ScoringService LeaderboardFacts
       ScoreOrderFacts ListFacts.

Lemma zero_limit_raises (a : AnswerObj) start :
  answered_correctly a = true -> time_limit (answer_question a) = 0 ->
  valid_datetime (submitted_at a) = true -> valid_datetime start = true ->
  calculate_answer_score a start (time_limit (answer_question a)) = Raise ZeroDivisionError.
Proof.
  intros C Z0 Hv Hq. rewrite Z0.
  destruct (answered_correctly_inv a C) as (o & So & Co).
  apply (score_zero_limit a o start So Co Hv Hq).
Qed.

Lemma tally_ok_or_zero session answers : forall tp cc,
  valid_datetime (question_start_time_of session) = true ->
  (forall a : AnswerObj, In a answers ->
     scorable a = true
     \/ (answered_correctly a = true /\ time_limit (answer_question a) = 0
         /\ valid_datetime (submitted_at a) = true)) ->
  (exists tp' cc', tally session answers tp cc = Ok (tp', cc'))
  \/ tally session answers tp cc = Raise ZeroDivisionError.
Proof.
  induction answers as [|a rest IH]; intros tp cc Hq H; cbn [tally].
  - left. eauto.
  - destruct (H a (or_introl eq_refl)) as [Sa|(C & Z0 & Hv)].
    + destruct (score_total a _ Hq Sa) as (score & E & _). rewrite E. cbn [bind].
      apply IH; [exact Hq|]. intros a' Ha'. apply H. right. exact Ha'.
    + right. rewrite (zero_limit_raises a _ C Z0 Hv Hq). reflexivity.
Qed.

Lemma tally_raises session answers : forall tp cc,
  valid_datetime (question_start_time_of session) = true ->
  (forall a : AnswerObj, In a answers ->
     scorable a = true
     \/ (answered_correctly a = true /\ time_limit (answer_question a) = 0
         /\ valid_datetime (submitted_at a) = true)) ->
  (exists a : AnswerObj, In a answers /\ answered_correctly a = true
                         /\ time_limit (answer_question a) = 0) ->
  tally session answers tp cc = Raise ZeroDivisionError.
Proof.
  induction answers as [|a rest IH]; intros tp cc Hq H (b & Hb & Cb & Zb); [destruct Hb|].
  cbn [tally].
  destruct (H a (or_introl eq_refl)) as [Sa|(C & Z0 & Hv)].
  - destruct (score_total a _ Hq Sa) as (score & E & _). rewrite E. cbn [bind].
    apply IH; [exact Hq| |].
    + intros a' Ha'. apply H. right. exact Ha'.
    + destruct Hb as [<-|Hb]; [|exists b; auto].
      destruct (scorable_correct a Sa Cb) as [_ Ht]. lia.
  - rewrite (zero_limit_raises a _ C Z0 Hv Hq). reflexivity.
Qed.

Lemma score_entry_ok_or_zero session tq all_answers (p : ParticipantObj) :
  valid_datetime (question_start_time_of session) = true ->
  (forall a : AnswerObj, In a all_answers ->
     scorable a = true
     \/ (answered_correctly a = true /\ time_limit (answer_question a) = 0
         /\ valid_datetime (submitted_at a) = true)) ->
  (exists e, score_entry session tq all_answers p = Ok e)
  \/ score_entry session tq all_answers p = Raise ZeroDivisionError.
Proof.
  intros Hq H. unfold score_entry.
  set (mine := student_answers_of all_answers (participant_student_id p)).
  assert (forall a : AnswerObj, In a mine ->
            scorable a = true
            \/ (answered_correctly a = true /\ time_limit (answer_question a) = 0
                /\ valid_datetime (submitted_at a) = true)) as Hm.
  { intros a Ha. apply H. unfold mine, student_answers_of in Ha.
    apply filter_In in Ha. apply Ha. }
  destruct (tally_ok_or_zero session mine 0 0 Hq Hm) as [(tp & cc & E)|E].
  - left. rewrite E. cbn [bind fst snd].
    pose proof (tally_bounds _ _ _ _ _ _ E) as B.
    destruct (percent_of_total cc (Z.of_nat (List.length mine)) ltac:(lia)) as (v & Ev & _).
    rewrite Ev. cbn [bind]. eauto.
  - right. rewrite E. reflexivity.
Qed.

Lemma score_entry_raises session tq all_answers (p : ParticipantObj) :
  valid_datetime (question_start_time_of session) = true ->
  (forall a : AnswerObj, In a all_answers ->
     scorable a = true
     \/ (answered_correctly a = true /\ time_limit (answer_question a) = 0
         /\ valid_datetime (submitted_at a) = true)) ->
  (exists a : AnswerObj, In a all_answers
     /\ answer_student_id a = participant_student_id p
     /\ answered_correctly a = true /\ time_limit (answer_question a) = 0) ->
  score_entry session tq all_answers p = Raise ZeroDivisionError.
Proof.
  intros Hq H (b & Hb & Ib & Cb & Zb). unfold score_entry.
  rewrite (tally_raises session _ 0 0 Hq); [reflexivity| |].
  - intros a Ha. apply H. unfold student_answers_of in Ha. apply filter_In in Ha. apply Ha.
  - exists b. split; [|auto]. unfold student_answers_of. apply filter_In.
    split; [exact Hb|]. apply Z.eqb_eq. exact Ib.
Qed.

Lemma student_scores_raises session tq all_answers participants :
  valid_datetime (question_start_time_of session) = true ->
  (forall a : AnswerObj, In a all_answers ->
     scorable a = true
     \/ (answered_correctly a = true /\ time_limit (answer_question a) = 0
         /\ valid_datetime (submitted_at a) = true)) ->
  (exists (p : ParticipantObj) (a : AnswerObj),
     In p participants /\ In a all_answers
     /\ answer_student_id a = participant_student_id p
     /\ answered_correctly a = true /\ time_limit (answer_question a) = 0) ->
  forall scores,
    student_scores session tq all_answers participants scores = Raise ZeroDivisionError.
Proof.
  intros Hq H. induction participants as [|p rest IH];
    intros (p0 & a & Hp & Ha & Ia & Ca & Za) scores; [destruct Hp|].
  cbn [student_scores].
  destruct (score_entry_ok_or_zero session tq all_answers p Hq H) as [(e & E)|E].
  - rewrite E. cbn [bind]. apply IH.
    destruct Hp as [<-|Hp]; [|exists p0, a; auto].
    rewrite (score_entry_raises session tq all_answers p Hq H) in E; [discriminate|].
    exists a. auto.
  - rewrite E. reflexivity.
Qed.

End ZeroLimitFacts.

(* ================================================================== *)
(** ** Session lifecycle *)
(* ================================================================== *)

(** X1.  [start_session] refuses an unknown session with "Session not found"
    and a session whose quiz has no stored question with "Quiz has no
    questions"; these are its only failures, and a failed call leaves the
    store as it was. *)
Theorem start_session_refusals (db : Store) (now : datetime) (sid : uuid) :
  let r := start_session db now sid in
  (get_session_by_id db sid = None -> r = (db, failure "Session not found"))
  /\ (forall session,
        get_session_by_id db sid = Some session ->
        (forall q, In q (questions db) -> question_quiz_id q <> quiz_id session) ->
        r = (db, failure "Quiz has no questions"))
  /\ (success (snd r) = false ->
      fst r = db
      /\ (get_session_by_id db sid = None
          \/ exists session,
               get_session_by_id db sid = Some session
               /\ forall q, In q (questions db) -> question_quiz_id q <> quiz_id session)).
Proof.
  cbv zeta. split; [|split].
  - intros G. unfold start_session. rewrite G. reflexivity.
  - intros session G Hq.
    pose proof (LifecycleFacts.start_session_cases db now sid session G) as C.
    apply LifecycleFacts.quiz_questions_nil in Hq. rewrite Hq in C. exact C.
  - destruct (get_session_by_id db sid) as [session|] eqn:G.
    + pose proof (LifecycleFacts.start_session_cases db now sid session G) as C.
      destruct (get_questions_by_quiz db (quiz_id session)) as [|first rest] eqn:Eq.
      * rewrite C. intros _. split; [reflexivity|]. right. exists session.
        split; [reflexivity|]. apply LifecycleFacts.quiz_questions_nil. exact Eq.
      * destruct C as [C _]. rewrite C. cbn [snd success]. discriminate.
    + unfold start_session. rewrite G. intros _. split; [reflexivity|]. left. reflexivity.
Qed.

Lemma start_session_refusals_witness :
  start_session Example.store0 Example.t0 6 = (Example.store0, failure "Session not found").
Proof.
  apply (start_session_refusals Example.store0 Example.t0 6). reflexivity.
Defined.

(** X2.  When the session exists and its quiz has a question,
    [start_session] succeeds whatever the status was: the stored session
    becomes ACTIVE, its pointer stands on the question of the quiz with the
    least [question_order], [start_time] is the time of the call only if it
    was unset, and [end_time] is kept as it was. *)
Theorem start_session_effect (db : Store) (now : datetime) (sid : uuid)
    (session : QuizSession) (first : Question) (rest : list Question) :
  get_session_by_id db sid = Some session ->
  get_questions_by_quiz db (quiz_id session) = first :: rest ->
  let r := start_session db now sid in
  exists session',
    snd r = {| success := true; message := None; payload := Some session' |}
    /\ get_session_by_id (fst r) sid = Some session'
    /\ status session' = ACTIVE
    /\ current_question_id session' = Some (question_id first)
    /\ start_time session'
       = Some (match start_time session with Some t => t | None => now end)
    /\ end_time session' = end_time session
    /\ In first (questions db) /\ question_quiz_id first = quiz_id session
    /\ (forall q, In q (questions db) -> question_quiz_id q = quiz_id session ->
          question_order first <= question_order q).
Proof.
  intros G Eq r.
  pose proof (LifecycleFacts.start_session_cases db now sid session G) as C.
  rewrite Eq in C. destruct C as [C1 C2].
  exists (set_current_question (question_id first) (set_status ACTIVE now session)).
  assert (In first (get_questions_by_quiz db (quiz_id session))) as Hin
    by (rewrite Eq; left; reflexivity).
  apply LifecycleFacts.quiz_questions_in in Hin. destruct Hin as [Hin Hz].
  split; [unfold r; rewrite C1; reflexivity|].
  split; [exact C2|]. split; [reflexivity|]. split; [reflexivity|].
  split; [cbn; destruct (start_time session); reflexivity|].
  split; [reflexivity|]. split; [exact Hin|]. split; [exact Hz|].
  intros q Hq Hqz.
  assert (In q (get_questions_by_quiz db (quiz_id session))) as Hq'
    by (apply LifecycleFacts.quiz_questions_in; split; assumption).
  pose proof (SessionFacts.quiz_questions_sorted db (quiz_id session)) as S.
  rewrite Eq in S, Hq'. destruct Hq' as [<-|Hq']; [lia|].
  apply StronglySorted_inv in S. destruct S as [_ S].
  rewrite Forall_forall in S. apply S. exact Hq'.
Qed.

Lemma start_session_effect_witness :
  exists session',
    get_session_by_id (fst (start_session Example.store0 Example.t0 5)) 5 = Some session'
    /\ status session' = ACTIVE
    /\ current_question_id session' = Some 11
    /\ start_time session' = Some Example.t0.
Proof.
  destruct (start_session_effect Example.store0 Example.t0 5 Example.session_pending
              Example.q1 [Example.q2] eq_refl eq_refl)
    as (s & _ & G & St & Cq & Ts & _).
  exists s. split; [exact G|]. split; [exact St|]. split; [exact Cq|exact Ts].
Defined.

(** X3.  Whatever sequence of [start_session], [next_question] and
    [end_session] calls is applied to a session, the session stays stored
    under its id with the same quiz, code and creation time, and a
    [start_time] or [end_time] that has been set is never changed again. *)
Theorem session_timestamps_set_once (sid : uuid) (cs : list Command) (db : Store)
    (session : QuizSession) :
  get_session_by_id db sid = Some session ->
  exists session',
    get_session_by_id (run_commands sid db cs) sid = Some session'
    /\ session_id session' = session_id session
    /\ quiz_id session' = quiz_id session
    /\ session_code session' = session_code session
    /\ created_at session' = created_at session
    /\ (forall t, start_time session = Some t -> start_time session' = Some t)
    /\ (forall t, end_time session = Some t -> end_time session' = Some t).
Proof.
  revert db session. induction cs as [|c cs IH]; intros db session G.
  - exists session. repeat split; auto.
  - change (run_commands sid db (c :: cs))
      with (run_commands sid (run_command sid db c) cs).
    destruct (LifecycleFacts.run_command_row sid db c session G) as (s1 & G1 & Hs).
    destruct (IH _ s1 G1) as (s2 & G2 & I2 & Q2 & C2 & A2 & S2 & E2).
    exists s2. split; [exact G2|].
    assert (session_id s1 = session_id session /\ quiz_id s1 = quiz_id session
            /\ session_code s1 = session_code session
            /\ created_at s1 = created_at session
            /\ (forall t, start_time session = Some t -> start_time s1 = Some t)
            /\ (forall t, end_time session = Some t -> end_time s1 = Some t))
      as (I1 & Q1 & C1 & A1 & S1 & E1).
    { destruct Hs as [->|[(now & qid & _ & ->)|[(qid & _ & ->)|(now & _ & ->)]]];
        repeat split; auto; cbn; intros t Ht; rewrite Ht; reflexivity. }
    repeat split; try congruence; auto.
Qed.

Lemma session_timestamps_set_once_witness :
  exists session',
    get_session_by_id
      (run_commands 5 Example.store_last
         [End_ (Example.t0 + 5); Start (Example.t0 + 9); Next; End_ (Example.t0 + 20)]) 5
    = Some session'
    /\ start_time session' = Some Example.t0.
Proof.
  destruct (session_timestamps_set_once 5
              [End_ (Example.t0 + 5); Start (Example.t0 + 9); Next; End_ (Example.t0 + 20)]
              Example.store_last Example.session_last eq_refl)
    as (s & G & _ & _ & _ & _ & S & _).
  exists s. split; [exact G|]. apply S. reflexivity.
Defined.

(** X4.  [end_session] closes a stored session, stamps [end_time] with the
    time of the call unless one is already set, and touches neither the
    pointer nor [start_time]; a second call, at whatever time, leaves the
    store exactly as the first left it.  On an unknown id it returns [None]
    and changes nothing. *)
Theorem end_session_idempotent (db : Store) (now now' : datetime) (sid : uuid) :
  let db1 := fst (end_session db now sid) in
  fst (end_session db1 now' sid) = db1
  /\ (forall session,
        get_session_by_id db sid = Some session ->
        exists closed,
          snd (end_session db now sid) = Some closed
          /\ get_session_by_id db1 sid = Some closed
          /\ status closed = CLOSED
          /\ end_time closed
             = Some (match end_time session with Some t => t | None => now end)
          /\ current_question_id closed = current_question_id session
          /\ start_time closed = start_time session)
  /\ (get_session_by_id db sid = None -> end_session db now sid = (db, None)).
Proof.
  cbv zeta. split; [|split].
  - unfold end_session.
    destruct (get_session_by_id db sid) as [session|] eqn:G.
    + pose proof (SessionFacts.get_after_update_status db now sid CLOSED session G) as G1.
      unfold update_status at 1. rewrite G1.
      unfold update_status. rewrite G. cbn [fst].
      unfold with_quiz_sessions. cbn [quiz_sessions questions session_participants
                                      student_answers].
      f_equal. rewrite RowFacts.update_first_twice by (intros x Hx; exact Hx).
      apply RowFacts.update_first_ext. intros x _.
      apply WalkFacts.set_status_closed_twice.
    + unfold update_status. rewrite G. cbn [fst]. rewrite G. reflexivity.
  - intros session G. exists (set_status CLOSED now session).
    split; [unfold end_session, update_status; rewrite G; reflexivity|].
    split; [apply SessionFacts.get_after_update_status; exact G|].
    split; [reflexivity|].
    split; [cbn; destruct (end_time session); reflexivity|].
    split; reflexivity.
  - intros G. unfold end_session, update_status. rewrite G. reflexivity.
Qed.

Lemma end_session_idempotent_witness :
  exists closed,
    get_session_by_id (fst (end_session Example.store_last (Example.t0 + 7) 5)) 5
    = Some closed
    /\ status closed = CLOSED /\ end_time closed = Some (Example.t0 + 7).
Proof.
  destruct (end_session_idempotent Example.store_last (Example.t0 + 7) Example.t0 5)
    as (_ & H & _).
  destruct (H Example.session_last eq_refl) as (c & _ & G & S & E & _).
  exists c. split; [exact G|]. split; [exact S|exact E].
Defined.

(** X5.  Once a session has been ended nobody can join it: [join_session]
    with its code answers "This session has ended" and adds no participant. *)
Theorem join_after_end_refused (db : Store) (now now' : datetime) (sid : uuid)
    (code : string) (student_id : uuid) (session : QuizSession) :
  get_session_by_id db sid = Some session ->
  get_session_by_code db code = Some session ->
  let db1 := fst (end_session db now sid) in
  join_session db1 now' code student_id = (db1, failure "This session has ended").
Proof.
  intros G Gc db1.
  assert (get_session_by_code db1 code = Some (set_status CLOSED now session)) as G1.
  { unfold db1, end_session, update_status. rewrite G. cbn [fst].
    unfold get_session_by_code. cbn [quiz_sessions with_quiz_sessions].
    apply (RowFacts.find_same_row (has_id sid)); [reflexivity|exact G|exact Gc]. }
  unfold join_session. rewrite G1. reflexivity.
Qed.

Lemma join_after_end_refused_witness :
  join_session (fst (end_session Example.store0 Example.t0 5)) Example.t0 "12345" 7
  = (fst (end_session Example.store0 Example.t0 5), failure "This session has ended").
Proof.
  apply (join_after_end_refused Example.store0 Example.t0 Example.t0 5 "12345" 7
           Example.session_pending); reflexivity.
Defined.

(** X6.  The lifecycle calls on one session never touch the questions, the
    participants or the answers, never add, remove or reorder session rows,
    never change a session code, and leave every other session as it was. *)
Theorem lifecycle_commands_frame (sid : uuid) (cs : list Command) (db : Store) :
  let db' := run_commands sid db cs in
  questions db' = questions db
  /\ session_participants db' = session_participants db
  /\ student_answers db' = student_answers db
  /\ map session_id (quiz_sessions db') = map session_id (quiz_sessions db)
  /\ map session_code (quiz_sessions db') = map session_code (quiz_sessions db)
  /\ (forall sid', sid' <> sid -> get_session_by_id db' sid' = get_session_by_id db sid').
Proof.
  exact (LifecycleFacts.run_commands_frame sid cs db).
Qed.

Lemma lifecycle_commands_frame_witness :
  get_session_by_id (run_commands 5 Example.store0 [Start Example.t0; Next]) 6
  = get_session_by_id Example.store0 6.
Proof.
  apply (lifecycle_commands_frame 5 [Start Example.t0; Next] Example.store0). discriminate.
Defined.

(** X7.  With distinct question ids, starting a session and then calling
    [next_question] k times leaves the pointer on the (k+1)-th question of
    the quiz in [question_order], for every k below the number of questions;
    from the last question on every further call answers "No more
    questions" and the pointer stays on the last question. *)
Theorem next_question_walks_quiz (db : Store) (now : datetime) (sid : uuid)
    (session : QuizSession) (k : nat) :
  NoDup (map question_id (questions db)) ->
  get_session_by_id db sid = Some session ->
  let qs := get_questions_by_quiz db (quiz_id session) in
  qs <> [] ->
  let db_k := run_commands sid db (Start now :: repeat Next k) in
  option_map current_question_id (get_session_by_id db_k sid)
  = Some (option_map question_id (nth_error qs (Nat.min k (List.length qs - 1))))
  /\ ((List.length qs - 1 <= k)%nat ->
      next_question db_k sid = (db_k, failure "No more questions")).
Proof.
  intros Hd G qs Hne db_k.
  destruct (WalkFacts.walk_state db now sid session Hd G Hne k)
    as (s & q & Gs & Qs & Fq & Nq & Cq).
  fold qs in Nq. fold db_k in Gs, Fq.
  split.
  - rewrite Gs, Nq. cbn [option_map]. rewrite Cq. reflexivity.
  - intros Hk.
    pose proof (SessionFacts.next_question_cases db_k sid s Gs) as C. cbv zeta in C.
    rewrite Qs, (WalkFacts.questions_only db db_k _ Fq) in C. fold qs in C.
    assert (NoDup (map question_id qs)) as Hq
      by (apply SessionFacts.quiz_questions_NoDup; exact Hd).
    unfold current_index in C. rewrite Cq in C.
    rewrite (SessionFacts.index_of_nth_error qs _ q 0 Hq Nq) in C.
    rewrite (Nat.min_r k) in C by lia.
    assert (List.length qs <> 0)%nat as Hl.
    { destruct qs; [destruct (Hne eq_refl)|simpl; lia]. }
    replace (Z.to_nat (0 + Z.of_nat (List.length qs - 1) + 1)) with (List.length qs) in C by lia.
    destruct (nth_error qs (List.length qs)) as [next|] eqn:Nn; [|exact C].
    assert (nth_error qs (List.length qs) <> None) as Hc by congruence.
    apply nth_error_Some in Hc. lia.
Qed.

Lemma next_question_walks_quiz_witness :
  option_map current_question_id
    (get_session_by_id (run_commands 5 Example.store0 [Start Example.t0; Next]) 5)
  = Some (Some 12).
Proof.
  refine (proj1 (next_question_walks_quiz Example.store0 Example.t0 5
                   Example.session_pending 1 _ eq_refl _)).
  - simpl. repeat constructor; simpl; intuition discriminate.
  - discriminate.
Defined.

(* ================================================================== *)
(** ** Answers *)
(* ================================================================== *)

(** X8.  Submissions keep the answers table at one row at most for each
    (session, student, question): if that holds of a table, for instance of
    the empty one, it holds after any sequence of [submit_answer] calls,
    which also never touch the other tables. *)
Theorem submissions_keep_one_row_per_key
    (subs : list (datetime * uuid * uuid * uuid * option uuid)) (db : Store) :
  (forall s st q, (count_rows db s st q <= 1)%nat) ->
  let db' := fold_left (fun d '(now, s, st, q, o) => fst (submit_answer d now s st q o))
                       subs db in
  (forall s st q, (count_rows db' s st q <= 1)%nat)
  /\ quiz_sessions db' = quiz_sessions db
  /\ questions db' = questions db
  /\ session_participants db' = session_participants db.
Proof.
  revert db. induction subs as [|[[[[now s] st] q] o] subs IH]; intros db H.
  - cbn. repeat split; [exact H|..]; reflexivity.
  - cbn [fold_left].
    destruct (IH (fst (submit_answer db now s st q o))
                 (InvariantFacts.submit_answer_keeps_unique db now s st q o H))
      as (A & B & C & D).
    split; [exact A|]. rewrite B, C, D.
    unfold submit_answer, create_answer.
    destruct (get_student_answer db s st q); repeat split; reflexivity.
Qed.

Lemma submissions_keep_one_row_per_key_witness :
  let db' :=
    fold_left (fun d '(now, s, st, q, o) => fst (submit_answer d now s st q o))
      [(Example.t0, 5, 7, 11, Some 101); (Example.t0 + 1, 5, 8, 11, None);
       (Example.t0 + 2, 5, 7, 11, Some 103)]
      Example.store0 in
  (count_rows db' 5%Z 7%Z 11%Z <= 1)%nat.
Proof.
  refine (proj1 (submissions_keep_one_row_per_key
                   [(Example.t0, 5, 7, 11, Some 101); (Example.t0 + 1, 5, 8, 11, None);
                    (Example.t0 + 2, 5, 7, 11, Some 103)] Example.store0 _) 5 7 11).
  intros s st q. unfold count_rows. simpl. lia.
Defined.

(** X9.  [submit_answer] changes the answer of its own key only: the lookup
    of every other (session, student, question) returns what it returned
    before, and the table grows by one row when the key had no answer and
    keeps its length otherwise. *)
Theorem submit_answer_frame (db : Store) (now : datetime) (s st q : uuid)
    (o : option uuid) :
  let db' := fst (submit_answer db now s st q o) in
  (forall s' st' q', (s', st', q') <> (s, st, q) ->
     get_student_answer db' s' st' q' = get_student_answer db s' st' q')
  /\ List.length (student_answers db')
     = (List.length (student_answers db)
        + match get_student_answer db s st q with Some _ => 0 | None => 1 end)%nat.
Proof.
  cbv zeta. split.
  - intros s' st' q' N. unfold get_student_answer.
    rewrite !ListFacts.find_filter_head.
    rewrite (AnswerFacts.submit_answer_other_rows db now s st q o s' st' q' N). reflexivity.
  - unfold submit_answer, create_answer.
    destruct (get_student_answer db s st q); cbn [fst student_answers with_student_answers].
    + rewrite ListFacts.update_first_length. lia.
    + rewrite length_app. reflexivity.
Qed.

Lemma submit_answer_frame_witness :
  get_student_answer (fst (submit_answer Example.store0 Example.t0 5 7 11 (Some 101))) 5 8 11
  = get_student_answer Example.store0 5 8 11.
Proof.
  apply (submit_answer_frame Example.store0 Example.t0 5 7 11 (Some 101)). discriminate.
Defined.

(** X10.  The per-student and per-session answer counts rise by one when
    [submit_answer] stores a first answer for its key and stay as they were
    when it replaces one; the counts of other students and sessions do not
    move.  The rows the leaderboard groups under a student, by filtering
    [get_answers_by_session] on the student id, are the rows
    [count_student_answers] counts. *)
Theorem count_student_answers_after_submit (db : Store) (now : datetime)
    (s st q : uuid) (o : option uuid) :
  let db' := fst (submit_answer db now s st q o) in
  let added := match get_student_answer db s st q with Some _ => 0%nat | None => 1%nat end in
  count_student_answers db' s st = (count_student_answers db s st + added)%nat
  /\ count_answers_by_session db' s = (count_answers_by_session db s + added)%nat
  /\ count_answers_by_student db' st = (count_answers_by_student db st + added)%nat
  /\ (forall s' st', (s', st') <> (s, st) ->
        count_student_answers db' s' st' = count_student_answers db s' st')
  /\ (forall s' st',
        List.length (filter (fun a : StudentAnswer => answer_student_id a =? st')
                            (get_answers_by_session db s'))
        = count_student_answers db s' st').
Proof.
  cbv zeta.
  assert (forall (r : StudentAnswer -> bool) (k : bool),
            (forall a, r (overwrite_answer o now a) = r a) ->
            r {| answer_session_id := s; answer_student_id := st; answer_question_id := q;
                 answer_option_id := o; submitted_at := now |} = k ->
            List.length (filter r (student_answers (fst (submit_answer db now s st q o))))
            = (List.length (filter r (student_answers db))
               + match get_student_answer db s st q with
                 | Some _ => 0
                 | None => if k then 1 else 0
                 end)%nat) as K.
  { intros r k Hr Hk. unfold submit_answer, create_answer.
    destruct (get_student_answer db s st q);
      cbn [fst student_answers with_student_answers].
    - rewrite (RowFacts.filter_length_update_first _ r _ _ Hr). lia.
    - rewrite ListFacts.filter_app_single, length_app, Hk. destruct k; reflexivity. }
  split; [|split; [|split; [|split]]].
  - unfold count_student_answers. rewrite (K _ true); [reflexivity|reflexivity|].
    cbn. rewrite !Z.eqb_refl. reflexivity.
  - unfold count_answers_by_session. rewrite (K _ true); [reflexivity|reflexivity|].
    cbn. apply Z.eqb_refl.
  - unfold count_answers_by_student. rewrite (K _ true); [reflexivity|reflexivity|].
    cbn. apply Z.eqb_refl.
  - intros s' st' N. unfold count_student_answers.
    rewrite (K _ false); [destruct (get_student_answer db s st q); lia|reflexivity|].
    cbn. destruct (s =? s') eqn:E1; [|reflexivity].
    destruct (st =? st') eqn:E2; [|reflexivity].
    apply Z.eqb_eq in E1, E2. subst. destruct N. reflexivity.
  - intros s' st'. unfold count_student_answers, get_answers_by_session.
    f_equal. generalize (student_answers db).
    intros l. induction l as [|a l IH]; simpl; [reflexivity|].
    destruct (answer_session_id a =? s'); simpl; [|exact IH].
    destruct (answer_student_id a =? st'); rewrite IH; reflexivity.
Qed.

Lemma count_student_answers_after_submit_witness :
  count_student_answers
    (fst (submit_answer Example.store0 Example.t0 5 7 11 (Some 101))) 5 8
  = count_student_answers Example.store0 5 8.
Proof.
  refine (proj1 (proj2 (proj2 (proj2
            (count_student_answers_after_submit Example.store0 Example.t0 5 7 11
               (Some 101))))) 5 8 _).
  discriminate.
Defined.

(* ================================================================== *)
(** ** Participants and sessions *)
(* ================================================================== *)

(** X11.  Joining keeps the participants table at one row at most for each
    (session, student): if that holds of a table, for instance of the empty
    one, it holds after any sequence of [join_session] calls, so that the
    participants of every session have distinct student ids; joining never
    touches the sessions, the questions or the answers. *)
Theorem joins_keep_one_row_per_student
    (joins : list (datetime * string * uuid)) (db : Store) :
  (forall s t, (List.length (filter (is_row s t) (session_participants db)) <= 1)%nat) ->
  let db' := fold_left (fun d '(now, code, student) =>
                          fst (join_session d now code student)) joins db in
  (forall s t, (List.length (filter (is_row s t) (session_participants db')) <= 1)%nat)
  /\ (forall sid, NoDup (map participant_student_id (get_participants_by_session db' sid)))
  /\ quiz_sessions db' = quiz_sessions db
  /\ questions db' = questions db
  /\ student_answers db' = student_answers db.
Proof.
  revert db. induction joins as [|[[now code] student] joins IH]; intros db H.
  - cbn. split; [exact H|]. split; [|repeat split; reflexivity].
    intros sid. apply TableFacts.participants_distinct. exact H.
  - cbn [fold_left].
    destruct (IH (fst (join_session db now code student))
                 (InvariantFacts.join_session_keeps_unique db now code student H))
      as (A & B & C & D & E).
    split; [exact A|]. split; [exact B|]. rewrite C, D, E.
    unfold join_session, add_participant.
    destruct (get_session_by_code db code) as [session|]; [|repeat split; reflexivity].
    destruct (SessionStatus_eqb (status session) CLOSED); [repeat split; reflexivity|].
    destruct (is_participant db (session_id session) student); repeat split; reflexivity.
Qed.

Lemma joins_keep_one_row_per_student_witness :
  let db' :=
    fold_left (fun d '(now, code, student) => fst (join_session d now code student))
      [(Example.t0, "12345"%string, 7); (Example.t0 + 1, "12345"%string, 8);
       (Example.t0 + 2, "12345"%string, 7)]
      Example.store0 in
  NoDup (map participant_student_id (get_participants_by_session db' 5)).
Proof.
  refine (proj1 (proj2 (joins_keep_one_row_per_student
                   [(Example.t0, "12345"%string, 7); (Example.t0 + 1, "12345"%string, 8);
                    (Example.t0 + 2, "12345"%string, 7)] Example.store0 _)) 5).
  intros s t. simpl. lia.
Defined.

(** X12.  [remove_participant] undoes a join: removing a student who was
    added to a session they were not in gives back the store as it was.
    Removing a student who does not participate returns [False] and changes
    nothing; removing one who does returns [True], lowers the participant
    count of the session by one and touches the rows of no other (session,
    student) pair. *)
Theorem remove_participant_undoes_join (db : Store) (now : datetime)
    (sid student_id : uuid) :
  (is_participant db sid student_id = false ->
   remove_participant db sid student_id = (db, false)
   /\ remove_participant (fst (add_participant db now sid student_id)) sid student_id
      = (db, true))
  /\ (is_participant db sid student_id = true ->
      snd (remove_participant db sid student_id) = true
      /\ S (get_participant_count (fst (remove_participant db sid student_id)) sid)
         = get_participant_count db sid)
  /\ (forall sid' student',
        (sid', student') <> (sid, student_id) ->
        filter (is_row sid' student')
               (session_participants (fst (remove_participant db sid student_id)))
        = filter (is_row sid' student') (session_participants db)).
Proof.
  assert (forall sid' student' x,
            (sid', student') <> (sid, student_id) ->
            is_row sid student_id x = true -> is_row sid' student' x = false) as Other.
  { intros sid' student' x N Hx. unfold is_row in *.
    apply andb_true_iff in Hx. destruct Hx as [H1 H2]. apply Z.eqb_eq in H1, H2.
    destruct (participant_session_id x =? sid') eqn:E1; [|reflexivity].
    destruct (participant_student_id x =? student') eqn:E2; [|reflexivity].
    apply Z.eqb_eq in E1, E2. destruct N. congruence. }
  split; [|split].
  - unfold is_participant. intros Hn.
    destruct (get_participant db sid student_id) eqn:G; [discriminate|].
    split; [unfold remove_participant; rewrite G; reflexivity|].
    unfold remove_participant, add_participant, get_participant. cbn [fst session_participants
      with_session_participants].
    unfold get_participant in G.
    assert (is_row sid student_id
              {| participant_session_id := sid; participant_student_id := student_id;
                 joined_at := now |} = true) as R.
    { unfold is_row. cbn. rewrite !Z.eqb_refl. reflexivity. }
    rewrite (TableFacts.find_app_single_fresh _ _ _ G R).
    rewrite (RowFacts.remove_first_app_single _ _ _ G R).
    unfold with_session_participants. cbn [quiz_sessions questions student_answers].
    rewrite TableFacts.store_eta. reflexivity.
  - unfold is_participant. intros Hp.
    destruct (get_participant db sid student_id) as [p|] eqn:G; [|discriminate].
    unfold remove_participant. rewrite G. split; [reflexivity|].
    cbn [fst]. unfold get_participant_count, get_participants_by_session.
    cbn [session_participants with_session_participants].
    unfold get_participant in G. clear Hp.
    induction (session_participants db) as [|x l IH]; [discriminate|].
    simpl in G. simpl. destruct (is_row sid student_id x) eqn:Rx.
    + unfold is_row in Rx. apply andb_true_iff in Rx. destruct Rx as [Rx _].
      rewrite Rx. reflexivity.
    + simpl. destruct (participant_session_id x =? sid); simpl; rewrite (IH G); reflexivity.
  - intros sid' student' N. unfold remove_participant.
    destruct (get_participant db sid student_id); [|reflexivity].
    cbn [fst session_participants with_session_participants].
    apply RowFacts.filter_remove_first_other. intros x. apply Other. exact N.
Qed.

Lemma remove_participant_undoes_join_witness :
  remove_participant (fst (add_participant Example.store0 Example.t0 5 7)) 5 7
  = (Example.store0, true).
Proof.
  apply (remove_participant_undoes_join Example.store0 Example.t0 5 7). reflexivity.
Defined.

(** X13.  [delete_session] on an unknown id returns [False] and changes
    nothing.  On a stored session it returns [True] and removes the session
    row together with every participant row and every answer row of that
    session, and nothing else: the other sessions, their participants and
    answers and the questions are as before.  With unique session ids the
    session can no longer be found. *)
Theorem delete_session_cascade (db : Store) (sid : uuid) :
  let r := delete_session db sid in
  (get_session_by_id db sid = None -> r = (db, false))
  /\ (forall session, get_session_by_id db sid = Some session ->
      snd r = true
      /\ get_participants_by_session (fst r) sid = []
      /\ get_answers_by_session (fst r) sid = []
      /\ S (List.length (quiz_sessions (fst r))) = List.length (quiz_sessions db)
      /\ (NoDup (map session_id (quiz_sessions db)) ->
          get_session_by_id (fst r) sid = None))
  /\ (forall sid', sid' <> sid ->
        get_session_by_id (fst r) sid' = get_session_by_id db sid'
        /\ get_participants_by_session (fst r) sid'
           = get_participants_by_session db sid'
        /\ get_answers_by_session (fst r) sid' = get_answers_by_session db sid')
  /\ questions (fst r) = questions db.
Proof.
  cbv zeta. unfold delete_session.
  destruct (get_session_by_id db sid) as [session|] eqn:G.
  - assert (session_id session = sid) as Es.
    { unfold get_session_by_id in G. apply find_some in G. destruct G as [_ G].
      apply Z.eqb_eq. exact G. }
    rewrite Es. cbn [fst snd].
    split; [discriminate|]. split; [|split; [|reflexivity]].
    + intros s _. split; [reflexivity|].
      unfold get_participants_by_session, get_answers_by_session.
      cbn [quiz_sessions session_participants student_answers].
      split; [apply TableFacts.filter_filter_neg_same|].
      split; [apply TableFacts.filter_filter_neg_same|].
      split.
      * rewrite (TableFacts.remove_first_length _ _ _ G).
        unfold get_session_by_id in G. destruct (quiz_sessions db); [discriminate|reflexivity].
      * intros N. unfold get_session_by_id. cbn [quiz_sessions].
        apply TableFacts.find_remove_first_unique. exact N.
    + intros sid' N.
      unfold get_session_by_id, get_participants_by_session, get_answers_by_session.
      cbn [quiz_sessions session_participants student_answers].
      split; [|split].
      * apply RowFacts.find_remove_first_other. intros x Hx. unfold has_id in *.
        apply Z.eqb_eq in Hx. apply Z.eqb_neq. lia.
      * apply TableFacts.filter_filter_neg_other. intros x Hx.
        apply Z.eqb_eq in Hx. apply Z.eqb_neq. lia.
      * apply TableFacts.filter_filter_neg_other. intros x Hx.
        apply Z.eqb_eq in Hx. apply Z.eqb_neq. lia.
  - cbn [fst snd]. split; [reflexivity|]. split; [discriminate|].
    split; [|reflexivity]. intros sid' _. repeat split; reflexivity.
Qed.

Lemma delete_session_cascade_witness :
  let db := fst (join_session Example.store0 Example.t0 "12345" 7) in
  get_participant_count db 5 = 1%nat
  /\ snd (delete_session db 5) = true
  /\ get_participants_by_session (fst (delete_session db 5)) 5 = [].
Proof.
  intros db.
  destruct (delete_session_cascade db 5) as (_ & H & _).
  destruct (H Example.session_pending eq_refl) as (A & B & _).
  split; [reflexivity|]. split; [exact A|exact B].
Defined.

(** X14.  [create_session] stores a PENDING session without current
    question and timestamps whose code is one of the at most 100 codes drawn
    and was used by no stored session, so that session codes stay distinct
    and the new session is the one found by its code; it is found by its id
    when the id is fresh.  If all 100 draws are taken the call raises the
    generator's [ValueError] and stores nothing. *)
Theorem create_session_fresh_code (random_code : nat -> string) (db : Store)
    (now : datetime) (new_id quiz : uuid) :
  match SessionService.create_session random_code db now new_id quiz with
  | Ok (db', session) =>
    (exists k, (k < 100)%nat /\ session_code session = random_code k)
    /\ session_code_exists db (session_code session) = false
    /\ session = {| session_id := new_id; quiz_id := quiz;
                    session_code := session_code session; status := PENDING;
                    current_question_id := None; start_time := None;
                    end_time := None; created_at := now |}
    /\ quiz_sessions db' = quiz_sessions db ++ [session]
    /\ questions db' = questions db
    /\ session_participants db' = session_participants db
    /\ student_answers db' = student_answers db
    /\ get_session_by_code db' (session_code session) = Some session
    /\ (NoDup (map session_code (quiz_sessions db)) ->
        NoDup (map session_code (quiz_sessions db')))
    /\ ((forall s, In s (quiz_sessions db) -> session_id s <> new_id) ->
        get_session_by_id db' new_id = Some session)
  | Raise e =>
    e = exhausted
    /\ forall k, (k < 100)%nat -> session_code_exists db (random_code k) = true
  end.
Proof.
  unfold SessionService.create_session.
  destruct (TableFacts.generate_session_code_cases random_code db)
    as [(k & Hk & E & Free)|[E All]]; rewrite E; cbn [bind].
  - unfold SessionDataAccess.create_session. cbn [session_code].
    assert (find (fun s => String.eqb (session_code s) (random_code k)) (quiz_sessions db)
            = None) as Fn.
    { unfold session_code_exists, get_session_by_code in Free.
      destruct (find _ _); [discriminate|reflexivity]. }
    split; [exists k; split; [exact Hk|reflexivity]|].
    split; [exact Free|]. split; [reflexivity|]. split; [reflexivity|].
    split; [reflexivity|]. split; [reflexivity|]. split; [reflexivity|].
    split; [|split].
    + unfold get_session_by_code. cbn [quiz_sessions with_quiz_sessions].
      apply TableFacts.find_app_single_fresh; [exact Fn|]. cbn. apply String.eqb_refl.
    + intros N. cbn [quiz_sessions with_quiz_sessions]. rewrite map_app. cbn [map session_code].
      apply NoDup_app; [exact N|repeat constructor; intros []|].
      intros c Hc [<-|[]]. apply in_map_iff in Hc. destruct Hc as (s & Es & Hs).
      pose proof (find_none _ _ Fn s Hs) as C. cbv beta in C.
      rewrite Es, String.eqb_refl in C. discriminate.
    + intros Fresh. unfold get_session_by_id. cbn [quiz_sessions with_quiz_sessions].
      apply TableFacts.find_app_single_fresh; [|unfold has_id; cbn; apply Z.eqb_refl].
      apply TableFacts.find_none_forall. intros s Hs. unfold has_id. apply Z.eqb_neq.
      apply Fresh. exact Hs.
  - split; [reflexivity|exact All].
Qed.

Lemma create_session_fresh_code_witness :
  let draws := fun k : nat => match k with O => "12345"%string | _ => "54321"%string end in
  exists db' session,
    SessionService.create_session draws Example.store0 Example.t0 9 1 = Ok (db', session)
    /\ session_code session = "54321"%string
    /\ NoDup (map session_code (quiz_sessions db')).
Proof.
  intros draws.
  pose proof (create_session_fresh_code draws Example.store0 Example.t0 9 1) as H.
  destruct (SessionService.create_session draws Example.store0 Example.t0 9 1)
    as [[db' session]|] eqn:E; [|vm_compute in E; discriminate].
  exists db', session. split; [reflexivity|].
  destruct H as (_ & _ & _ & _ & _ & _ & _ & _ & N & _).
  split; [vm_compute in E; injection E as _ <-; reflexivity|].
  apply N. repeat constructor. intros [].
Defined.

(* ================================================================== *)
(** ** Scores, leaderboard and detailed results *)
(* ================================================================== *)

(** X15.  Of two correct answers scored against the same start time and
    time limit, the one submitted later never gets more points: the score
    is non-increasing in the submission time, rounding included. *)
Theorem later_answer_never_scores_more (a1 a2 : AnswerObj) (start : datetime) (tl : Z) :
  answered_correctly a1 = true -> answered_correctly a2 = true ->
  1 <= tl < 2 ^ 53 ->
  valid_datetime (submitted_at a1) = true -> valid_datetime (submitted_at a2) = true ->
  valid_datetime start = true ->
  submitted_at a1 <= submitted_at a2 ->
  exists s1 s2,
    calculate_answer_score a1 start tl = Ok s1
    /\ calculate_answer_score a2 start tl = Ok s2
    /\ s2 <= s1.
Proof.
  intros C1 C2 Ht V1 V2 Vs Hle.
  destruct (ScoringFacts.answered_correctly_inv a1 C1) as (o1 & S1 & K1).
  destruct (ScoringFacts.answered_correctly_inv a2 C2) as (o2 & S2 & K2).
  destruct (ScoringFacts.score_correct_eval a1 o1 start tl S1 K1 Ht V1 Vs) as [E1 _].
  destruct (ScoringFacts.score_correct_eval a2 o2 start tl S2 K2 Ht V2 Vs) as [E2 _].
  eexists. eexists. split; [exact E1|]. split; [exact E2|].
  apply ScoreOrderFacts.score_antitone; [lia|exact Hle].
Qed.

Lemma later_answer_never_scores_more_witness :
  exists s1 s2,
    calculate_answer_score Example.answer1 Example.t0 30 = Ok s1
    /\ calculate_answer_score
         (Example.answer_of 7 Example.q1 (Some Example.option_a) (Example.t0 + 9000000))
         Example.t0 30 = Ok s2
    /\ s2 <= s1.
Proof.
  apply (later_answer_never_scores_more Example.answer1
           (Example.answer_of 7 Example.q1 (Some Example.option_a) (Example.t0 + 9000000))
           Example.t0 30); try reflexivity.
  - split; [lia|reflexivity].
  - vm_compute. discriminate.
Defined.

(** X16.  Every entry of a leaderboard belongs to a participant of the
    list and reports that student's answers: [answered_count] is the number
    of the student's rows, [correct_count] the number of those whose option
    is correct, [total_points] lies between 700 and 1000 points for each
    correct answer, [percent_correct] lies in [0, 100], and
    [total_questions] is the number of questions of the quiz. *)
Theorem leaderboard_entry_bounds (session : QuizSession)
    (participants : list ParticipantObj) (questions : list Question)
    (all_answers : list AnswerObj) (lb : list LeaderboardEntry) (e : LeaderboardEntry) :
  valid_datetime (question_start_time_of session) = true ->
  forallb scorable all_answers = true ->
  calculate_leaderboard session participants questions all_answers = Ok lb ->
  In e lb ->
  let mine := student_answers_of all_answers (entry_student_id e) in
  (exists p, In p participants
             /\ participant_student_id p = entry_student_id e
             /\ username (student p) = student_name e)
  /\ total_questions e = Z.of_nat (List.length questions)
  /\ answered_count e = Z.of_nat (List.length mine)
  /\ correct_count e = Z.of_nat (List.length (filter answered_correctly mine))
  /\ 0 <= correct_count e <= answered_count e
  /\ 700 * correct_count e <= total_points e <= 1000 * correct_count e
  /\ (0 <= num_val (percent_correct e) <= 100)%Q.
Proof.
  intros Hq Hs E Hin mine.
  destruct (ScoreOrderFacts.leaderboard_entries _ _ _ _ _ _ E Hin) as (_ & p & Hp & Ep).
  destruct (ScoreOrderFacts.score_entry_fields _ _ _ _ _ Hq Hs Ep)
    as (F1 & F2 & F3 & F4 & F5 & F6 & F7 & _).
  unfold mine. rewrite F1.
  split; [exists p; auto|]. split; [exact F3|]. split; [exact F4|]. split; [exact F5|].
  split; [|split; [exact F6|exact F7]].
  rewrite F4, F5.
  pose proof (filter_length_le answered_correctly
                (student_answers_of all_answers (participant_student_id p))). lia.
Qed.

Lemma leaderboard_entry_bounds_witness :
  exists lb e,
    calculate_leaderboard Example.session5 [Example.ann; Example.bob]
      [Example.q1; Example.q2]
      [Example.answer1; Example.bob_wrong; Example.answer2; Example.bob_null] = Ok lb
    /\ hd_error lb = Some e
    /\ answered_count e = 2 /\ correct_count e = 1
    /\ 700 <= total_points e <= 1000.
Proof.
  destruct (calculate_leaderboard Example.session5 [Example.ann; Example.bob]
              [Example.q1; Example.q2]
              [Example.answer1; Example.bob_wrong; Example.answer2; Example.bob_null])
    as [lb|] eqn:E; [|vm_compute in E; discriminate].
  destruct lb as [|e lb]; [vm_compute in E; discriminate|].
  exists (e :: lb), e. split; [reflexivity|]. split; [reflexivity|].
  destruct (leaderboard_entry_bounds Example.session5 [Example.ann; Example.bob]
              [Example.q1; Example.q2]
              [Example.answer1; Example.bob_wrong; Example.answer2; Example.bob_null]
              (e :: lb) e eq_refl eq_refl E (or_introl eq_refl))
    as (_ & _ & A & C & _ & P & _).
  assert (entry_student_id e = 7) as Ei.
  { vm_compute in E. injection E as <- _. reflexivity. }
  rewrite Ei in A, C.
  change (answered_count e = 2) in A. change (correct_count e = 1) in C.
  split; [exact A|]. split; [exact C|]. lia.
Defined.

(** X17.  The sort of the leaderboard is stable: the entries that share a
    sort key (the same points and the same percentage) stand in the order
    in which their participants are listed. *)
Theorem leaderboard_ties_keep_join_order (session : QuizSession)
    (participants : list ParticipantObj) (questions : list Question)
    (all_answers : list AnswerObj) (lb : list LeaderboardEntry) (c : ScoreEntry) :
  questions <> [] ->
  NoDup (map (fun p : ParticipantObj => participant_student_id p) participants) ->
  calculate_leaderboard session participants questions all_answers = Ok lb ->
  map entry_student_id (filter (same_key c) (map entry lb))
  = map (fun p : ParticipantObj => participant_student_id p)
        (filter (fun p =>
                   match score_entry session (Z.of_nat (List.length questions))
                                     all_answers p with
                   | Ok e => same_key c e
                   | Raise _ => false
                   end) participants).
Proof.
  intros Hne Hd E.
  destruct (StableFacts.leaderboard_values _ _ _ _ _ Hne Hd E) as (es & -> & F2).
  rewrite LeaderboardFacts.add_ranks_entry.
  unfold same_key.
  rewrite (StableFacts.sort_by_stable key_gt
             (fun x y z => LeaderboardFacts.key_gt_negtrans x y z) c (map snd es)).
  apply (StableFacts.class_order session _ all_answers c participants es F2).
Qed.

Lemma leaderboard_ties_keep_join_order_witness :
  exists lb e,
    calculate_leaderboard Example.session5 [Example.bob; Example.ann]
      [Example.q1; Example.q2] [Example.bob_wrong; Example.answer2] = Ok lb
    /\ hd_error lb = Some e
    /\ map entry_student_id (filter (same_key e) (map entry lb)) = [8; 7].
Proof.
  destruct (calculate_leaderboard Example.session5 [Example.bob; Example.ann]
              [Example.q1; Example.q2] [Example.bob_wrong; Example.answer2])
    as [lb|] eqn:E; [|vm_compute in E; discriminate].
  destruct lb as [|e lb]; [vm_compute in E; discriminate|].
  exists (e :: lb), e. split; [reflexivity|]. split; [reflexivity|].
  rewrite (leaderboard_ties_keep_join_order Example.session5 [Example.bob; Example.ann]
             [Example.q1; Example.q2] [Example.bob_wrong; Example.answer2] (e :: lb) e
             ltac:(discriminate)
             ltac:(repeat constructor; simpl; intuition discriminate) E).
  vm_compute in E. injection E as <- _. vm_compute. reflexivity.
Defined.

(** X18.  Before anybody has answered, the leaderboard of a quiz with
    questions lists the participants (distinct students) in the order in
    which they are listed, ranked 1, 2, ..., each with 0 points, 0 correct
    and 0 answered questions and the integer 0 as percentage. *)
Theorem leaderboard_before_any_answer (session : QuizSession)
    (participants : list ParticipantObj) (questions : list Question) :
  questions <> [] ->
  NoDup (map (fun p : ParticipantObj => participant_student_id p) participants) ->
  exists lb,
    calculate_leaderboard session participants questions [] = Ok lb
    /\ map (fun e : LeaderboardEntry => entry_student_id e) lb
       = map (fun p : ParticipantObj => participant_student_id p) participants
    /\ map (fun e : LeaderboardEntry => student_name e) lb
       = map (fun p : ParticipantObj => username (student p)) participants
    /\ map rank lb = map Z.of_nat (seq 1 (List.length participants))
    /\ Forall (fun e : LeaderboardEntry =>
                 total_points e = 0 /\ correct_count e = 0 /\ answered_count e = 0
                 /\ percent_correct e = PyInt 0
                 /\ total_questions e = Z.of_nat (List.length questions)) lb.
Proof.
  intros Hne Hd. unfold calculate_leaderboard. cbv zeta.
  destruct (Z.of_nat (List.length questions) =? 0) eqn:Z0.
  { apply Z.eqb_eq in Z0. destruct questions; [destruct (Hne eq_refl)|simpl in Z0; lia]. }
  rewrite (PercentFacts.student_scores_no_answers session _ participants [] Hd).
  cbn [bind app]. unfold dict_values. rewrite map_map. cbn [snd].
  set (zero := fun p : ParticipantObj => _).
  rewrite StableFacts.sort_by_all_tied.
  2:{ intros x y Hx Hy. apply in_map_iff in Hx, Hy.
      destruct Hx as (px & <- & _), Hy as (py & <- & _). reflexivity. }
  eexists. split; [reflexivity|].
  assert (forall f : ScoreEntry -> Z,
            map (fun e : LeaderboardEntry => f e) (add_ranks (map zero participants))
            = map (fun p => f (zero p)) participants) as Mz.
  { intros f. rewrite <- (map_map entry f), LeaderboardFacts.add_ranks_entry, map_map.
    reflexivity. }
  split; [apply (Mz entry_student_id)|].
  split.
  { rewrite <- (map_map entry student_name), LeaderboardFacts.add_ranks_entry, map_map.
    reflexivity. }
  split; [rewrite LeaderboardFacts.add_ranks_rank, length_map; reflexivity|].
  apply Forall_forall. intros e He.
  assert (In (entry e) (map entry (add_ranks (map zero participants)))) as H
    by (apply in_map; exact He).
  rewrite LeaderboardFacts.add_ranks_entry in H. apply in_map_iff in H.
  destruct H as (p & <- & _). repeat split; reflexivity.
Qed.

Lemma leaderboard_before_any_answer_witness :
  exists lb,
    calculate_leaderboard Example.session5 [Example.bob; Example.ann]
      [Example.q1; Example.q2] [] = Ok lb
    /\ map (fun e : LeaderboardEntry => entry_student_id e) lb = [8; 7]
    /\ map rank lb = [1; 2].
Proof.
  destruct (leaderboard_before_any_answer Example.session5 [Example.bob; Example.ann]
              [Example.q1; Example.q2] ltac:(discriminate)
              ltac:(repeat constructor; simpl; intuition discriminate))
    as (lb & E & I & _ & R & _).
  exists lb. split; [exact E|]. split; [exact I|exact R].
Defined.

(** X19.  With distinct question ids and option orders that [chr] accepts,
    the detailed results are returned whenever the leaderboard is: one row
    for each leaderboard entry, in leaderboard order, repeating its rank,
    name, points, percentage and participation, and holding exactly one
    answer column for each question, numbered 1, 2, ... in question order. *)
Theorem detailed_results_shape (session : QuizSession)
    (participants : list ParticipantObj) (questions : list Question)
    (all_answers : list AnswerObj) (lb : list LeaderboardEntry) :
  NoDup (map question_id questions) ->
  (forall (a : AnswerObj) o, In a all_answers -> selected_option a = Some o ->
     0 <= 64 + option_order o < 1114112) ->
  calculate_leaderboard session participants questions all_answers = Ok lb ->
  exists rows,
    get_detailed_results session participants questions all_answers = Ok rows
    /\ Forall2 (fun (e : LeaderboardEntry) r =>
                  result_rank r = rank e
                  /\ result_student_name r = student_name e
                  /\ result_total_points r = total_points e
                  /\ result_percent_correct r = percent_correct e
                  /\ result_participation r = participation e
                  /\ map fst (result_answers r)
                     = map Z.of_nat (seq 1 (List.length questions)))
               lb rows.
Proof.
  intros N Hc E. unfold get_detailed_results. rewrite E. cbn [bind].
  destruct (AnswerMapFacts.detailed_rows_total questions all_answers N Hc lb)
    as (rows & Er & F).
  exists rows. split; [exact Er|].
  clear Er E. induction F as [|e r lb rows Hr _ IH]; constructor; [|exact IH].
  destruct (AnswerMapFacts.detailed_row_eval _ _ _ _ N Hr) as (amap & _ & ->).
  cbn [result_rank result_student_name result_total_points result_percent_correct
       result_participation result_answers].
  repeat split.
  rewrite AnswerMapFacts.columns_keys, <- seq_shift, map_map.
  apply map_ext. intros i. lia.
Qed.

Lemma detailed_results_shape_witness :
  exists rows,
    get_detailed_results Example.session5 [Example.ann; Example.bob]
      [Example.q1; Example.q2]
      [Example.answer1; Example.bob_wrong; Example.answer2; Example.bob_null] = Ok rows
    /\ map result_rank rows = [1; 2]
    /\ map (fun r => map fst (result_answers r)) rows = [[1; 2]; [1; 2]].
Proof.
  destruct (calculate_leaderboard Example.session5 [Example.ann; Example.bob]
              [Example.q1; Example.q2]
              [Example.answer1; Example.bob_wrong; Example.answer2; Example.bob_null])
    as [lb|] eqn:E; [|vm_compute in E; discriminate].
  destruct (detailed_results_shape Example.session5 [Example.ann; Example.bob]
              [Example.q1; Example.q2]
              [Example.answer1; Example.bob_wrong; Example.answer2; Example.bob_null] lb)
    as (rows & Er & F).
  - repeat constructor; simpl; intuition discriminate.
  - intros a o Hin H. destruct Hin as [<-|[<-|[<-|[<-|[]]]]].
    + vm_compute in H. injection H as <-. vm_compute. split; [discriminate|reflexivity].
    + vm_compute in H. injection H as <-. vm_compute. split; [discriminate|reflexivity].
    + vm_compute in H. injection H as <-. vm_compute. split; [discriminate|reflexivity].
    + vm_compute in H. discriminate.
  - exact E.
  - exists rows. split; [exact Er|].
    vm_compute in Er. injection Er as <-. vm_compute. split; reflexivity.
Defined.

(** X20.  In a row of the detailed results the column of a question shows
    the letter [chr(64 + option_order)] of the student's last stored answer
    to that question that has an option, and '-' when the student has no
    such answer. *)
Theorem detailed_row_cells (questions : list Question) (all_answers : list AnswerObj)
    (e : LeaderboardEntry) (r : DetailedResult) (i : nat) (q : Question) :
  NoDup (map question_id questions) ->
  detailed_row questions all_answers e = Ok r ->
  nth_error questions i = Some q ->
  dict_get (Z.of_nat i + 1) (result_answers r)
  = Some match find (fun a : AnswerObj =>
                       (answer_question_id a =? question_id q)
                       && match selected_option a with Some _ => true | None => false end)
                    (rev (student_answers_of all_answers (entry_student_id e))) with
         | Some a =>
           match selected_option a with
           | Some o => 64 + option_order o
           | None => dash
           end
         | None => dash
         end.
Proof.
  intros N Hr Hn.
  destruct (AnswerMapFacts.detailed_row_eval _ _ _ _ N Hr) as (amap & Ea & ->).
  cbn [result_answers].
  replace (Z.of_nat i + 1) with (1 + Z.of_nat i) by lia.
  rewrite (DetailFacts.dict_get_columns (answer_cell amap) questions 1 i q Hn).
  f_equal. unfold answer_cell.
  rewrite (AnswerMapFacts.answer_map_last (question_id q) _ _ _ Ea).
  destruct (find _ _) as [a|] eqn:F; [|reflexivity].
  apply find_some in F. destruct F as [_ F]. apply andb_prop in F. destruct F as [_ F].
  destruct (selected_option a); [reflexivity|discriminate].
Qed.

Lemma detailed_row_cells_witness :
  let e := {| entry := {| entry_student_id := 8; student_name := "bob"; total_points := 0;
                          correct_count := 0; total_questions := 2; answered_count := 2;
                          percent_correct := PyFloat 0; participation := "2/2" |};
              rank := 2 |} in
  let answers := [Example.answer1; Example.bob_wrong; Example.answer2; Example.bob_null] in
  exists r,
    detailed_row [Example.q1; Example.q2] answers e = Ok r
    /\ dict_get 1 (result_answers r) = Some 67
    /\ dict_get 2 (result_answers r) = Some dash.
Proof.
  intros e answers.
  assert (NoDup (map question_id [Example.q1; Example.q2])) as N
    by (repeat constructor; simpl; intuition discriminate).
  destruct (detailed_row [Example.q1; Example.q2] answers e) as [r|] eqn:E;
    [|vm_compute in E; discriminate].
  exists r. split; [reflexivity|]. split.
  - etransitivity;
      [exact (detailed_row_cells [Example.q1; Example.q2] answers e r 0 Example.q1
                N E eq_refl)|].
    vm_compute. reflexivity.
  - etransitivity;
      [exact (detailed_row_cells [Example.q1; Example.q2] answers e r 1 Example.q2
                N E eq_refl)|].
    vm_compute. reflexivity.
Defined.

(** X22.  A student whose answers are all correct is shown 100.0 percent
    and one who has answered without a correct answer 0.0 percent and 0
    points, however many answers there are; a participant without any answer
    is shown the integer 0 and 0 points. *)
Theorem percent_correct_extremes (session : QuizSession) (tq : Z)
    (all_answers : list AnswerObj) (p : ParticipantObj) (e : ScoreEntry) :
  valid_datetime (question_start_time_of session) = true ->
  forallb scorable all_answers = true ->
  score_entry session tq all_answers p = Ok e ->
  let mine := student_answers_of all_answers (participant_student_id p) in
  (mine = [] -> percent_correct e = PyInt 0 /\ total_points e = 0)
  /\ (mine <> [] -> forallb answered_correctly mine = true ->
      percent_correct e = PyFloat 100
      /\ 700 * answered_count e <= total_points e <= 1000 * answered_count e)
  /\ (mine <> [] -> forallb (fun a => negb (answered_correctly a)) mine = true ->
      percent_correct e = PyFloat 0 /\ total_points e = 0).
Proof.
  intros Hq Hs E mine.
  destruct (ScoreOrderFacts.score_entry_fields _ _ _ _ _ Hq Hs E)
    as (_ & _ & _ & F4 & F5 & F6 & _ & (v & Ev & Er) & _).
  fold mine in F4, F5.
  assert (forall l : list AnswerObj, l <> [] -> 0 < Z.of_nat (List.length l)) as Pos.
  { intros [|x l] H; [destruct (H eq_refl)|simpl; lia]. }
  split; [|split].
  - intros M. rewrite M in F4, F5. cbn in F4, F5. rewrite F4, F5 in Ev.
    cbn in Ev. injection Ev as <-. split; [exact Er|lia].
  - intros M A. rewrite (PercentFacts.filter_all _ _ A) in F5.
    rewrite F5, F4, (PercentFacts.percent_of_all _ (Pos mine M)) in Ev.
    injection Ev as <-. split; [|lia].
    rewrite Er. cbn [round1]. rewrite ScoreOrderFacts.py_round1_100. reflexivity.
  - intros M A. rewrite (PercentFacts.filter_none _ _ A) in F5. cbn in F5.
    rewrite F5, F4, (PercentFacts.percent_of_none _ (Pos mine M)) in Ev.
    injection Ev as <-. split; [|lia].
    rewrite Er. cbn [round1]. rewrite ScoreOrderFacts.py_round1_0. reflexivity.
Qed.

Lemma percent_correct_extremes_witness :
  exists e,
    score_entry Example.session5 2 [Example.answer1; Example.bob_wrong] Example.ann = Ok e
    /\ percent_correct e = PyFloat 100.
Proof.
  destruct (score_entry Example.session5 2 [Example.answer1; Example.bob_wrong] Example.ann)
    as [e|] eqn:E; [|vm_compute in E; discriminate].
  exists e. split; [reflexivity|].
  destruct (percent_correct_extremes Example.session5 2
              [Example.answer1; Example.bob_wrong] Example.ann e eq_refl eq_refl E)
    as (_ & H & _).
  apply H; [discriminate|reflexivity].
Defined.

(** X23.  The time an answer took is counted from the start time of the
    session (its creation time while it has none), for every question of the
    quiz alike: a student whose correct answers all arrive at least
    [time_limit] seconds after that moment gets exactly 700 points for each
    of them, and one whose correct answers are all stamped at or before it
    gets exactly 1000 for each. *)
Theorem speed_bonus_counts_from_session_start (session : QuizSession) (tq : Z)
    (all_answers : list AnswerObj) (p : ParticipantObj) (e : ScoreEntry) :
  valid_datetime (question_start_time_of session) = true ->
  forallb scorable all_answers = true ->
  score_entry session tq all_answers p = Ok e ->
  let mine := student_answers_of all_answers (participant_student_id p) in
  let start := question_start_time_of session in
  ((forall a : AnswerObj, In a mine -> answered_correctly a = true ->
      start + time_limit (answer_question a) * 1000000 <= submitted_at a) ->
   total_points e = 700 * correct_count e)
  /\ ((forall a : AnswerObj, In a mine -> answered_correctly a = true ->
         submitted_at a <= start) ->
      total_points e = 1000 * correct_count e).
Proof.
  intros Hq Hs E mine start.
  assert (forall a : AnswerObj, In a mine -> scorable a = true) as Sc.
  { intros a Ha. unfold mine, student_answers_of in Ha. apply filter_In in Ha.
    rewrite forallb_forall in Hs. apply Hs. apply Ha. }
  split; intros H.
  - apply (TallyFacts.score_entry_uniform session tq all_answers p e 700); [|exact E].
    intros a Ha C. apply TallyFacts.score_late; auto.
  - apply (TallyFacts.score_entry_uniform session tq all_answers p e 1000); [|exact E].
    intros a Ha C. apply TallyFacts.score_early; auto.
Qed.

Lemma speed_bonus_counts_from_session_start_witness :
  let late := Example.answer_of 7 Example.q2
                (Some {| option_id := 104; option_question_id := 12; option_order := 1;
                         is_correct := true |})
                (Example.t0 + 45000000) in
  exists e,
    score_entry Example.session5 2 [late] Example.ann = Ok e
    /\ total_points e = 700 * correct_count e.
Proof.
  intros late.
  destruct (score_entry Example.session5 2 [late] Example.ann) as [e|] eqn:E;
    [|vm_compute in E; discriminate].
  exists e. split; [reflexivity|].
  apply (speed_bonus_counts_from_session_start Example.session5 2 [late] Example.ann e
           eq_refl eq_refl E).
  intros a [<-|[]] _. vm_compute. discriminate.
Defined.

(** X24.  The leaderboard reads, for each participant, only the answers
    carrying that participant's student id: two answer lists that agree on
    the answers of every participant give the same leaderboard, so the
    answers of students who never joined the session change nothing. *)
Theorem leaderboard_reads_participants_only (session : QuizSession)
    (participants : list ParticipantObj) (questions : list Question)
    (answers answers' : list AnswerObj) :
  (forall p : ParticipantObj, In p participants ->
     student_answers_of answers (participant_student_id p)
     = student_answers_of answers' (participant_student_id p)) ->
  calculate_leaderboard session participants questions answers
  = calculate_leaderboard session participants questions answers'.
Proof.
  intros H. unfold calculate_leaderboard. cbv zeta.
  destruct (Z.of_nat (List.length questions) =? 0); [reflexivity|].
  rewrite (TallyFacts.student_scores_same_answers session _ answers answers'
             participants H []).
  reflexivity.
Qed.

Lemma leaderboard_reads_participants_only_witness :
  calculate_leaderboard Example.session5 [Example.ann] [Example.q1; Example.q2]
    [Example.answer1; Example.answer2]
  = calculate_leaderboard Example.session5 [Example.ann] [Example.q1; Example.q2]
      [Example.bob_wrong; Example.answer1; Example.answer2; Example.bob_null].
Proof.
  apply (leaderboard_reads_participants_only Example.session5 [Example.ann]
           [Example.q1; Example.q2]).
  intros p [<-|[]]. reflexivity.
Defined.

(** X25.  [submit_answer] never reads the session row.  For a stored
    session, a participant of it and a stored question, a submission made
    after any lifecycle calls on the session, [end_session] included, is
    stored exactly as it would have been before them, and the lookup of its
    key then returns the submitted row with the given option and the time of
    the call.  (The option id, when given, is taken to be the id of a stored
    option: the options table is the one table behind a foreign key of the
    row that the model does not hold.) *)
Theorem submit_answer_ignores_session_status (db : Store) (sid : uuid)
    (cs : list Command) (now : datetime) (st q : uuid) (o : option uuid)
    (session : QuizSession) (question : Question) :
  get_session_by_id db sid = Some session ->
  is_participant db sid st = true ->
  In question (questions db) -> question_id question = q ->
  let db1 := run_commands sid db cs in
  let r := submit_answer db1 now sid st q o in
  map session_id (quiz_sessions db1) = map session_id (quiz_sessions db)
  /\ is_participant db1 sid st = true
  /\ In question (questions db1)
  /\ student_answers (fst r) = student_answers (fst (submit_answer db now sid st q o))
  /\ snd r = snd (submit_answer db now sid st q o)
  /\ get_student_answer (fst r) sid st q = Some (snd r)
  /\ answer_option_id (snd r) = o /\ submitted_at (snd r) = now.
Proof.
  intros _ Hp Hq _. cbv zeta.
  destruct (LifecycleFacts.run_commands_frame sid cs db) as (Fq & Fp & A & Fi & _).
  destruct (TallyFacts.submit_answer_reads_answers_only _ db now sid st q o A) as [E1 E2].
  split; [exact Fi|].
  split; [unfold is_participant, get_participant in *; rewrite Fp; exact Hp|].
  split; [rewrite Fq; exact Hq|].
  split; [exact E1|]. split; [exact E2|].
  destruct (AnswerFacts.submit_answer_rows (run_commands sid db cs) now sid st q o)
    as (R & O & T & _).
  split; [|split; assumption].
  unfold get_student_answer. rewrite ListFacts.find_filter_head, R.
  destruct (filter (answer_key_matches sid st q)
                   (student_answers (run_commands sid db cs))); reflexivity.
Qed.

Lemma submit_answer_ignores_session_status_witness :
  let db := fst (join_session Example.store0 Example.t0 "12345" 7) in
  let db1 := run_commands 5 db [Start Example.t0; End_ (Example.t0 + 60000000)] in
  let r := submit_answer db1 (Example.t0 + 90000000) 5 7 11 (Some 101) in
  option_map status (get_session_by_id db1 5) = Some CLOSED
  /\ get_student_answer (fst r) 5 7 11 = Some (snd r)
  /\ answer_option_id (snd r) = Some 101.
Proof.
  intros db db1 r.
  destruct (submit_answer_ignores_session_status db 5
              [Start Example.t0; End_ (Example.t0 + 60000000)]
              (Example.t0 + 90000000) 7 11 (Some 101) Example.session_pending Example.q1
              eq_refl eq_refl (or_intror (or_intror (or_introl eq_refl))) eq_refl)
    as (_ & _ & _ & _ & _ & G & O & _).
  split; [reflexivity|]. split; [exact G|exact O].
Defined.

(** X26.  The unguarded division reaches the leaderboard: if some
    participant has a correct answer to a question whose [time_limit] is 0,
    then, the other answers being scorable, [calculate_leaderboard] raises
    [ZeroDivisionError] for the whole session, and so does
    [get_detailed_results]. *)
Theorem zero_time_limit_breaks_leaderboard (session : QuizSession)
    (participants : list ParticipantObj) (questions : list Question)
    (all_answers : list AnswerObj) (p : ParticipantObj) (a : AnswerObj) :
  questions <> [] ->
  valid_datetime (question_start_time_of session) = true ->
  (forall a' : AnswerObj, In a' all_answers ->
     scorable a' = true
     \/ (answered_correctly a' = true /\ time_limit (answer_question a') = 0
         /\ valid_datetime (submitted_at a') = true)) ->
  In p participants -> In a all_answers ->
  answer_student_id a = participant_student_id p ->
  answered_correctly a = true -> time_limit (answer_question a) = 0 ->
  calculate_leaderboard session participants questions all_answers
  = Raise ZeroDivisionError
  /\ get_detailed_results session participants questions all_answers
     = Raise ZeroDivisionError.
Proof.
  intros Hne Hq H Hp Ha Ia Ca Za.
  assert (calculate_leaderboard session participants questions all_answers
          = Raise ZeroDivisionError) as E.
  { unfold calculate_leaderboard. cbv zeta.
    destruct (Z.of_nat (List.length questions) =? 0) eqn:Z0.
    { apply Z.eqb_eq in Z0. destruct questions; [destruct (Hne eq_refl)|simpl in Z0; lia]. }
    rewrite (ZeroLimitFacts.student_scores_raises session _ all_answers participants Hq H);
      [reflexivity|].
    exists p, a. auto. }
  split; [exact E|]. unfold get_detailed_results. rewrite E. reflexivity.
Qed.

Lemma zero_time_limit_breaks_leaderboard_witness :
  let q0 := {| question_id := 13; question_quiz_id := 1; question_order := 3;
               time_limit := 0 |} in
  let o0 := {| option_id := 105; option_question_id := 13; option_order := 1;
               is_correct := true |} in
  let a0 := Example.answer_of 8 q0 (Some o0) (Example.t0 + 4000000) in
  calculate_leaderboard Example.session5 [Example.ann; Example.bob]
    [Example.q1; Example.q2; q0] [Example.answer1; a0]
  = Raise ZeroDivisionError.
Proof.
  intros q0 o0 a0.
  refine (proj1 (zero_time_limit_breaks_leaderboard Example.session5
                   [Example.ann; Example.bob] [Example.q1; Example.q2; q0]
                   [Example.answer1; a0] Example.bob a0 _ eq_refl _ _ _ eq_refl eq_refl
                   eq_refl)).
  - discriminate.
  - intros a' [<-|[<-|[]]]; [left; reflexivity|right; repeat split; reflexivity].
  - right. left. reflexivity.
  - right. left. reflexivity.
Defined.
